(** * Distrobuild scheduler: reconciliation and signing

    A shallow embedding of [distrobuild_scheduler/periodic_tasks.py]:
    the Status Reconciler ([atomic_check_build_status]), the Signing
    Coordinator ([atomic_sign_unsigned_builds]) and the two periodic
    cycles that drive them ([check_build_status], [sign_unsigned_builds]).

    The Python code talks to three collaborators (the koji session, the
    MBS client, the sigul signer) and to the record store through the
    ORM.  The collaborators are kept abstract: a world type [W] and one
    transition per remote call.  The record store is a pair of tables.
    Every function of the source becomes a computation in a monad that
    threads the world and the store, collects the observable effects of
    the run, and propagates Python exceptions. *)

From Stdlib Require Import ZArith List String Bool Lia.
Import ListNotations.

Local Open Scope string_scope.
Local Open Scope list_scope.
Local Open Scope Z_scope.

(** ** Data model *)

(** [distrobuild.models.BuildStatus] *)
Module BuildStatus.
Inductive t : Set := BUILDING | SUCCEEDED | FAILED | CANCELLED.

Definition eqb (a b : t) : bool :=
  match a, b with
  | BUILDING, BUILDING | SUCCEEDED, SUCCEEDED
  | FAILED, FAILED | CANCELLED, CANCELLED => true
  | _, _ => false
  end.
End BuildStatus.

(** [distrobuild.models.Package]: the columns this module reads or writes.
    [last_build] is a nullable timestamp. *)
Module Package.
Record t : Set := mk { id : Z; name : string; last_build : option Z }.

Definition set_last_build (v : option Z) (p : t) : t :=
  {| id := id p; name := name p; last_build := v |}.
End Package.

(** [distrobuild.models.Build]: one row of the build table.  [koji_id] and
    [mbs_id] are nullable integer columns. *)
Module Build.
Record t : Set := mk {
  id : Z;
  koji_id : option Z;
  mbs_id : option Z;
  package_id : Z;
  status : BuildStatus.t;
  signed : bool
}.

Definition set_status (v : BuildStatus.t) (b : t) : t :=
  {| id := id b; koji_id := koji_id b; mbs_id := mbs_id b;
     package_id := package_id b; status := v; signed := signed b |}.

Definition set_signed (v : bool) (b : t) : t :=
  {| id := id b; koji_id := koji_id b; mbs_id := mbs_id b;
     package_id := package_id b; status := status b; signed := v |}.
End Build.

(** Modelled from the spec: [koji.TASK_STATES] is declared by the koji
    client library, not by this repository; the task state is one of
    CLOSED, CANCELED, FAILED or another state.  The six names are the
    keys of the library's table. *)
Module koji.
Inductive TASK_STATES : Set :=
  FREE | OPEN | CLOSED | CANCELED | ASSIGNED | FAILED.
End koji.

(** The dictionaries returned by the koji hub and by MBS, with the keys
    the code reads. *)
Module TaskInfo.
Record t : Set := mk { state : koji.TASK_STATES }.
End TaskInfo.

Module BuildTask.
Record t : Set := mk { build_id : Z; nvr : string }.
End BuildTask.

Module TagEntry.
(** key ["tag.name"] *)
Record t : Set := mk { tag_name : string }.
End TagEntry.

Module BuildHistory.
(** [tag_listing] is [None] when the key ["tag_listing"] is absent. *)
Record t : Set := mk { tag_listing : option (list TagEntry.t) }.
End BuildHistory.

Module Rpm.
Record t : Set := mk { id : Z; nvr : string; arch : string }.
End Rpm.

Module RpmSig.
Record t : Set := mk { sigkey : string }.
End RpmSig.

Module ModuleBuild.
Record t : Set := mk { state_name : string }.
End ModuleBuild.

(** [distrobuild.settings.settings]: the two values read here. *)
Record Settings : Set := { sigul_key_id : string; disable_sigul : bool }.

(** Python exceptions.  [koji.BuildError] is a subclass of
    [koji.GenericError]; the constructor [GenericError] stands for every
    [koji.GenericError] that is not a [BuildError].  [Exception msg]
    stands for every other subclass of [Exception].  The last two,
    [asyncio.CancelledError] and [KeyboardInterrupt], derive from
    [BaseException] and not from [Exception]. *)
Inductive exn : Set :=
| BuildError
| GenericError
| Fault
| DoesNotExist
| MultipleObjectsReturned
| AttributeError
| Exception (msg : string)
| CancelledError
| KeyboardInterrupt.

(** [isinstance(e, Exception)]: what an [except Exception] clause
    catches. *)
Definition is_Exception (e : exn) : bool :=
  match e with
  | CancelledError | KeyboardInterrupt => false
  | _ => true
  end.

(** ** Remote calls *)

(** One constructor per remote operation, named as in the source:
    the methods of [koji_session], [mbs_client.get_build] and
    [sign_koji_package]. *)
Inductive Call : Set :=
| packageListAdd (tag pkg owner : string)
| listBuilds (taskID : Z)
| queryHistory (build : Z)
| tagBuild (tag nvr : string)
| listBuildRPMs (build_id : Z)
| queryRPMSigs (rpm_id : Z)
| writeSignedRPM (nvr_arch sigkey : string)
| getTaskInfo (task_id : Z)
| getTaskResult (task_id : Z)
| get_build (mbs_id : Z)
| sign_koji_package (nvr_arch : string).

(** What each call returns when it does not raise. *)
Definition Resp (c : Call) : Set :=
  match c with
  | packageListAdd _ _ _ => unit
  | listBuilds _ => list BuildTask.t
  | queryHistory _ => BuildHistory.t
  | tagBuild _ _ => unit
  | listBuildRPMs _ => list Rpm.t
  | queryRPMSigs _ => list RpmSig.t
  | writeSignedRPM _ _ => unit
  | getTaskInfo _ => TaskInfo.t
  | getTaskResult _ => string
  | get_build _ => ModuleBuild.t
  | sign_koji_package _ => unit
  end.

(** The collaborators of the scheduler, over a world [W] that holds
    whatever state they have (the koji hub, MBS, the signer, the clock).
    [session] performs one call: the world moves on and the call returns
    or raises; a task cancelled while it awaits a call is a call that
    raises [CancelledError].  The awaits on the record store and
    [asyncio.sleep] are taken to return.  [tags_compose] is the value of
    [tags.compose()], the name of the release tag. *)
Class Collaborators (W : Type) : Type := {
  session : forall c : Call, W -> W * (exn + Resp c);
  datetime_now : W -> Z;
  asyncio_sleep : Z -> W -> W;
  tags_compose : string;
  settings : Settings
}.

(** Observable effects of a run, in order.  [Called c r] is one remote
    call, with the exception it raised if it did. *)
Inductive Event : Set :=
| Called (c : Call) (raised : option exn)
| SavedBuild (b : Build.t)
| SavedPackage (p : Package.t)
| LogDebug (msg : string)
| LogError (e : exn)
| Slept (seconds : Z).

(** ** The record store *)

Record Db : Set := { builds : list Build.t; packages : list Package.t }.

(** [UPDATE ... WHERE id = ...]: what [save()] does to a table for an
    instance that was loaded from it. *)
Definition update_build (b : Build.t) (rows : list Build.t) : list Build.t :=
  map (fun r => if Build.id r =? Build.id b then b else r) rows.

Definition update_package (p : Package.t) (rows : list Package.t)
  : list Package.t :=
  map (fun r => if Package.id r =? Package.id p then p else r) rows.

(** [Build.filter(status=BuildStatus.BUILDING)] *)
Definition building (b : Build.t) : bool :=
  BuildStatus.eqb (Build.status b) BuildStatus.BUILDING.

(** [Build.filter(signed=False, status=BuildStatus.SUCCEEDED)] *)
Definition unsigned_succeeded (b : Build.t) : bool :=
  negb (Build.signed b)
  && BuildStatus.eqb (Build.status b) BuildStatus.SUCCEEDED.

(** [prefetch_related("package")]: the instance gets the package its
    foreign key points to, or [None] when there is no such row. *)
Definition prefetch_package (d : Db) (b : Build.t)
  : Build.t * option Package.t :=
  (b, find (fun p => Package.id p =? Build.package_id b) (packages d)).

(** The rows selected by the signing cycle, each with its package. *)
Definition candidates_for_signing (d : Db)
  : list (Build.t * option Package.t) :=
  map (prefetch_package d) (filter unsigned_succeeded (builds d)).

(** The rows selected by the status cycle. *)
Definition candidates_for_status (d : Db) : list Build.t :=
  filter building (builds d).

(** Python truth value of a nullable integer column: [None] and [0] are
    false. *)
Definition truthy (o : option Z) : bool :=
  match o with
  | Some n => negb (n =? 0)
  | None => false
  end.

Definition int_of (o : option Z) : Z :=
  match o with
  | Some n => n
  | None => 0
  end.

(** ** The monad *)

Section Scheduler.

Context {W : Type} {collab : Collaborators W}.

Record State : Type := { world : W; db : Db }.

(** The result of running a computation: the state it leaves, the
    effects it had, and its value or the exception that ended it. *)
Record Result (A : Type) : Type := {
  state : State;
  events : list Event;
  value : exn + A
}.
Arguments state {A} _.
Arguments events {A} _.
Arguments value {A} _.

Definition M (A : Type) : Type := State -> Result A.

Definition ret {A} (a : A) : M A :=
  fun s => {| state := s; events := []; value := inr a |}.

Definition raise {A} (e : exn) : M A :=
  fun s => {| state := s; events := []; value := inl e |}.

Definition bind {A B} (m : M A) (f : A -> M B) : M B :=
  fun s =>
    let r := m s in
    match value r with
    | inl e => {| state := state r; events := events r; value := inl e |}
    | inr a =>
        let r' := f a (state r) in
        {| state := state r';
           events := events r ++ events r';
           value := value r' |}
    end.

Notation "x <- m ;; k" := (bind m (fun x => k))
  (at level 61, m at next level, right associativity).
Notation "m ;; k" := (bind m (fun _ => k))
  (at level 61, right associativity).

(** [try: m], for the [except] and [finally] clauses that follow it: the
    outcome of [m] as a value.  Which exceptions are handled, and what
    happens to the others, is written out where [try] is used. *)
Definition try {A} (m : M A) : M (exn + A) :=
  fun s =>
    let r := m s in
    {| state := state r; events := events r; value := inr (value r) |}.

Definition emit (ev : Event) : M unit :=
  fun s => {| state := s; events := [ev]; value := inr tt |}.

(** One remote call. *)
Definition call (c : Call) : M (Resp c) :=
  fun s =>
    let (w, r) := session c (world s) in
    {| state := {| world := w; db := db s |};
       events := [Called c (match r with inl e => Some e | inr _ => None end)];
       value := r |}.

(** [for x in xs: body] *)
Fixpoint for_each {A} (xs : list A) (body : A -> M unit) : M unit :=
  match xs with
  | [] => ret tt
  | x :: xs' => body x ;; for_each xs' body
  end.

(** [for x in xs: body], where the body updates a local variable. *)
Fixpoint for_each_with {A V} (xs : list A) (v : V) (body : V -> A -> M V)
  : M V :=
  match xs with
  | [] => ret v
  | x :: xs' => v' <- body v x ;; for_each_with xs' v' body
  end.

(** [continue] as the last statement of a loop body, and [pass]. *)
Definition continue : M unit := ret tt.
Definition pass : M unit := ret tt.

(** [@atomic()]: the body runs in a transaction; an exception that
    leaves it rolls the record store back and propagates. *)
Definition atomic {A} (m : M A) : M A :=
  fun s =>
    let r := m s in
    match value r with
    | inl e =>
        {| state := {| world := world (state r); db := db s |};
           events := events r;
           value := inl e |}
    | inr _ => r
    end.

(** ** ORM operations *)

(** [await build.save()] *)
Definition Build_save (b : Build.t) : M unit :=
  fun s =>
    {| state := {| world := world s;
                   db := {| builds := update_build b (builds (db s));
                            packages := packages (db s) |} |};
       events := [SavedBuild b];
       value := inr tt |}.

(** [await package.save()] *)
Definition Package_save (p : Package.t) : M unit :=
  fun s =>
    {| state := {| world := world s;
                   db := {| builds := builds (db s);
                            packages := update_package p (packages (db s)) |} |};
       events := [SavedPackage p];
       value := inr tt |}.

(** [await Package.filter(id=...).get()]: exactly one row, or
    [DoesNotExist], or [MultipleObjectsReturned]. *)
Definition Package_get (package_id : Z) : M Package.t :=
  fun s =>
    match filter (fun p => Package.id p =? package_id) (packages (db s)) with
    | [p] => ret p s
    | [] => raise DoesNotExist s
    | _ => raise MultipleObjectsReturned s
    end.

(** [await Build.filter(status=BuildStatus.BUILDING).all()] *)
Definition Build_filter_building : M (list Build.t) :=
  fun s => ret (candidates_for_status (db s)) s.

(** [await Build.filter(signed=False, status=BuildStatus.SUCCEEDED)
           .prefetch_related("package").all()] *)
Definition Build_filter_unsigned_succeeded
  : M (list (Build.t * option Package.t)) :=
  fun s => ret (candidates_for_signing (db s)) s.

(** [datetime.datetime.now()] *)
Definition now : M Z := fun s => ret (datetime_now (world s)) s.

(** [await asyncio.sleep(seconds)] *)
Definition sleep (seconds : Z) : M unit :=
  fun s =>
    {| state := {| world := asyncio_sleep seconds (world s); db := db s |};
       events := [Slept seconds];
       value := inr tt |}.

(** ** The Signing Coordinator *)

(** Lines 56-64, the body of [for rpm in build_rpms].  The [continue] of
    line 60 belongs to the loop over [rpm_sigs]. *)
Definition for_rpm (rpm : Rpm.t) : M unit :=
  rpm_sigs <- call (queryRPMSigs (Rpm.id rpm)) ;;
  for_each rpm_sigs (fun rpm_sig =>
    if (RpmSig.sigkey rpm_sig =? sigul_key_id settings)%string
    then continue
    else pass) ;;
  let nvr_arch := (Rpm.nvr rpm ++ "." ++ Rpm.arch rpm)%string in
  call (sign_koji_package nvr_arch) ;;
  call (writeSignedRPM nvr_arch (sigul_key_id settings)).

(** Lines 47-50: the scan of the tag history, which only ever clears
    [should_tag]. *)
Definition scan_tag_listing (build_history : BuildHistory.t)
           (should_tag : bool) : bool :=
  match BuildHistory.tag_listing build_history with
  | Some tag_listing =>
      fold_left
        (fun should_tag tag =>
           if (TagEntry.tag_name tag =? tags_compose)%string
           then false
           else should_tag)
        tag_listing should_tag
  | None => should_tag
  end.

(** Lines 46-64, the body of [for build_task in build_tasks]; the local
    variable [should_tag] comes in from the previous iteration and goes
    out to the next one. *)
Definition for_build_task (should_tag : bool) (build_task : BuildTask.t)
  : M bool :=
  build_history <- call (queryHistory (BuildTask.build_id build_task)) ;;
  let should_tag := scan_tag_listing build_history should_tag in
  (if should_tag
   then call (tagBuild tags_compose (BuildTask.nvr build_task))
   else ret tt) ;;
  build_rpms <- call (listBuildRPMs (BuildTask.build_id build_task)) ;;
  for_each build_rpms for_rpm ;;
  ret should_tag.

(** [atomic_sign_unsigned_builds(build)].  The second argument is
    [build.package], as prefetched by the caller. *)
Definition atomic_sign_unsigned_builds
           (build : Build.t) (package : option Package.t) : M unit :=
  atomic
    (if truthy (Build.koji_id build) then
       package_name <- match package with
                       | Some p => ret (Package.name p)
                       | None => raise AttributeError
                       end ;;
       call (packageListAdd tags_compose package_name "distrobuild") ;;
       let should_tag := true in
       build_tasks <- call (listBuilds (int_of (Build.koji_id build))) ;;
       _ <- for_each_with build_tasks should_tag for_build_task ;;
       let build := Build.set_signed true build in
       Build_save build
     else ret tt).

(** ** The Status Reconciler *)

(** Lines 74-80 and 97-103: the build succeeded. *)
Definition mark_succeeded (build : Build.t) : M unit :=
  let build := Build.set_status BuildStatus.SUCCEEDED build in
  Build_save build ;;
  package <- Package_get (Build.package_id build) ;;
  t <- now ;;
  let package := Package.set_last_build (Some t) package in
  Package_save package.

(** [atomic_check_build_status(build)] *)
Definition atomic_check_build_status (build : Build.t) : M unit :=
  atomic
    (if truthy (Build.koji_id build) then
       task_info <- call (getTaskInfo (int_of (Build.koji_id build))) ;;
       match TaskInfo.state task_info with
       | koji.CLOSED => mark_succeeded build
       | koji.CANCELED =>
           Build_save (Build.set_status BuildStatus.CANCELLED build)
       | koji.FAILED =>
           (* try / except / except / finally *)
           r <- try (task_result <-
                       call (getTaskResult (int_of (Build.koji_id build))) ;;
                     emit (LogDebug task_result)) ;;
           match r with
           | inr _ => Build_save build
           | inl BuildError | inl Fault =>
               Build_save (Build.set_status BuildStatus.FAILED build)
           | inl GenericError =>
               Build_save (Build.set_status BuildStatus.CANCELLED build)
           | inl e => Build_save build ;; raise e
           end
       | _ => ret tt
       end
     else if truthy (Build.mbs_id build) then
       build_info <- call (get_build (int_of (Build.mbs_id build))) ;;
       let state := ModuleBuild.state_name build_info in
       if (state =? "ready")%string then mark_succeeded build
       else if (state =? "failed")%string then
         Build_save (Build.set_status BuildStatus.FAILED build)
       else ret tt
     else ret tt).

(** ** The periodic tasks *)

(** One turn of the [while True] loop of [check_build_status].  An
    exception that [except Exception] does not catch leaves the loop. *)
Definition check_build_status_cycle : M unit :=
  emit (LogDebug "[*] Running periodic task: check_build_status") ;;
  r <- try (builds <- Build_filter_building ;;
            for_each builds atomic_check_build_status) ;;
  match r with
  | inl e =>
      (* except Exception as e *)
      if is_Exception e then emit (LogError e) else raise e
  | inr _ => ret tt
  end ;;
  sleep (60 * 5).

(** One turn of the [while True] loop of [sign_unsigned_builds]. *)
Definition sign_unsigned_builds_cycle : M unit :=
  emit (LogDebug "[*] Running periodic task: sign_unsigned_builds") ;;
  r <- try (builds <- Build_filter_unsigned_succeeded ;;
            for_each builds
              (fun build =>
                 atomic_sign_unsigned_builds (fst build) (snd build))) ;;
  match r with
  | inl e =>
      (* except Exception as e *)
      if is_Exception e then emit (LogError e) else raise e
  | inr _ => ret tt
  end ;;
  sleep (60 * 5).

(** The first [n] turns of a [while True] loop. *)
Fixpoint turns (n : nat) (cycle : M unit) : M unit :=
  match n with
  | O => ret tt
  | S n' => cycle ;; turns n' cycle
  end.

(** [check_build_status()], cut after [n] turns. *)
Definition check_build_status (n : nat) : M unit :=
  turns n check_build_status_cycle.

(** [sign_unsigned_builds()], cut after [n] turns. *)
Definition sign_unsigned_builds (n : nat) : M unit :=
  if negb (disable_sigul settings)
  then turns n sign_unsigned_builds_cycle
  else ret tt.

(** The two periodic tasks run side by side for the life of the
    process.  A schedule lists whose turn comes next; the signing task
    has turns only when signing is not disabled.  A turn that ends with
    an exception ends the schedule. *)
Inductive PeriodicTask : Set := CheckBuildStatus | SignUnsignedBuilds.

Definition turn (t : PeriodicTask) : M unit :=
  match t with
  | CheckBuildStatus => check_build_status_cycle
  | SignUnsignedBuilds =>
      if negb (disable_sigul settings)
      then sign_unsigned_builds_cycle
      else ret tt
  end.

Fixpoint run_schedule (ts : list PeriodicTask) : M unit :=
  match ts with
  | [] => ret tt
  | t :: ts' => turn t ;; run_schedule ts'
  end.

End Scheduler.

Arguments State W : clear implicits.
Arguments Result W A : clear implicits.
Arguments M W A : clear implicits.
Arguments state {W A} _.
Arguments events {W A} _.
Arguments value {W A} _.
Arguments Build_Result {W A} _ _ _.

Notation "x <- m ;; k" := (bind m (fun x => k))
  (at level 61, m at next level, right associativity).
Notation "m ;; k" := (bind m (fun _ => k))
  (at level 61, right associativity).

(** ** Reading a run *)

(** The (tag, nvr) pairs of the tag operations among the effects. *)
Fixpoint tagBuild_calls (evs : list Event) : list (string * string) :=
  match evs with
  | [] => []
  | Called (tagBuild tag nvr) _ :: evs' => (tag, nvr) :: tagBuild_calls evs'
  | _ :: evs' => tagBuild_calls evs'
  end.

(** The [nvr.arch] arguments of the signer invocations among the effects. *)
Fixpoint signer_calls (evs : list Event) : list string :=
  match evs with
  | [] => []
  | Called (sign_koji_package nvr_arch) _ :: evs' =>
      nvr_arch :: signer_calls evs'
  | _ :: evs' => signer_calls evs'
  end.

(** The builds written to the record store among the effects. *)
Fixpoint saved_builds (evs : list Event) : list Build.t :=
  match evs with
  | [] => []
  | SavedBuild b :: evs' => b :: saved_builds evs'
  | _ :: evs' => saved_builds evs'
  end.

(** Whether the tag history has an entry for the release tag. *)
Definition tag_listed (tag : string) (build_history : BuildHistory.t) : bool :=
  match BuildHistory.tag_listing build_history with
  | Some tag_listing =>
      existsb (fun entry => (TagEntry.tag_name entry =? tag)%string) tag_listing
  | None => false
  end.

(** Whether one of the signatures is under the given key. *)
Definition signed_under (key : string) (rpm_sigs : list RpmSig.t) : bool :=
  existsb (fun rpm_sig => (RpmSig.sigkey rpm_sig =? key)%string) rpm_sigs.

(** The invariant of the build table: a signed build has succeeded. *)
Definition signed_implies_succeeded (b : Build.t) : Prop :=
  Build.signed b = true -> Build.status b = BuildStatus.SUCCEEDED.

(** The primary key of the build table. *)
Definition unique_ids (d : Db) : Prop := NoDup (map Build.id (builds d)).

(** A run keeps the relation [Q] between the store it finds and the
    store it leaves. *)
Definition keeps (W : Type) {A} (Q : Db -> Db -> Prop) (m : M W A) : Prop :=
  forall s, Q (db s) (db (state (m s))).

(** The build table after is the build table before, row by row, except
    that some rows were overwritten, under the same id, by rows that
    satisfy [P]. *)
Definition touched (P : Build.t -> Prop) (d d' : Db) : Prop :=
  Forall2 (fun r r' => Build.id r' = Build.id r /\ (r' = r \/ P r'))
          (builds d) (builds d').

(** A run ends with the exception of the first remote call that raises. *)
Definition fails_fast (W : Type) {A} (m : M W A) : Prop :=
  forall s c e,
    In (Called c (Some e)) (events (m s)) -> value (m s) = inl e.

(** A run has no effect of the kind [p]. *)
Definition quiet (W : Type) {A} (p : Event -> bool) (m : M W A) : Prop :=
  forall s, Forall (fun ev => p ev = false) (events (m s)).

Definition is_tagBuild (ev : Event) : bool :=
  match ev with
  | Called (tagBuild _ _) _ => true
  | _ => false
  end.

Definition is_SavedBuild (ev : Event) : bool :=
  match ev with
  | SavedBuild _ => true
  | _ => false
  end.

(** ** A test double for the collaborators

    A small koji hub, MBS and signer that answer from tables, used to run
    the scheduler on concrete inputs. *)
Module Mock.

Record World : Set := {
  task_states : list (Z * koji.TASK_STATES);
  task_results : list (Z * (exn + string));
  module_states : list (Z * string);
  task_builds : list (Z * list BuildTask.t);
  tag_history : list (Z * string);
  build_rpms : list (Z * list Rpm.t);
  rpm_sigs : list (Z * string);
  signer_down : list string;
  time : Z
}.

Definition assoc {V} (k : Z) (l : list (Z * V)) : option V :=
  option_map snd (find (fun kv => fst kv =? k) l).

Definition values {V} (k : Z) (l : list (Z * V)) : list V :=
  map snd (filter (fun kv => fst kv =? k) l).

Definition or_empty {V} (o : option (list V)) : list V :=
  match o with
  | Some l => l
  | None => []
  end.

Definition nvr_arch (rpm : Rpm.t) : string :=
  (Rpm.nvr rpm ++ "." ++ Rpm.arch rpm)%string.

Definition with_tag_history (v : list (Z * string)) (w : World) : World :=
  {| task_states := task_states w; task_results := task_results w;
     module_states := module_states w; task_builds := task_builds w;
     tag_history := v; build_rpms := build_rpms w; rpm_sigs := rpm_sigs w;
     signer_down := signer_down w; time := time w |}.

Definition with_rpm_sigs (v : list (Z * string)) (w : World) : World :=
  {| task_states := task_states w; task_results := task_results w;
     module_states := module_states w; task_builds := task_builds w;
     tag_history := tag_history w; build_rpms := build_rpms w; rpm_sigs := v;
     signer_down := signer_down w; time := time w |}.

Definition with_time (v : Z) (w : World) : World :=
  {| task_states := task_states w; task_results := task_results w;
     module_states := module_states w; task_builds := task_builds w;
     tag_history := tag_history w; build_rpms := build_rpms w;
     rpm_sigs := rpm_sigs w; signer_down := signer_down w; time := v |}.

Definition tag (tag nvr : string) (w : World) : World :=
  let tasks := flat_map snd (task_builds w) in
  let tagged :=
    filter (fun t => (BuildTask.nvr t =? nvr)%string) tasks in
  with_tag_history
    (tag_history w ++ map (fun t => (BuildTask.build_id t, tag)) tagged) w.

Definition write_signed (na key : string) (w : World) : World :=
  let rpms := flat_map snd (build_rpms w) in
  let written := filter (fun r => (nvr_arch r =? na)%string) rpms in
  with_rpm_sigs (rpm_sigs w ++ map (fun r => (Rpm.id r, key)) written) w.

Definition history (build : Z) (w : World) : BuildHistory.t :=
  match values build (tag_history w) with
  | [] => BuildHistory.mk None
  | tags => BuildHistory.mk (Some (map TagEntry.mk tags))
  end.

Definition answer (c : Call) : World -> World * (exn + Resp c) :=
  match c as c0 return World -> World * (exn + Resp c0) with
  | packageListAdd _ _ _ => fun w => (w, inr tt)
  | listBuilds taskID =>
      fun w => (w, inr (or_empty (assoc taskID (task_builds w))))
  | queryHistory build => fun w => (w, inr (history build w))
  | tagBuild t nvr => fun w => (tag t nvr w, inr tt)
  | listBuildRPMs build_id =>
      fun w => (w, inr (or_empty (assoc build_id (build_rpms w))))
  | queryRPMSigs rpm_id =>
      fun w => (w, inr (map RpmSig.mk (values rpm_id (rpm_sigs w))))
  | writeSignedRPM na key => fun w => (write_signed na key w, inr tt)
  | getTaskInfo task_id =>
      fun w =>
        match assoc task_id (task_states w) with
        | Some st => (w, inr (TaskInfo.mk st))
        | None => (w, inl GenericError)
        end
  | getTaskResult task_id =>
      fun w =>
        match assoc task_id (task_results w) with
        | Some r => (w, r)
        | None => (w, inl GenericError)
        end
  | get_build mbs_id =>
      fun w =>
        match assoc mbs_id (module_states w) with
        | Some st => (w, inr (ModuleBuild.mk st))
        | None => (w, inl (Exception "HTTP 404"))
        end
  | sign_koji_package na =>
      fun w =>
        if existsb (fun d => (d =? na)%string) (signer_down w)
        then (w, inl (Exception "sigul failed"))
        else (w, inr tt)
  end.

#[global] Instance collaborators : Collaborators World := {|
  session := answer;
  datetime_now := time;
  asyncio_sleep := fun seconds w => with_time (time w + seconds) w;
  tags_compose := "dist-compose";
  settings := {| sigul_key_id := "KEY"; disable_sigul := false |}
|}.

Definition empty : World :=
  {| task_states := []; task_results := []; module_states := [];
     task_builds := []; tag_history := []; build_rpms := []; rpm_sigs := [];
     signer_down := []; time := 1000 |}.

End Mock.

(** ** Concrete inputs

    One record store and one world for the test double, with a build for
    each situation the properties below talk about. *)
Module Scenario.

Definition bash : Package.t := Package.mk 7 "bash" None.

(** Task 42 is CLOSED. *)
Definition build42 : Build.t :=
  Build.mk 1 (Some 42) None 7 BuildStatus.BUILDING false.

(** The hub does not know task 45: [getTaskInfo] raises. *)
Definition build45 : Build.t :=
  Build.mk 2 (Some 45) None 7 BuildStatus.BUILDING false.

(** Task 43 is FAILED and its result is a build error. *)
Definition build43 : Build.t :=
  Build.mk 3 (Some 43) None 7 BuildStatus.BUILDING false.

(** Module build 7 is in state [failed]. *)
Definition build7 : Build.t :=
  Build.mk 4 None (Some 7) 7 BuildStatus.BUILDING false.

(** A succeeded module build. *)
Definition build8 : Build.t :=
  Build.mk 5 None (Some 8) 7 BuildStatus.SUCCEEDED false.

(** The signer is down for the one artifact of task 46. *)
Definition build46 : Build.t :=
  Build.mk 6 (Some 46) None 7 BuildStatus.SUCCEEDED false.

(** Task 44 has one build with two artifacts; the first is already
    signed under the configured key. *)
Definition build44 : Build.t :=
  Build.mk 7 (Some 44) None 7 BuildStatus.SUCCEEDED false.

(** Task 47 has two builds; the first is already in the release tag,
    the second has no tag history. *)
Definition build47 : Build.t :=
  Build.mk 8 (Some 47) None 7 BuildStatus.SUCCEEDED false.

Definition task47_first : BuildTask.t := BuildTask.mk 3 "bash-5.0-3".
Definition task47_second : BuildTask.t := BuildTask.mk 4 "bash-doc-5.0-3".

Definition hub : Mock.World :=
  {| Mock.task_states := [(42, koji.CLOSED); (43, koji.FAILED)];
     Mock.task_results := [(43, inl BuildError)];
     Mock.module_states := [(7, "failed"); (8, "ready")];
     Mock.task_builds :=
       [(44, [BuildTask.mk 1 "bash-5.0-1"]);
        (46, [BuildTask.mk 2 "bash-5.0-2"]);
        (47, [task47_first; task47_second])];
     Mock.tag_history := [(3, "dist-compose")];
     Mock.build_rpms :=
       [(1, [Rpm.mk 10 "bash-5.0-1" "x86_64"; Rpm.mk 11 "bash-5.0-1" "src"]);
        (2, [Rpm.mk 20 "bash-5.0-2" "x86_64"]);
        (3, [Rpm.mk 30 "bash-5.0-3" "x86_64"]);
        (4, [Rpm.mk 40 "bash-doc-5.0-3" "noarch"])];
     Mock.rpm_sigs := [(10, "KEY")];
     Mock.signer_down := ["bash-5.0-2.x86_64"];
     Mock.time := 1000 |}.

(** The same hub when both artifacts of task 44 are already signed
    under the configured key. *)
Definition hub_all_signed : Mock.World :=
  Mock.with_rpm_sigs [(10, "KEY"); (11, "KEY")] hub.

Definition store : Db :=
  {| builds := [build42; build45; build43; build7;
                build8; build46; build44; build47];
     packages := [bash] |}.

Definition initial : State Mock.World := {| world := hub; db := store |}.

Definition all_signed : State Mock.World :=
  {| world := hub_all_signed; db := store |}.

End Scenario.

(** ** Reading a store before and after a run *)

(** The reconciler gave a BUILDING row a status. *)
Definition reconciled (r r' : Build.t) : Prop :=
  Build.status r = BuildStatus.BUILDING
  /\ exists st, r' = Build.set_status st r.

(** The coordinator marked a succeeded, unsigned, task-backend row as
    signed. *)
Definition marked_signed (r r' : Build.t) : Prop :=
  unsigned_succeeded r = true
  /\ truthy (Build.koji_id r) = true
  /\ r' = Build.set_signed true r.

(** What may become of a row over time: its keys stay, a status other
    than BUILDING stays, a signed row stays signed. *)
Definition evolves (r r' : Build.t) : Prop :=
  Build.id r' = Build.id r
  /\ Build.koji_id r' = Build.koji_id r
  /\ Build.mbs_id r' = Build.mbs_id r
  /\ Build.package_id r' = Build.package_id r
  /\ (Build.status r <> BuildStatus.BUILDING ->
      Build.status r' = Build.status r)
  /\ (Build.signed r = true -> Build.signed r' = true).

(** A package row is as it was, or has a new time of last build. *)
Definition stamped (p p' : Package.t) : Prop :=
  p' = p \/ exists t, p' = Package.set_last_build (Some t) p.

(** The package table after is the package table before, row by row,
    up to the time of last build. *)
Definition stamps_packages (d d' : Db) : Prop :=
  Forall2 stamped (packages d) (packages d').

Definition same_packages (d d' : Db) : Prop := packages d' = packages d.

Definition same_store (d d' : Db) : Prop := d' = d.

(** Every effect of a run satisfies [P]. *)
Definition emits_only (W : Type) {A} (P : Event -> Prop) (m : M W A) : Prop :=
  forall s, Forall P (events (m s)).

(** What the Status Reconciler may do for a build: query the one backend
    the build was sent to, about that build; log the task result; save
    the build under some status; stamp the package the build points to. *)
Definition reconciler_effect {W} {collab : Collaborators W}
           (build : Build.t) (ev : Event) : Prop :=
  match ev with
  | Called c _ =>
      if truthy (Build.koji_id build)
      then c = getTaskInfo (int_of (Build.koji_id build))
           \/ c = getTaskResult (int_of (Build.koji_id build))
      else truthy (Build.mbs_id build) = true
           /\ c = get_build (int_of (Build.mbs_id build))
  | SavedBuild b => exists st, b = Build.set_status st build
  | SavedPackage p =>
      Package.id p = Build.package_id build /\ Package.last_build p <> None
  | LogDebug _ => truthy (Build.koji_id build) = true
  | LogError _ | Slept _ => False
  end.

(** What the Signing Coordinator may do for a build: hub operations on
    the release tag, on the builds of its task and on their artifacts,
    under the configured key; signer invocations; and the save of the
    build as signed. *)
Definition coordinator_effect {W} {collab : Collaborators W}
           (build : Build.t) (package : option Package.t) (ev : Event)
  : Prop :=
  match ev with
  | Called c _ =>
      match c with
      | packageListAdd tag pkg owner =>
          tag = tags_compose /\ owner = "distrobuild"
          /\ option_map Package.name package = Some pkg
      | listBuilds taskID => Build.koji_id build = Some taskID
      | tagBuild tag _ => tag = tags_compose
      | writeSignedRPM _ sigkey => sigkey = sigul_key_id settings
      | queryHistory _ | listBuildRPMs _ | queryRPMSigs _
      | sign_koji_package _ => True
      | getTaskInfo _ | getTaskResult _ | get_build _ => False
      end
  | SavedBuild b => b = Build.set_signed true build
  | SavedPackage _ | LogDebug _ | LogError _ | Slept _ => False
  end.

(** Calls to the module build service, and calls to the koji hub. *)
Definition is_mbs_call (ev : Event) : bool :=
  match ev with
  | Called (get_build _) _ => true
  | _ => false
  end.

Definition is_koji_call (ev : Event) : bool :=
  match ev with
  | Called (get_build _) _ | Called (sign_koji_package _) _ => false
  | Called _ _ => true
  | _ => false
  end.

Definition is_signer_call (ev : Event) : bool :=
  match ev with
  | Called (sign_koji_package _) _ => true
  | _ => false
  end.

Definition is_remote_call (ev : Event) : bool :=
  match ev with
  | Called _ _ => true
  | _ => false
  end.

(** The seconds slept, in order. *)
Fixpoint sleeps (evs : list Event) : list Z :=
  match evs with
  | [] => []
  | Slept seconds :: evs' => seconds :: sleeps evs'
  | _ :: evs' => sleeps evs'
  end.

Definition is_Slept (ev : Event) : bool :=
  match ev with
  | Slept _ => true
  | _ => false
  end.

(** The errors logged, in order. *)
Fixpoint logged_errors (evs : list Event) : list exn :=
  match evs with
  | [] => []
  | LogError e :: evs' => e :: logged_errors evs'
  | _ :: evs' => logged_errors evs'
  end.

(** Neither unit of work sleeps or logs an error. *)
Definition unit_effect (ev : Event) : Prop :=
  match ev with
  | LogError _ | Slept _ => False
  | _ => True
  end.

(** Effects that leave the backends and the signer as they are: state
    queries and what happens locally. *)
Definition query_or_local (ev : Event) : Prop :=
  match ev with
  | Called (getTaskInfo _) _ | Called (getTaskResult _) _
  | Called (get_build _) _ => True
  | Called _ _ => False
  | _ => True
  end.

(** The store after [Build.save()] of [b]. *)
Definition saving (b : Build.t) (d : Db) : Db :=
  {| builds := update_build b (builds d); packages := packages d |}.

(** The effects of the loop body of a build task before it turns to the
    artifacts: the history query and the tag operation. *)
Definition tagging_effect {W} {collab : Collaborators W}
           (build_task : BuildTask.t) (ev : Event) : Prop :=
  exists c r,
    ev = Called c r
    /\ (c = queryHistory (BuildTask.build_id build_task)
        \/ c = tagBuild tags_compose (BuildTask.nvr build_task)).

(** The test double with a hub that refuses every tag operation. *)
Definition answer_refusing_tags (c : Call)
  : Mock.World -> Mock.World * (exn + Resp c) :=
  match c as c0 return Mock.World -> Mock.World * (exn + Resp c0) with
  | tagBuild _ _ => fun w => (w, inl Fault)
  | c0 => Mock.answer c0
  end.

Definition refusing_tags : Collaborators Mock.World := {|
  session := answer_refusing_tags;
  datetime_now := Mock.time;
  asyncio_sleep := fun seconds w => Mock.with_time (Mock.time w + seconds) w;
  tags_compose := "dist-compose";
  settings := {| sigul_key_id := "KEY"; disable_sigul := false |}
|}.

(** The test double with signing administratively disabled. *)
Definition signing_disabled : Collaborators Mock.World := {|
  session := Mock.answer;
  datetime_now := Mock.time;
  asyncio_sleep := fun seconds w => Mock.with_time (Mock.time w + seconds) w;
  tags_compose := "dist-compose";
  settings := {| sigul_key_id := "KEY"; disable_sigul := true |}
|}.

(** More concrete inputs. *)
Module Corner.

(** Task 48 is CANCELED. *)
Definition build48 : Build.t :=
  Build.mk 9 (Some 48) None 7 BuildStatus.BUILDING false.

(** Task 49 is CLOSED, but the build points to a package that is not in
    the store. *)
Definition build49 : Build.t :=
  Build.mk 10 (Some 49) None 99 BuildStatus.BUILDING false.

(** Task 50 has no builds on the hub. *)
Definition build50 : Build.t :=
  Build.mk 11 (Some 50) None 7 BuildStatus.SUCCEEDED false.

(** Module build 51 is [ready], but the build points to a package that
    is not in the store. *)
Definition build51 : Build.t :=
  Build.mk 13 None (Some 51) 99 BuildStatus.BUILDING false.

(** MBS does not know module build 52: [get_build] raises. *)
Definition build52 : Build.t :=
  Build.mk 14 None (Some 52) 7 BuildStatus.BUILDING false.

(** A row with no backend id at all. *)
Definition build_nowhere : Build.t :=
  Build.mk 12 None None 7 BuildStatus.BUILDING false.

Definition hub : Mock.World :=
  {| Mock.task_states := [(48, koji.CANCELED); (49, koji.CLOSED)];
     Mock.task_results := [];
     Mock.module_states := [(51, "ready")];
     Mock.task_builds := [(50, [])];
     Mock.tag_history := [];
     Mock.build_rpms := [];
     Mock.rpm_sigs := [];
     Mock.signer_down := [];
     Mock.time := 2000 |}.

Definition store : Db :=
  {| builds := [build48; build49; build50; build51; build52; build_nowhere];
     packages := [Scenario.bash] |}.

Definition initial : State Mock.World := {| world := hub; db := store |}.

(** A store in which nothing is left to do. *)
Definition settled : State Mock.World :=
  {| world := hub;
     db := {| builds := [Build.mk 1 (Some 42) None 7 BuildStatus.SUCCEEDED true;
                         Build.mk 2 (Some 45) None 7 BuildStatus.FAILED false];
              packages := [Scenario.bash] |} |}.

End Corner.

(** ** Reading the tables back *)

(** The build table [rows'] is the build table [rows] after the instance
    [build] was saved with the given [status] and [signed]: the rows
    under the id of [build] read as [build] does in the key columns and
    have that status and that flag; every other row is as it was. *)
Definition saved_with (build : Build.t) (status : BuildStatus.t)
           (signed : bool) (rows rows' : list Build.t) : Prop :=
  Forall2 (fun row row' =>
             if Build.id row =? Build.id build
             then Build.id row' = Build.id build
                  /\ Build.koji_id row' = Build.koji_id build
                  /\ Build.mbs_id row' = Build.mbs_id build
                  /\ Build.package_id row' = Build.package_id build
                  /\ Build.status row' = status
                  /\ Build.signed row' = signed
             else row' = row)
          rows rows'.

(** The package table [rows'] is the package table [rows] with the time
    of last build of the rows under [package_id] set to [t]; their name
    and every other row are as they were. *)
Definition stamped_with (package_id t : Z) (rows rows' : list Package.t)
  : Prop :=
  Forall2 (fun row row' =>
             if Package.id row =? package_id
             then Package.id row' = package_id
                  /\ Package.name row' = Package.name row
                  /\ Package.last_build row' = Some t
             else row' = row)
          rows rows'.

(** The [id] and [status] columns, and the [id] and [signed] columns,
    of a build table. *)
Definition status_column (rows : list Build.t) : list (Z * BuildStatus.t) :=
  map (fun row => (Build.id row, Build.status row)) rows.

Definition signed_column (rows : list Build.t) : list (Z * bool) :=
  map (fun row => (Build.id row, Build.signed row)) rows.

(** The test double with a signer whose invocation is cancelled: the
    await of [sign_koji_package] raises [asyncio.CancelledError]. *)
Definition answer_cancelled_signer (c : Call)
  : Mock.World -> Mock.World * (exn + Resp c) :=
  match c as c0 return Mock.World -> Mock.World * (exn + Resp c0) with
  | sign_koji_package _ => fun w => (w, inl CancelledError)
  | c0 => Mock.answer c0
  end.

Definition cancelled_signer : Collaborators Mock.World := {|
  session := answer_cancelled_signer;
  datetime_now := Mock.time;
  asyncio_sleep := fun seconds w => Mock.with_time (Mock.time w + seconds) w;
  tags_compose := "dist-compose";
  settings := {| sigul_key_id := "KEY"; disable_sigul := false |}
|}.

(** A store in which a build becomes a candidate for signing in front of
    one whose signing has failed. *)
Module Retry.

Definition zsh : Package.t := Package.mk 8 "zsh" None.

(** Task 60 is CLOSED and the build is still BUILDING; the signer is
    down for its artifact. *)
Definition build60 : Build.t :=
  Build.mk 1 (Some 60) None 8 BuildStatus.BUILDING false.

(** Task 61 has succeeded; the signer is down for its artifact. *)
Definition build61 : Build.t :=
  Build.mk 2 (Some 61) None 7 BuildStatus.SUCCEEDED false.

Definition hub : Mock.World :=
  {| Mock.task_states := [(60, koji.CLOSED)];
     Mock.task_results := [];
     Mock.module_states := [];
     Mock.task_builds :=
       [(60, [BuildTask.mk 5 "zsh-5.8-1"]);
        (61, [BuildTask.mk 6 "bash-5.1-2"])];
     Mock.tag_history := [];
     Mock.build_rpms :=
       [(5, [Rpm.mk 50 "zsh-5.8-1" "x86_64"]);
        (6, [Rpm.mk 60 "bash-5.1-2" "x86_64"])];
     Mock.rpm_sigs := [];
     Mock.signer_down := ["zsh-5.8-1.x86_64"; "bash-5.1-2.x86_64"];
     Mock.time := 3000 |}.

Definition store : Db :=
  {| builds := [build60; build61]; packages := [Scenario.bash; zsh] |}.

Definition initial : State Mock.World := {| world := hub; db := store |}.

(** A signing cycle, a status cycle, the next signing cycle. *)
Definition first_signing : Result Mock.World unit :=
  sign_unsigned_builds_cycle initial.

Definition status_between : Result Mock.World unit :=
  check_build_status_cycle (state first_signing).

Definition next_signing : Result Mock.World unit :=
  sign_unsigned_builds_cycle (state status_between).

End Retry.

(** * Properties *)

(** ** Running binds and calls *)

Section Running.

Context {W : Type} {collab : Collaborators W}.

Lemma bind_returns {A B} (m : M W A) (f : A -> M W B) s s1 ev1 a :
  m s = {| state := s1; events := ev1; value := inr a |} ->
  bind m f s =
    {| state := state (f a s1);
       events := ev1 ++ events (f a s1);
       value := value (f a s1) |}.
Proof. intros E. unfold bind. rewrite E. reflexivity. Qed.

Lemma bind_raises {A B} (m : M W A) (f : A -> M W B) s s1 ev1 e :
  m s = {| state := s1; events := ev1; value := inl e |} ->
  bind m f s = {| state := s1; events := ev1; value := inl e |}.
Proof. intros E. unfold bind. rewrite E. reflexivity. Qed.

Lemma call_returns (c : Call) (s : State W) w (a : Resp c) :
  session c (world s) = (w, inr a) ->
  call c s =
    {| state := {| world := w; db := db s |};
       events := [Called c None];
       value := inr a |}.
Proof. intros E. unfold call. rewrite E. reflexivity. Qed.

Lemma call_raises (c : Call) (s : State W) w e :
  session c (world s) = (w, inl e) ->
  call c s =
    {| state := {| world := w; db := db s |};
       events := [Called c (Some e)];
       value := inl e |}.
Proof. intros E. unfold call. rewrite E. reflexivity. Qed.

Lemma atomic_events {A} (m : M W A) (s : State W) :
  events (atomic m s) = events (m s).
Proof. unfold atomic. destruct (m s) as [s1 ev1 [e|a]]; reflexivity. Qed.

Lemma atomic_returns {A} (m : M W A) (s s1 : State W) ev1 a :
  m s = {| state := s1; events := ev1; value := inr a |} ->
  atomic m s = {| state := s1; events := ev1; value := inr a |}.
Proof. intros E. unfold atomic. rewrite E. reflexivity. Qed.

Lemma atomic_raises {A} (m : M W A) (s s1 : State W) ev1 e :
  m s = {| state := s1; events := ev1; value := inl e |} ->
  atomic m s
  = {| state := {| world := world s1; db := db s |};
       events := ev1;
       value := inl e |}.
Proof. intros E. unfold atomic. rewrite E. reflexivity. Qed.

(** The [try] block of the FAILED branch: the result is fetched and, if
    the fetch returns, logged. *)
Lemma try_getTaskResult (task_id : Z) (w w' : W) (d : Db) r :
  session (getTaskResult task_id) w = (w', r) ->
  try (task_result <- call (getTaskResult task_id) ;;
       emit (LogDebug task_result)) {| world := w; db := d |}
  = {| state := {| world := w'; db := d |};
       events :=
         match r with
         | inl e => [Called (getTaskResult task_id) (Some e)]
         | inr task_result =>
             [Called (getTaskResult task_id) None; LogDebug task_result]
         end;
       value :=
         inr match r with
             | inl e => inl e
             | inr _ => inr tt
             end |}.
Proof.
  intros E. unfold try, bind, call, emit; cbn. rewrite E.
  destruct r; reflexivity.
Qed.

(** A transaction that starts with a remote call that returns. *)
Lemma atomic_bind_call {A} (c : Call) (f : Resp c -> M W A)
      (s : State W) w (a : Resp c) (r : Result W A) :
  session c (world s) = (w, inr a) ->
  f a {| world := w; db := db s |} = r ->
  atomic (bind (call c) f) s
  = match value r with
    | inl e =>
        {| state := {| world := world (state r); db := db s |};
           events := Called c None :: events r;
           value := inl e |}
    | inr _ =>
        {| state := state r;
           events := Called c None :: events r;
           value := value r |}
    end.
Proof.
  intros Hc Hf. unfold atomic.
  rewrite (bind_returns _ _ _ _ _ _ (call_returns _ _ _ _ Hc)), Hf.
  cbn. destruct (value r); reflexivity.
Qed.

Lemma result_eta {A} (r : Result W A) :
  r = {| state := state r; events := events r; value := value r |}.
Proof. destruct r; reflexivity. Qed.

Lemma mark_succeeded_run (build : Build.t) (s : State W) package :
  filter (fun p => Package.id p =? Build.package_id build) (packages (db s))
  = [package] ->
  mark_succeeded build s =
    let build' := Build.set_status BuildStatus.SUCCEEDED build in
    let package' :=
      Package.set_last_build (Some (datetime_now (world s))) package in
    {| state :=
         {| world := world s;
            db := {| builds := update_build build' (builds (db s));
                     packages := update_package package' (packages (db s)) |} |};
       events := [SavedBuild build'; SavedPackage package'];
       value := inr tt |}.
Proof.
  intros E. unfold mark_succeeded, bind, Build_save, Package_get, now,
    Package_save, ret; cbn. rewrite E. reflexivity.
Qed.

End Running.

(** ** Reading the tables back after a save *)

Section ReadingBack.

Lemma Forall2_map_same {A} (R : A -> A -> Prop) (f : A -> A) (l : list A) :
  (forall x, In x l -> R x (f x)) -> Forall2 R l (map f l).
Proof.
  induction l as [|x l IH]; intros H; cbn; constructor.
  - apply H. now left.
  - apply IH. intros y Hy. apply H. now right.
Qed.

(** [save()] of an instance that has the key columns of [build]: the
    rows under its id read as the instance does. *)
Lemma saved_with_update_build (build b' : Build.t) (rows : list Build.t) :
  Build.id b' = Build.id build ->
  Build.koji_id b' = Build.koji_id build ->
  Build.mbs_id b' = Build.mbs_id build ->
  Build.package_id b' = Build.package_id build ->
  saved_with build (Build.status b') (Build.signed b') rows
             (update_build b' rows).
Proof.
  intros Hid Hk Hm Hp. unfold saved_with, update_build.
  apply Forall2_map_same. intros row _. rewrite Hid.
  destruct (Build.id row =? Build.id build); [|reflexivity].
  repeat split; assumption.
Qed.

(** [save()] of the one package the key selects, with a new time of
    last build. *)
Lemma stamped_with_update_package (package_id t : Z) (package : Package.t)
      (rows : list Package.t) :
  filter (fun p => Package.id p =? package_id) rows = [package] ->
  stamped_with package_id t rows
               (update_package (Package.set_last_build (Some t) package) rows).
Proof.
  intros E.
  assert (Hsel : forall row, In row rows ->
                             (Package.id row =? package_id) = true ->
                             row = package).
  { intros row Hin Hid.
    assert (H : In row (filter (fun p => Package.id p =? package_id) rows))
      by (apply filter_In; auto).
    rewrite E in H. destruct H as [->|[]]. reflexivity. }
  assert (Hp : Package.id package = package_id).
  { assert (H : In package (filter (fun p => Package.id p =? package_id) rows))
      by (rewrite E; now left).
    apply filter_In in H. now apply Z.eqb_eq. }
  unfold stamped_with, update_package.
  apply Forall2_map_same. intros row Hin. cbn [Package.id Package.set_last_build].
  rewrite Hp. destruct (Package.id row =? package_id) eqn:Hid; [|reflexivity].
  rewrite (Hsel row Hin Hid). cbn. auto.
Qed.

End ReadingBack.

(** ** The Status Reconciler, branch by branch *)

Section StatusReconciler.

Context {W : Type} {collab : Collaborators W}.

(** The FAILED branch after the task state was read: what the fetch of
    the task result gives decides the status, and the save comes last on
    every path. *)
Lemma failed_branch_run (build : Build.t) (task_id : Z) (w w' : W)
      (d : Db) r :
  session (getTaskResult task_id) w = (w', r) ->
  (r0 <- try (task_result <- call (getTaskResult task_id) ;;
              emit (LogDebug task_result)) ;;
   match r0 with
   | inr _ => Build_save build
   | inl BuildError | inl Fault =>
       Build_save (Build.set_status BuildStatus.FAILED build)
   | inl GenericError =>
       Build_save (Build.set_status BuildStatus.CANCELLED build)
   | inl e => Build_save build ;; raise e
   end) {| world := w; db := d |}
  = let saved b :=
      {| world := w';
         db := {| builds := update_build b (builds d);
                  packages := packages d |} |} in
    match r with
    | inr task_result =>
        {| state := saved build;
           events := [Called (getTaskResult task_id) None;
                      LogDebug task_result; SavedBuild build];
           value := inr tt |}
    | inl e =>
        let build' :=
          match e with
          | BuildError | Fault =>
              Build.set_status BuildStatus.FAILED build
          | GenericError => Build.set_status BuildStatus.CANCELLED build
          | _ => build
          end in
        {| state := saved build';
           events := [Called (getTaskResult task_id) (Some e);
                      SavedBuild build'];
           value :=
             match e with
             | BuildError | Fault | GenericError => inr tt
             | _ => inl e
             end |}
    end.
Proof.
  intros Hres.
  rewrite (bind_returns _ _ _ _ _ _ (try_getTaskResult task_id w w' d r Hres)).
  destruct r as [[]|]; reflexivity.
Qed.

(** The run of the reconciler on a task-backend build whose task state
    is FAILED, for each outcome of the fetch of the task result. *)
Lemma failed_task_run :
  forall (build : Build.t) (s : State W) w (task_info : TaskInfo.t) w' r,
    truthy (Build.koji_id build) = true ->
    session (getTaskInfo (int_of (Build.koji_id build))) (world s)
    = (w, inr task_info) ->
    TaskInfo.state task_info = koji.FAILED ->
    session (getTaskResult (int_of (Build.koji_id build))) w = (w', r) ->
    let task_id := int_of (Build.koji_id build) in
    let run := atomic_check_build_status build s in
    let saving b :=
      {| builds := update_build b (builds (db s));
         packages := packages (db s) |} in
    (forall e, r = inl e -> e = BuildError \/ e = Fault ->
       let build' := Build.set_status BuildStatus.FAILED build in
       run = {| state := {| world := w'; db := saving build' |};
                events := [Called (getTaskInfo task_id) None;
                           Called (getTaskResult task_id) (Some e);
                           SavedBuild build'];
                value := inr tt |})
    /\ (r = inl GenericError ->
        let build' := Build.set_status BuildStatus.CANCELLED build in
        run = {| state := {| world := w'; db := saving build' |};
                 events := [Called (getTaskInfo task_id) None;
                            Called (getTaskResult task_id) (Some GenericError);
                            SavedBuild build'];
                 value := inr tt |})
    /\ (forall task_result, r = inr task_result ->
        run = {| state := {| world := w'; db := saving build |};
                 events := [Called (getTaskInfo task_id) None;
                            Called (getTaskResult task_id) None;
                            LogDebug task_result;
                            SavedBuild build];
                 value := inr tt |})
    /\ (forall e, r = inl e ->
        e <> BuildError -> e <> Fault -> e <> GenericError ->
        run = {| state := {| world := w'; db := db s |};
                 events := [Called (getTaskInfo task_id) None;
                            Called (getTaskResult task_id) (Some e);
                            SavedBuild build];
                 value := inl e |})
    /\ (exists evs b, events run = evs ++ [SavedBuild b]).
Proof.
  intros build s w [st] w' r Hk Hinfo Hstate Hres task_id run saving.
  cbn in Hstate. subst st run saving.
  unfold atomic_check_build_status. rewrite Hk.
  fold task_id in Hinfo, Hres |- *.
  pose proof (failed_branch_run build task_id w w' (db s) r Hres) as Hf.
  rewrite (atomic_bind_call _ _ _ _ _ _ Hinfo Hf). clear Hf.
  destruct r as [e|task_result]; [destruct e|]; cbn;
    repeat match goal with
           | |- _ /\ _ => split
           | |- forall _, _ => intro
           | H : @eq (_ + _) _ _ |- _ =>
               first [discriminate H | injection H as <-]
           | H : _ \/ _ |- _ => destruct H
           end;
    try discriminate; try congruence; try reflexivity.
  all: try (eexists [_; _], _; reflexivity).
  all: try (eexists [_; _; _], _; reflexivity).
Qed.

(** C4. A task-backend build whose task state is FAILED: the task
    result is fetched; after a build error or a transport fault the
    rows of the build in the store have status FAILED, after any other
    koji error they have status CANCELLED, and when the fetch returns
    they have the status the build was loaded with; in every branch,
    also when the fetch raises something else, the last effect of the
    run is the save of the build record.  The [signed] column of the
    build, the other rows and the package table are as they were. *)
Theorem failed_task_saves_on_every_branch :
  forall (build : Build.t) (s : State W) w (task_info : TaskInfo.t) w' r,
    truthy (Build.koji_id build) = true ->
    session (getTaskInfo (int_of (Build.koji_id build))) (world s)
    = (w, inr task_info) ->
    TaskInfo.state task_info = koji.FAILED ->
    session (getTaskResult (int_of (Build.koji_id build))) w = (w', r) ->
    let task_id := int_of (Build.koji_id build) in
    let run := atomic_check_build_status build s in
    let saving b :=
      {| builds := update_build b (builds (db s));
         packages := packages (db s) |} in
    (forall e, r = inl e -> e = BuildError \/ e = Fault ->
       let build' := Build.set_status BuildStatus.FAILED build in
       run = {| state := {| world := w'; db := saving build' |};
                events := [Called (getTaskInfo task_id) None;
                           Called (getTaskResult task_id) (Some e);
                           SavedBuild build'];
                value := inr tt |}
       /\ saved_with build BuildStatus.FAILED (Build.signed build)
                     (builds (db s)) (builds (db (state run)))
       /\ map Build.status (saved_builds (events run))
          = [BuildStatus.FAILED])
    /\ (r = inl GenericError ->
        let build' := Build.set_status BuildStatus.CANCELLED build in
        run = {| state := {| world := w'; db := saving build' |};
                 events := [Called (getTaskInfo task_id) None;
                            Called (getTaskResult task_id) (Some GenericError);
                            SavedBuild build'];
                 value := inr tt |}
        /\ saved_with build BuildStatus.CANCELLED (Build.signed build)
                      (builds (db s)) (builds (db (state run)))
        /\ map Build.status (saved_builds (events run))
           = [BuildStatus.CANCELLED])
    /\ (forall task_result, r = inr task_result ->
        run = {| state := {| world := w'; db := saving build |};
                 events := [Called (getTaskInfo task_id) None;
                            Called (getTaskResult task_id) None;
                            LogDebug task_result;
                            SavedBuild build];
                 value := inr tt |}
        /\ saved_with build (Build.status build) (Build.signed build)
                      (builds (db s)) (builds (db (state run))))
    /\ (forall e, r = inl e ->
        e <> BuildError -> e <> Fault -> e <> GenericError ->
        run = {| state := {| world := w'; db := db s |};
                 events := [Called (getTaskInfo task_id) None;
                            Called (getTaskResult task_id) (Some e);
                            SavedBuild build];
                 value := inl e |})
    /\ (exists evs b, events run = evs ++ [SavedBuild b])
    /\ packages (db (state run)) = packages (db s).
Proof.
  intros build s w task_info w' r Hk Hinfo Hstate Hres task_id run saving.
  destruct (failed_task_run build s w task_info w' r Hk Hinfo Hstate Hres)
    as [Hfailed [Hcancelled [Hreturned [Hother Hlast]]]].
  fold task_id run in Hfailed, Hcancelled, Hreturned, Hother, Hlast.
  cbv zeta in Hfailed, Hcancelled, Hreturned, Hother.
  repeat apply conj.
  - intros e He Hcase build'. split; [exact (Hfailed e He Hcase)|].
    rewrite (Hfailed e He Hcase). split; [|reflexivity].
    apply (saved_with_update_build build build'); reflexivity.
  - intros He build'. split; [exact (Hcancelled He)|].
    rewrite (Hcancelled He). split; [|reflexivity].
    apply (saved_with_update_build build build'); reflexivity.
  - intros task_result He. split; [exact (Hreturned task_result He)|].
    rewrite (Hreturned task_result He).
    apply (saved_with_update_build build build); reflexivity.
  - exact Hother.
  - exact Hlast.
  - destruct r as [e|task_result]; [destruct e|];
      first [ rewrite (Hfailed _ eq_refl (or_introl eq_refl))
            | rewrite (Hfailed _ eq_refl (or_intror eq_refl))
            | rewrite (Hcancelled eq_refl)
            | rewrite (Hreturned _ eq_refl)
            | rewrite (Hother _ eq_refl) by discriminate ];
      reflexivity.
Qed.

(** The run of the reconciler on a task-backend build whose task state
    is CLOSED, or is none of CLOSED, CANCELED and FAILED. *)
Lemma closed_task_run :
  forall (build : Build.t) (s : State W) w (task_info : TaskInfo.t),
    truthy (Build.koji_id build) = true ->
    session (getTaskInfo (int_of (Build.koji_id build))) (world s)
    = (w, inr task_info) ->
    let task_id := int_of (Build.koji_id build) in
    let run := atomic_check_build_status build s in
    (TaskInfo.state task_info = koji.CLOSED ->
     forall package,
       filter (fun p => Package.id p =? Build.package_id build)
              (packages (db s)) = [package] ->
       let build' := Build.set_status BuildStatus.SUCCEEDED build in
       let package' :=
         Package.set_last_build (Some (datetime_now w)) package in
       run = {| state :=
                  {| world := w;
                     db := {| builds := update_build build' (builds (db s));
                              packages :=
                                update_package package' (packages (db s)) |} |};
                events := [Called (getTaskInfo task_id) None;
                           SavedBuild build'; SavedPackage package'];
                value := inr tt |})
    /\ (TaskInfo.state task_info <> koji.CLOSED ->
        TaskInfo.state task_info <> koji.CANCELED ->
        TaskInfo.state task_info <> koji.FAILED ->
        run = {| state := {| world := w; db := db s |};
                 events := [Called (getTaskInfo task_id) None];
                 value := inr tt |}).
Proof.
  intros build s w [st] Hk Hinfo task_id run.
  subst run. unfold atomic_check_build_status. rewrite Hk.
  fold task_id in Hinfo |- *. cbn [TaskInfo.state]. split.
  - intros -> package Hpkg.
    rewrite (atomic_bind_call _ _ _ _ _ _ Hinfo
               (mark_succeeded_run build {| world := w; db := db s |}
                                   package Hpkg)).
    reflexivity.
  - intros H1 H2 H3.
    rewrite (atomic_bind_call _ _ _ _ _ _ Hinfo eq_refl).
    destruct st; try congruence; reflexivity.
Qed.

(** C5. A task-backend build whose task state is CLOSED: after the run
    the rows of the build in the store have status SUCCEEDED, and the
    row of its package has the current time as [last_build]; the
    [signed] column, the name of the package and every other row of the
    two tables are as they were.  A task state other than CLOSED,
    CANCELED and FAILED changes neither the build table nor the package
    table. *)
Theorem closed_task_marks_build_succeeded :
  forall (build : Build.t) (s : State W) w (task_info : TaskInfo.t),
    truthy (Build.koji_id build) = true ->
    session (getTaskInfo (int_of (Build.koji_id build))) (world s)
    = (w, inr task_info) ->
    let task_id := int_of (Build.koji_id build) in
    let run := atomic_check_build_status build s in
    (TaskInfo.state task_info = koji.CLOSED ->
     forall package,
       filter (fun p => Package.id p =? Build.package_id build)
              (packages (db s)) = [package] ->
       let build' := Build.set_status BuildStatus.SUCCEEDED build in
       let package' :=
         Package.set_last_build (Some (datetime_now w)) package in
       run = {| state :=
                  {| world := w;
                     db := {| builds := update_build build' (builds (db s));
                              packages :=
                                update_package package' (packages (db s)) |} |};
                events := [Called (getTaskInfo task_id) None;
                           SavedBuild build'; SavedPackage package'];
                value := inr tt |}
       /\ saved_with build BuildStatus.SUCCEEDED (Build.signed build)
                     (builds (db s)) (builds (db (state run)))
       /\ stamped_with (Build.package_id build) (datetime_now w)
                       (packages (db s)) (packages (db (state run)))
       /\ Build.status build' = BuildStatus.SUCCEEDED
       /\ Package.last_build package' = Some (datetime_now w))
    /\ (TaskInfo.state task_info <> koji.CLOSED ->
        TaskInfo.state task_info <> koji.CANCELED ->
        TaskInfo.state task_info <> koji.FAILED ->
        run = {| state := {| world := w; db := db s |};
                 events := [Called (getTaskInfo task_id) None];
                 value := inr tt |}
        /\ builds (db (state run)) = builds (db s)
        /\ packages (db (state run)) = packages (db s)).
Proof.
  intros build s w task_info Hk Hinfo task_id run.
  destruct (closed_task_run build s w task_info Hk Hinfo)
    as [Hclosed Hother].
  fold task_id run in Hclosed, Hother. cbv zeta in Hclosed.
  split.
  - intros Hstate package Hpkg build' package'.
    split; [exact (Hclosed Hstate package Hpkg)|].
    rewrite (Hclosed Hstate package Hpkg). repeat apply conj.
    + apply (saved_with_update_build build build'); reflexivity.
    + apply stamped_with_update_package. exact Hpkg.
    + reflexivity.
    + reflexivity.
  - intros H1 H2 H3. split; [exact (Hother H1 H2 H3)|].
    rewrite (Hother H1 H2 H3). split; reflexivity.
Qed.

(** The run of the reconciler on a module-build-backend build, for each
    state MBS reports. *)
Lemma module_build_run :
  forall (build : Build.t) (s : State W) w (build_info : ModuleBuild.t),
    truthy (Build.koji_id build) = false ->
    truthy (Build.mbs_id build) = true ->
    session (get_build (int_of (Build.mbs_id build))) (world s)
    = (w, inr build_info) ->
    let mbs_id := int_of (Build.mbs_id build) in
    let run := atomic_check_build_status build s in
    (ModuleBuild.state_name build_info = "ready" ->
     forall package,
       filter (fun p => Package.id p =? Build.package_id build)
              (packages (db s)) = [package] ->
       let build' := Build.set_status BuildStatus.SUCCEEDED build in
       let package' :=
         Package.set_last_build (Some (datetime_now w)) package in
       run = {| state :=
                  {| world := w;
                     db := {| builds := update_build build' (builds (db s));
                              packages :=
                                update_package package' (packages (db s)) |} |};
                events := [Called (get_build mbs_id) None;
                           SavedBuild build'; SavedPackage package'];
                value := inr tt |})
    /\ (ModuleBuild.state_name build_info = "failed" ->
        let build' := Build.set_status BuildStatus.FAILED build in
        run = {| state :=
                   {| world := w;
                      db := {| builds := update_build build' (builds (db s));
                               packages := packages (db s) |} |};
                 events := [Called (get_build mbs_id) None; SavedBuild build'];
                 value := inr tt |}
        /\ Build.signed build' = Build.signed build)
    /\ (ModuleBuild.state_name build_info <> "ready" ->
        ModuleBuild.state_name build_info <> "failed" ->
        run = {| state := {| world := w; db := db s |};
                 events := [Called (get_build mbs_id) None];
                 value := inr tt |}).
Proof.
  intros build s w [state] Hk Hm Hinfo mbs_id run.
  subst run. unfold atomic_check_build_status. rewrite Hk, Hm.
  fold mbs_id in Hinfo |- *. cbn [ModuleBuild.state_name].
  repeat apply conj.
  - intros -> package Hpkg.
    rewrite (atomic_bind_call _ _ _ _ _ _ Hinfo
               (mark_succeeded_run build {| world := w; db := db s |}
                                   package Hpkg)).
    reflexivity.
  - intros ->. split; [|reflexivity].
    rewrite (atomic_bind_call _ _ _ _ _ _ Hinfo eq_refl). reflexivity.
  - intros H1 H2.
    rewrite (atomic_bind_call _ _ _ _ _ _ Hinfo eq_refl).
    cbn [ModuleBuild.state_name].
    apply String.eqb_neq in H1, H2. rewrite H1, H2. reflexivity.
Qed.

(** C6. A module-build-backend build.  State [ready]: after the run the
    rows of the build in the store have status SUCCEEDED and the row of
    its package has the current time as [last_build].  State [failed]:
    the rows of the build have status FAILED, and the package table and
    the [signed] column are as they were.  Any other state changes
    nothing.  In each case every other row is as it was. *)
Theorem module_build_state_decides_status :
  forall (build : Build.t) (s : State W) w (build_info : ModuleBuild.t),
    truthy (Build.koji_id build) = false ->
    truthy (Build.mbs_id build) = true ->
    session (get_build (int_of (Build.mbs_id build))) (world s)
    = (w, inr build_info) ->
    let mbs_id := int_of (Build.mbs_id build) in
    let run := atomic_check_build_status build s in
    (ModuleBuild.state_name build_info = "ready" ->
     forall package,
       filter (fun p => Package.id p =? Build.package_id build)
              (packages (db s)) = [package] ->
       let build' := Build.set_status BuildStatus.SUCCEEDED build in
       let package' :=
         Package.set_last_build (Some (datetime_now w)) package in
       run = {| state :=
                  {| world := w;
                     db := {| builds := update_build build' (builds (db s));
                              packages :=
                                update_package package' (packages (db s)) |} |};
                events := [Called (get_build mbs_id) None;
                           SavedBuild build'; SavedPackage package'];
                value := inr tt |}
       /\ saved_with build BuildStatus.SUCCEEDED (Build.signed build)
                     (builds (db s)) (builds (db (state run)))
       /\ stamped_with (Build.package_id build) (datetime_now w)
                       (packages (db s)) (packages (db (state run))))
    /\ (ModuleBuild.state_name build_info = "failed" ->
        let build' := Build.set_status BuildStatus.FAILED build in
        (run = {| state :=
                    {| world := w;
                       db := {| builds := update_build build' (builds (db s));
                                packages := packages (db s) |} |};
                  events := [Called (get_build mbs_id) None;
                             SavedBuild build'];
                  value := inr tt |}
         /\ Build.signed build' = Build.signed build)
        /\ saved_with build BuildStatus.FAILED (Build.signed build)
                      (builds (db s)) (builds (db (state run)))
        /\ packages (db (state run)) = packages (db s))
    /\ (ModuleBuild.state_name build_info <> "ready" ->
        ModuleBuild.state_name build_info <> "failed" ->
        run = {| state := {| world := w; db := db s |};
                 events := [Called (get_build mbs_id) None];
                 value := inr tt |}).
Proof.
  intros build s w build_info Hk Hm Hinfo mbs_id run.
  destruct (module_build_run build s w build_info Hk Hm Hinfo)
    as [Hready [Hfailed Hother]].
  fold mbs_id run in Hready, Hfailed, Hother. cbv zeta in Hready, Hfailed.
  repeat apply conj.
  - intros Hstate package Hpkg build' package'.
    split; [exact (Hready Hstate package Hpkg)|].
    rewrite (Hready Hstate package Hpkg). split.
    + apply (saved_with_update_build build build'); reflexivity.
    + apply stamped_with_update_package. exact Hpkg.
  - intros Hstate build'. destruct (Hfailed Hstate) as [Hrun Hsigned].
    split; [split; [exact Hrun|exact Hsigned]|].
    rewrite Hrun. split; [|reflexivity].
    apply (saved_with_update_build build build'); reflexivity.
  - exact Hother.
Qed.

End StatusReconciler.

(** ** What a run may do to the build table

    A relation [Q] between the store before and after a run that is
    reflexive and transitive is kept by every combinator of the monad as
    soon as the primitive writes keep it. *)

Section Frame.

Context {W : Type} {collab : Collaborators W}.
Variable Q : Db -> Db -> Prop.
Hypothesis Q_refl : forall d, Q d d.
Hypothesis Q_trans : forall d1 d2 d3, Q d1 d2 -> Q d2 d3 -> Q d1 d3.

Lemma keeps_ret {A} (a : A) : keeps W Q (ret a).
Proof. intros s. apply Q_refl. Qed.

Lemma keeps_raise {A} (e : exn) : keeps W Q (@raise W A e).
Proof. intros s. apply Q_refl. Qed.

Lemma keeps_emit (ev : Event) : keeps W Q (emit ev).
Proof. intros s. apply Q_refl. Qed.

Lemma keeps_call (c : Call) : keeps W Q (call c).
Proof.
  intros s. unfold call. destruct (session c (world s)). apply Q_refl.
Qed.

Lemma keeps_bind {A B} (m : M W A) (f : A -> M W B) :
  keeps W Q m -> (forall a, keeps W Q (f a)) -> keeps W Q (bind m f).
Proof.
  intros Hm Hf s. unfold bind. specialize (Hm s).
  destruct (m s) as [s1 ev1 [e|a]]; cbn in *; [exact Hm|].
  eapply Q_trans; [exact Hm|apply Hf].
Qed.

Lemma keeps_try {A} (m : M W A) : keeps W Q m -> keeps W Q (try m).
Proof. intros Hm s. apply Hm. Qed.

Lemma keeps_atomic {A} (m : M W A) : keeps W Q m -> keeps W Q (atomic m).
Proof.
  intros Hm s. unfold atomic. specialize (Hm s).
  destruct (m s) as [s1 ev1 [e|a]]; cbn in *; [apply Q_refl|exact Hm].
Qed.

Lemma keeps_for_each {A} (xs : list A) (body : A -> M W unit) :
  (forall x, In x xs -> keeps W Q (body x)) -> keeps W Q (for_each xs body).
Proof.
  induction xs as [|x xs IH]; intros Hbody; cbn.
  - apply keeps_ret.
  - apply keeps_bind.
    + apply Hbody. now left.
    + intros _. apply IH. intros y Hy. apply Hbody. now right.
Qed.

Lemma keeps_for_each_with {A V} (xs : list A) (body : V -> A -> M W V) :
  (forall v x, keeps W Q (body v x)) ->
  forall v, keeps W Q (for_each_with xs v body).
Proof.
  intros Hbody. induction xs as [|x xs IH]; intros v; cbn.
  - apply keeps_ret.
  - apply keeps_bind; [apply Hbody|exact IH].
Qed.

Lemma keeps_Package_get (package_id : Z) : keeps W Q (Package_get package_id).
Proof.
  intros s. unfold Package_get.
  destruct (filter _ _) as [|p [|q l]]; apply Q_refl.
Qed.

Lemma keeps_now : keeps W Q now.
Proof. intros s. apply Q_refl. Qed.

Lemma keeps_sleep (seconds : Z) : keeps W Q (sleep seconds).
Proof. intros s. apply Q_refl. Qed.

Ltac keep_call :=
  match goal with |- keeps W Q (call ?c) => exact (keeps_call c) end.

Lemma keeps_for_rpm (rpm : Rpm.t) : keeps W Q (for_rpm rpm).
Proof.
  unfold for_rpm. apply keeps_bind; [keep_call|intros rpm_sigs].
  apply keeps_bind.
  - apply keeps_for_each. intros rpm_sig _.
    destruct (_ =? _)%string; apply keeps_ret.
  - intros _. apply keeps_bind; [keep_call|intros _; keep_call].
Qed.

Lemma keeps_for_build_task (should_tag : bool) (build_task : BuildTask.t) :
  keeps W Q (for_build_task should_tag build_task).
Proof.
  unfold for_build_task.
  apply keeps_bind; [keep_call|intros build_history].
  apply keeps_bind.
  - destruct (scan_tag_listing _ _); [keep_call|apply keeps_ret].
  - intros _. apply keeps_bind; [keep_call|intros build_rpms].
    apply keeps_bind; [|intros _; apply keeps_ret].
    apply keeps_for_each. intros rpm _. apply keeps_for_rpm.
Qed.

(** The coordinator keeps [Q] when saving the build as signed does. *)
Lemma keeps_atomic_sign_unsigned_builds build package :
  keeps W Q (Build_save (Build.set_signed true build)) ->
  keeps W Q (atomic_sign_unsigned_builds build package).
Proof.
  intros Hsave. unfold atomic_sign_unsigned_builds. apply keeps_atomic.
  destruct (truthy _); [|apply keeps_ret].
  apply keeps_bind.
  { destruct package; [apply keeps_ret|apply keeps_raise]. }
  intros package_name. apply keeps_bind; [keep_call|intros _].
  apply keeps_bind; [keep_call|intros build_tasks].
  apply keeps_bind; [|intros _; exact Hsave].
  apply keeps_for_each_with. intros v x. apply keeps_for_build_task.
Qed.

(** The reconciler keeps [Q] when saving the build keeps it, whatever
    status it is saved with, and saving a package keeps it. *)
Lemma keeps_atomic_check_build_status build :
  (forall st, keeps W Q (Build_save (Build.set_status st build))) ->
  keeps W Q (Build_save build) ->
  (forall p, keeps W Q (Package_save p)) ->
  keeps W Q (atomic_check_build_status build).
Proof.
  intros Hsave Hsame Hpkg.
  assert (Hmark : keeps W Q (mark_succeeded build)).
  { unfold mark_succeeded. apply keeps_bind; [apply Hsave|intros _].
    apply keeps_bind; [apply keeps_Package_get|intros package].
    apply keeps_bind; [apply keeps_now|intros t]. apply Hpkg. }
  unfold atomic_check_build_status. apply keeps_atomic.
  destruct (truthy (Build.koji_id build)).
  - apply keeps_bind; [keep_call|intros task_info].
    destruct (TaskInfo.state task_info); try apply keeps_ret;
      [exact Hmark|apply Hsave|].
    apply keeps_bind.
    + apply keeps_try. apply keeps_bind; [keep_call|intros task_result].
      apply keeps_emit.
    + intros [e|_]; [|exact Hsame].
      destruct e; try apply Hsave;
        (apply keeps_bind; [exact Hsame|intros _; apply keeps_raise]).
  - destruct (truthy (Build.mbs_id build)); [|apply keeps_ret].
    apply keeps_bind; [keep_call|intros build_info].
    cbv zeta. destruct (_ =? "ready")%string; [exact Hmark|].
    destruct (_ =? "failed")%string; [apply Hsave|apply keeps_ret].
Qed.

End Frame.

(** ** Rows overwritten by a run *)

Section Touched.

Lemma touched_refl (P : Build.t -> Prop) (d : Db) : touched P d d.
Proof.
  unfold touched. induction (builds d); constructor; auto.
Qed.

Lemma touched_trans (P : Build.t -> Prop) (d1 d2 d3 : Db) :
  touched P d1 d2 -> touched P d2 d3 -> touched P d1 d3.
Proof.
  unfold touched. generalize (builds d1), (builds d2), (builds d3).
  intros l1 l2 l3 H12. revert l3.
  induction H12 as [|r1 r2 l1 l2 [Hid H] _ IH]; intros l3 H23;
    inversion H23 as [|? r3 ? l3' [Hid' H'] Hrest]; subst; constructor.
  - split; [congruence|].
    destruct H' as [->|H']; [exact H|now right].
  - apply IH, Hrest.
Qed.

Lemma touched_mono (P P' : Build.t -> Prop) (d d' : Db) :
  (forall r, P r -> P' r) -> touched P d d' -> touched P' d d'.
Proof.
  intros HP. unfold touched. apply Forall2_impl.
  intros r r' [Hid [H|H]]; auto.
Qed.

Lemma touched_update (P : Build.t -> Prop) (b : Build.t) (d : Db) packages' :
  P b ->
  touched P d {| builds := update_build b (builds d); packages := packages' |}.
Proof.
  intros Hb. unfold touched, update_build; cbn.
  induction (builds d) as [|r l IH]; cbn; constructor; [|exact IH].
  destruct (Build.id r =? Build.id b) eqn:E.
  - apply Z.eqb_eq in E. auto.
  - auto.
Qed.

Lemma touched_packages (P : Build.t -> Prop) (d : Db) packages' :
  touched P d {| builds := builds d; packages := packages' |}.
Proof. apply (touched_refl P d). Qed.

Lemma touched_ids (P : Build.t -> Prop) (d d' : Db) :
  touched P d d' -> map Build.id (builds d') = map Build.id (builds d).
Proof.
  unfold touched. induction 1 as [|r r' l l' [Hid _] _ IH]; cbn; congruence.
Qed.

Lemma touched_Forall (P I : Build.t -> Prop) (d d' : Db) :
  touched P d d' -> (forall r, P r -> I r) ->
  Forall I (builds d) -> Forall I (builds d').
Proof.
  unfold touched. intros H HP.
  induction H as [|r r' l l' [_ H] _ IH]; intros HI;
    inversion HI; subst; constructor; auto.
  destruct H as [->|H]; auto.
Qed.

Lemma touched_In (P : Build.t -> Prop) (d d' : Db) (b : Build.t) :
  touched P d d' -> In b (builds d) ->
  In b (builds d') \/ exists r', P r' /\ Build.id r' = Build.id b.
Proof.
  unfold touched. induction 1 as [|r r' l l' [Hid H] _ IH]; cbn; [tauto|].
  intros [->|Hin].
  - destruct H as [->|H]; [auto|right; eauto].
  - destruct (IH Hin) as [?|?]; auto.
Qed.

Lemma unique_id_In (d : Db) (a b : Build.t) :
  unique_ids d -> In a (builds d) -> In b (builds d) ->
  Build.id a = Build.id b -> a = b.
Proof.
  unfold unique_ids. induction (builds d) as [|r l IH]; cbn; [tauto|].
  intros Hnd Ha Hb Hid. inversion Hnd as [|? ? Hnotin Hnd']; subst.
  destruct Ha as [->|Ha], Hb as [->|Hb]; auto.
  - exfalso. apply Hnotin. rewrite Hid. now apply in_map.
  - exfalso. apply Hnotin. rewrite <- Hid. now apply in_map.
Qed.

End Touched.

(** ** One unit of work, one cycle *)

Section Units.

Context {W : Type} {collab : Collaborators W}.

Lemma set_status_same (b : Build.t) : Build.set_status (Build.status b) b = b.
Proof. destruct b; reflexivity. Qed.

(** The reconciler overwrites nothing but the row of its build, and
    only with that build under a new status: the [signed] column keeps
    the value the build was loaded with. *)
Lemma atomic_check_build_status_touches (build : Build.t) :
  keeps W (touched (fun r => exists st, r = Build.set_status st build))
        (atomic_check_build_status build).
Proof.
  apply keeps_atomic_check_build_status.
  - apply touched_refl.
  - apply touched_trans.
  - intros st s. apply touched_update. eauto.
  - intros s. apply touched_update. exists (Build.status build).
    symmetry. apply set_status_same.
  - intros p s. apply touched_packages.
Qed.

(** The coordinator overwrites nothing but the row of its build, only
    with that build marked signed, and only for a task-backend build. *)
Lemma atomic_sign_unsigned_builds_touches build package :
  keeps W (touched (fun r => r = Build.set_signed true build
                             /\ truthy (Build.koji_id build) = true))
        (atomic_sign_unsigned_builds build package).
Proof.
  destruct (truthy (Build.koji_id build)) eqn:Hk.
  - apply keeps_atomic_sign_unsigned_builds.
    + apply touched_refl.
    + apply touched_trans.
    + intros s. apply touched_update. auto.
  - intros s. unfold atomic_sign_unsigned_builds. rewrite Hk.
    apply touched_refl.
Qed.

Lemma check_build_status_cycle_db (s : State W) :
  db (state (check_build_status_cycle s))
  = db (state (for_each (candidates_for_status (db s))
                        atomic_check_build_status s)).
Proof.
  unfold check_build_status_cycle, bind, try, emit, sleep,
    Build_filter_building, ret; cbn.
  destruct (for_each _ _ s) as [s1 ev1 [e|[]]]; cbn;
    [destruct (is_Exception e)|]; reflexivity.
Qed.

Lemma sign_unsigned_builds_cycle_db (s : State W) :
  db (state (sign_unsigned_builds_cycle s))
  = db (state (for_each (candidates_for_signing (db s))
                 (fun build =>
                    atomic_sign_unsigned_builds (fst build) (snd build))
                 s)).
Proof.
  unfold sign_unsigned_builds_cycle, bind, try, emit, sleep,
    Build_filter_unsigned_succeeded, ret; cbn.
  destruct (for_each _ _ s) as [s1 ev1 [e|[]]]; cbn;
    [destruct (is_Exception e)|]; reflexivity.
Qed.

(** One status cycle overwrites rows only with its own candidates under
    a new status. *)
Lemma check_build_status_cycle_touches (s : State W) :
  touched (fun r => exists c st, In c (candidates_for_status (db s))
                                 /\ r = Build.set_status st c)
          (db s) (db (state (check_build_status_cycle s))).
Proof.
  rewrite check_build_status_cycle_db.
  apply (keeps_for_each _ (touched_refl _) (touched_trans _)).
  intros c Hc s'. eapply touched_mono; [|apply atomic_check_build_status_touches].
  intros r [st ->]. eauto.
Qed.

(** One signing cycle overwrites rows only with its own task-backend
    candidates, marked signed. *)
Lemma sign_unsigned_builds_cycle_touches (s : State W) :
  touched (fun r => exists c, In c (filter unsigned_succeeded (builds (db s)))
                              /\ truthy (Build.koji_id c) = true
                              /\ r = Build.set_signed true c)
          (db s) (db (state (sign_unsigned_builds_cycle s))).
Proof.
  rewrite sign_unsigned_builds_cycle_db.
  apply (keeps_for_each _ (touched_refl _) (touched_trans _)).
  intros [c p] Hc s'. cbn.
  eapply touched_mono; [|apply atomic_sign_unsigned_builds_touches].
  intros r [-> Hk]. exists c. repeat split; auto.
  unfold candidates_for_signing in Hc. apply in_map_iff in Hc.
  destruct Hc as [c' [E Hc']]. unfold prefetch_package in E.
  now injection E as -> _.
Qed.

Lemma building_spec (b : Build.t) :
  building b = true <-> Build.status b = BuildStatus.BUILDING.
Proof. unfold building. destruct (Build.status b); cbn; split; congruence. Qed.

Lemma unsigned_succeeded_spec (b : Build.t) :
  unsigned_succeeded b = true
  <-> Build.signed b = false /\ Build.status b = BuildStatus.SUCCEEDED.
Proof.
  unfold unsigned_succeeded.
  destruct (Build.signed b), (Build.status b); cbn; intuition congruence.
Qed.

Lemma candidates_for_signing_In (d : Db) b p :
  In (b, p) (candidates_for_signing d) ->
  In b (builds d) /\ unsigned_succeeded b = true.
Proof.
  unfold candidates_for_signing. intros H. apply in_map_iff in H.
  destruct H as [c [E Hc]]. unfold prefetch_package in E.
  injection E as -> _. now apply filter_In in Hc.
Qed.

(** The invariant survives one turn of either periodic task. *)
Lemma turn_keeps_invariant (t : PeriodicTask) (s : State W) :
  Forall signed_implies_succeeded (builds (db s)) ->
  Forall signed_implies_succeeded (builds (db (state (turn t s)))).
Proof.
  intros Hinv. destruct t; cbn.
  - eapply touched_Forall;
      [apply check_build_status_cycle_touches| |exact Hinv].
    intros r [c [st [Hc ->]]]. unfold candidates_for_status in Hc.
    apply filter_In in Hc. destruct Hc as [Hin Hb].
    apply building_spec in Hb.
    rewrite Forall_forall in Hinv. specialize (Hinv c Hin).
    unfold signed_implies_succeeded in *. cbn. intros Hs.
    specialize (Hinv Hs). congruence.
  - destruct (negb _); [|exact Hinv].
    eapply touched_Forall;
      [apply sign_unsigned_builds_cycle_touches| |exact Hinv].
    intros r [c [Hc [_ ->]]]. apply filter_In in Hc.
    destruct Hc as [_ Hc]. apply unsigned_succeeded_spec in Hc.
    intros _. cbn. tauto.
Qed.

Lemma run_schedule_keeps_invariant (ts : list PeriodicTask) :
  forall s : State W,
    Forall signed_implies_succeeded (builds (db s)) ->
    Forall signed_implies_succeeded (builds (db (state (run_schedule ts s)))).
Proof.
  induction ts as [|t ts IH]; intros s Hinv; cbn; [exact Hinv|].
  unfold bind. pose proof (turn_keeps_invariant t s Hinv) as Ht.
  destruct (turn t s) as [s1 ev1 [e|[]]]; cbn in *; [exact Ht|].
  apply IH, Ht.
Qed.

(** C3. [signed = true] implies [status = SUCCEEDED] is an invariant of
    the build table.  The status cycle hands the reconciler only
    BUILDING builds, which by the invariant are not signed, and the
    reconciler overwrites only the row of its build, keeping its
    [signed] column; the signing cycle hands the coordinator only
    SUCCEEDED builds, and the coordinator overwrites only the row of its
    build, marking it signed.  So one unit of work of either kind keeps
    the invariant, and so does every schedule of turns of the two
    periodic tasks. *)
Theorem signed_implies_succeeded_is_invariant :
  forall s : State W,
    Forall signed_implies_succeeded (builds (db s)) ->
    (forall bs b,
        value (Build_filter_building s) = inr bs -> In b bs ->
        Build.status b = BuildStatus.BUILDING /\ Build.signed b = false)
    /\ (forall bs b p,
           value (Build_filter_unsigned_succeeded s) = inr bs ->
           In (b, p) bs ->
           Build.status b = BuildStatus.SUCCEEDED /\ Build.signed b = false)
    /\ (forall b,
           Build.status b = BuildStatus.BUILDING -> Build.signed b = false ->
           let d' := db (state (atomic_check_build_status b s)) in
           touched (fun r => exists st, r = Build.set_status st b) (db s) d'
           /\ Forall signed_implies_succeeded (builds d'))
    /\ (forall b p,
           Build.status b = BuildStatus.SUCCEEDED ->
           let d' := db (state (atomic_sign_unsigned_builds b p s)) in
           touched (fun r => r = Build.set_signed true b) (db s) d'
           /\ Forall signed_implies_succeeded (builds d'))
    /\ (forall ts,
           Forall signed_implies_succeeded
                  (builds (db (state (run_schedule ts s))))).
Proof.
  intros s Hinv. repeat split.
  - apply (proj1 (building_spec b)).
    injection H as <-. now apply filter_In in H0.
  - injection H as <-. apply filter_In in H0. destruct H0 as [Hin Hb].
    apply building_spec in Hb. rewrite Forall_forall in Hinv.
    specialize (Hinv b Hin). unfold signed_implies_succeeded in Hinv.
    destruct (Build.signed b); [|reflexivity].
    specialize (Hinv eq_refl). congruence.
  - injection H as <-. apply candidates_for_signing_In in H0.
    destruct H0 as [_ H0]. now apply unsigned_succeeded_spec in H0.
  - injection H as <-. apply candidates_for_signing_In in H0.
    destruct H0 as [_ H0]. now apply unsigned_succeeded_spec in H0.
  - apply atomic_check_build_status_touches.
  - eapply touched_Forall;
      [apply atomic_check_build_status_touches| |exact Hinv].
    intros r [st ->]. intros Hs. cbn in Hs. congruence.
  - eapply touched_mono; [|apply atomic_sign_unsigned_builds_touches].
    intros r [-> _]. reflexivity.
  - eapply touched_Forall;
      [apply atomic_sign_unsigned_builds_touches| |exact Hinv].
    intros r [-> _] _. exact H.
  - intros ts. now apply run_schedule_keeps_invariant.
Qed.

End Units.

(** ** Effects a run does not have *)

Section Quiet.

Context {W : Type} {collab : Collaborators W}.
Variable p : Event -> bool.

Lemma quiet_ret {A} (a : A) : quiet W p (ret a).
Proof. intros s. constructor. Qed.

Lemma quiet_raise {A} (e : exn) : quiet W p (@raise W A e).
Proof. intros s. constructor. Qed.

Lemma quiet_call (c : Call) :
  (forall r, p (Called c r) = false) -> quiet W p (call c).
Proof.
  intros Hc s. unfold call. destruct (session c (world s)) as [w r]; cbn.
  constructor; [apply Hc|constructor].
Qed.

Lemma quiet_bind {A B} (m : M W A) (f : A -> M W B) :
  quiet W p m -> (forall a, quiet W p (f a)) -> quiet W p (bind m f).
Proof.
  intros Hm Hf s. unfold bind. specialize (Hm s).
  destruct (m s) as [s1 ev1 [e|a]]; cbn in *; [exact Hm|].
  apply Forall_app. split; [exact Hm|apply Hf].
Qed.

Lemma quiet_atomic {A} (m : M W A) : quiet W p m -> quiet W p (atomic m).
Proof.
  intros Hm s. unfold atomic. specialize (Hm s).
  destruct (m s) as [s1 ev1 [e|a]]; exact Hm.
Qed.

Lemma quiet_for_each {A} (xs : list A) (body : A -> M W unit) :
  (forall x, quiet W p (body x)) -> quiet W p (for_each xs body).
Proof.
  intros Hbody. induction xs as [|x xs IH]; cbn.
  - apply quiet_ret.
  - apply quiet_bind; [apply Hbody|intros _; exact IH].
Qed.

Lemma quiet_for_each_with {A V} (xs : list A) (body : V -> A -> M W V) :
  (forall v x, quiet W p (body v x)) ->
  forall v, quiet W p (for_each_with xs v body).
Proof.
  intros Hbody. induction xs as [|x xs IH]; intros v; cbn.
  - apply quiet_ret.
  - apply quiet_bind; [apply Hbody|exact IH].
Qed.

(** From here on [p] can only hold of a remote call when the call is a
    tag operation. *)
Hypothesis p_call :
  forall c r, p (Called c r) = true -> exists tag nvr, c = tagBuild tag nvr.

Lemma p_not_tagBuild (c : Call) :
  (forall tag nvr, c <> tagBuild tag nvr) -> forall r, p (Called c r) = false.
Proof.
  intros Hc r. destruct (p (Called c r)) eqn:E; [|reflexivity].
  destruct (p_call _ _ E) as [tag [nvr ->]]. now destruct (Hc tag nvr).
Qed.

Ltac quiet_call :=
  match goal with
  | |- quiet _ _ (call ?c) =>
      apply (quiet_call c); apply p_not_tagBuild; discriminate
  end.

Lemma quiet_for_rpm (rpm : Rpm.t) : quiet W p (for_rpm rpm).
Proof.
  unfold for_rpm. apply quiet_bind; [quiet_call|intros rpm_sigs].
  apply quiet_bind.
  - apply quiet_for_each. intros rpm_sig.
    destruct (_ =? _)%string; apply quiet_ret.
  - intros _. apply quiet_bind; [quiet_call|intros _; quiet_call].
Qed.

(** What follows the tagging decision in the body of the loop over the
    build tasks. *)
Lemma quiet_sign_rpms (build_task : BuildTask.t) (should_tag : bool) :
  quiet W p
    (build_rpms <- call (listBuildRPMs (BuildTask.build_id build_task)) ;;
     for_each build_rpms for_rpm ;;
     ret should_tag).
Proof.
  apply quiet_bind; [quiet_call|intros build_rpms].
  apply quiet_bind; [|intros _; apply quiet_ret].
  apply quiet_for_each, quiet_for_rpm.
Qed.

Lemma quiet_for_build_task (should_tag : bool) (build_task : BuildTask.t) :
  should_tag = false
  \/ (forall tag nvr r, p (Called (tagBuild tag nvr) r) = false) ->
  quiet W p (for_build_task should_tag build_task).
Proof.
  intros H. unfold for_build_task.
  apply quiet_bind; [quiet_call|intros build_history].
  apply quiet_bind; [|intros _; apply quiet_sign_rpms].
  destruct (scan_tag_listing build_history should_tag) eqn:E;
    [|apply quiet_ret].
  destruct H as [->|H].
  - exfalso. revert E. unfold scan_tag_listing.
    destruct (BuildHistory.tag_listing build_history) as [l|];
      [|discriminate].
    induction l as [|x l IH]; cbn; [discriminate|].
    now destruct (_ =? _)%string.
  - apply quiet_call. intros r. apply H.
Qed.

End Quiet.

Section ReadingEvents.

Lemma tagBuild_calls_app (evs evs' : list Event) :
  tagBuild_calls (evs ++ evs') = tagBuild_calls evs ++ tagBuild_calls evs'.
Proof.
  induction evs as [|ev evs IH]; [reflexivity|].
  destruct ev as [[] ?| | | | |]; cbn; rewrite ?IH; reflexivity.
Qed.

Lemma tagBuild_calls_quiet (evs : list Event) :
  Forall (fun ev => is_tagBuild ev = false) evs -> tagBuild_calls evs = [].
Proof.
  induction 1 as [|ev evs Hev _ IH]; [reflexivity|].
  destruct ev as [[] ?| | | | |]; cbn in *; try discriminate; exact IH.
Qed.

Lemma saved_builds_quiet (evs : list Event) :
  Forall (fun ev => is_SavedBuild ev = false) evs -> saved_builds evs = [].
Proof.
  induction 1 as [|ev evs Hev _ IH]; [reflexivity|].
  destruct ev; cbn in *; try discriminate; exact IH.
Qed.

Lemma saved_builds_app (evs evs' : list Event) :
  saved_builds (evs ++ evs') = saved_builds evs ++ saved_builds evs'.
Proof.
  induction evs as [|ev evs IH]; [reflexivity|].
  destruct ev; cbn; rewrite ?IH; reflexivity.
Qed.

Lemma is_tagBuild_call c r :
  is_tagBuild (Called c r) = true -> exists tag nvr, c = tagBuild tag nvr.
Proof. destruct c; cbn; try discriminate. eauto. Qed.

Lemma is_SavedBuild_call c r :
  is_SavedBuild (Called c r) = true -> exists tag nvr, c = tagBuild tag nvr.
Proof. discriminate. Qed.

End ReadingEvents.

(** ** A failing remote call ends the coordinator *)

Section FailsFast.

Context {W : Type} {collab : Collaborators W}.

Lemma fails_fast_ret {A} (a : A) : fails_fast W (ret a).
Proof. intros s c e []. Qed.

Lemma fails_fast_raise {A} (e : exn) : fails_fast W (@raise W A e).
Proof. intros s c e' []. Qed.

Lemma fails_fast_Build_save (b : Build.t) : fails_fast W (Build_save b).
Proof. intros s c e [H|[]]. discriminate H. Qed.

Lemma fails_fast_call (c : Call) : fails_fast W (call c).
Proof.
  intros s c' e. unfold call. destruct (session c (world s)) as [w [e0|a]];
    cbn; intros [H|[]]; [|discriminate H]. now injection H as _ ->.
Qed.

Lemma fails_fast_bind {A B} (m : M W A) (f : A -> M W B) :
  fails_fast W m -> (forall a, fails_fast W (f a)) -> fails_fast W (bind m f).
Proof.
  intros Hm Hf s c e. unfold bind. specialize (Hm s c e).
  destruct (m s) as [s1 ev1 [e1|a]]; cbn in *.
  - intros H. specialize (Hm H). congruence.
  - intros H. apply in_app_or in H. destruct H as [H|H].
    + specialize (Hm H). discriminate Hm.
    + exact (Hf a s1 c e H).
Qed.

Lemma fails_fast_atomic {A} (m : M W A) :
  fails_fast W m -> fails_fast W (atomic m).
Proof.
  intros Hm s c e. unfold atomic. specialize (Hm s c e).
  destruct (m s) as [s1 ev1 [e1|a]]; exact Hm.
Qed.

Lemma fails_fast_for_each {A} (xs : list A) (body : A -> M W unit) :
  (forall x, fails_fast W (body x)) -> fails_fast W (for_each xs body).
Proof.
  intros Hbody. induction xs as [|x xs IH]; cbn.
  - apply fails_fast_ret.
  - apply fails_fast_bind; [apply Hbody|intros _; exact IH].
Qed.

Lemma fails_fast_for_each_with {A V} (xs : list A) (body : V -> A -> M W V) :
  (forall v x, fails_fast W (body v x)) ->
  forall v, fails_fast W (for_each_with xs v body).
Proof.
  intros Hbody. induction xs as [|x xs IH]; intros v; cbn.
  - apply fails_fast_ret.
  - apply fails_fast_bind; [apply Hbody|exact IH].
Qed.

Ltac ff_call :=
  match goal with |- fails_fast _ (call ?c) => exact (fails_fast_call c) end.

Lemma fails_fast_for_rpm (rpm : Rpm.t) : fails_fast W (for_rpm rpm).
Proof.
  unfold for_rpm. apply fails_fast_bind; [ff_call|intros rpm_sigs].
  apply fails_fast_bind.
  - apply fails_fast_for_each. intros rpm_sig.
    destruct (_ =? _)%string; apply fails_fast_ret.
  - intros _. apply fails_fast_bind; [ff_call|intros _; ff_call].
Qed.

Lemma fails_fast_for_build_task should_tag build_task :
  fails_fast W (for_build_task should_tag build_task).
Proof.
  unfold for_build_task.
  apply fails_fast_bind; [ff_call|intros build_history].
  apply fails_fast_bind.
  - destruct (scan_tag_listing _ _); [ff_call|apply fails_fast_ret].
  - intros _. apply fails_fast_bind; [ff_call|intros build_rpms].
    apply fails_fast_bind; [|intros _; apply fails_fast_ret].
    apply fails_fast_for_each, fails_fast_for_rpm.
Qed.

Lemma fails_fast_atomic_sign_unsigned_builds build package :
  fails_fast W (atomic_sign_unsigned_builds build package).
Proof.
  unfold atomic_sign_unsigned_builds. apply fails_fast_atomic.
  destruct (truthy _); [|apply fails_fast_ret].
  apply fails_fast_bind.
  { destruct package; [apply fails_fast_ret|apply fails_fast_raise]. }
  intros package_name. apply fails_fast_bind; [ff_call|intros _].
  apply fails_fast_bind; [ff_call|intros build_tasks].
  apply fails_fast_bind; [|intros _; apply fails_fast_Build_save].
  apply fails_fast_for_each_with. intros v x.
  apply fails_fast_for_build_task.
Qed.

(** A transaction that ends with an exception leaves the store as it
    found it. *)
Lemma atomic_rolls_back {A} (m : M W A) (s : State W) e :
  value (atomic m s) = inl e -> db (state (atomic m s)) = db s.
Proof.
  unfold atomic. destruct (m s) as [s1 ev1 [e1|a]]; cbn;
    [reflexivity|discriminate].
Qed.

(** When [m] never saves a build and what follows it has saved nothing
    if it ends with an exception, so has the sequence of the two. *)
Lemma raises_before_save {A B} (m : M W A) (f : A -> M W B) :
  quiet W is_SavedBuild m ->
  (forall a s e, value (f a s) = inl e -> saved_builds (events (f a s)) = []) ->
  forall s e,
    value (bind m f s) = inl e -> saved_builds (events (bind m f s)) = [].
Proof.
  intros Hm Hf s e. unfold bind. specialize (Hm s).
  apply saved_builds_quiet in Hm.
  destruct (m s) as [s1 ev1 [e1|a]]; cbn in *; [intros _; exact Hm|].
  intros H. rewrite saved_builds_app, Hm. exact (Hf a s1 e H).
Qed.

Lemma coordinator_saves_last build package (s : State W) e :
  value (atomic_sign_unsigned_builds build package s) = inl e ->
  saved_builds (events (atomic_sign_unsigned_builds build package s)) = [].
Proof.
  unfold atomic_sign_unsigned_builds.
  destruct (truthy _); [|discriminate].
  set (body := bind _ _).
  assert (Hbody : forall s e, value (body s) = inl e ->
                              saved_builds (events (body s)) = []).
  { subst body. apply raises_before_save.
    { destruct package; [apply quiet_ret|apply quiet_raise]. }
    intros package_name. apply raises_before_save.
    { apply (quiet_call is_SavedBuild). reflexivity. }
    intros _. apply raises_before_save.
    { apply (quiet_call is_SavedBuild). reflexivity. }
    intros build_tasks. apply raises_before_save.
    - apply quiet_for_each_with. intros v x.
      apply quiet_for_build_task; [apply is_SavedBuild_call|].
      right. reflexivity.
    - discriminate. }
  unfold atomic. specialize (Hbody s).
  destruct (body s) as [s1 ev1 [e1|a]]; cbn in *; [|discriminate].
  intros _. exact (Hbody e1 eq_refl).
Qed.

End FailsFast.

(** ** A cycle and the first build that fails in it *)

Section Cycles.

Context {W : Type} {collab : Collaborators W}.

(** The shape both cycles have: a banner, the loop under a handler for
    [Exception] that logs, the sleep. *)
Lemma cycle_run (banner : string) (loop : M W unit) (seconds : Z)
      (s : State W) :
  (emit (LogDebug banner) ;;
   r <- try loop ;;
   match r with
   | inl e => if is_Exception e then emit (LogError e) else raise e
   | inr _ => ret tt
   end ;;
   sleep seconds) s
  = match value (loop s) with
    | inr _ =>
        {| state := {| world := asyncio_sleep seconds (world (state (loop s)));
                       db := db (state (loop s)) |};
           events := LogDebug banner :: events (loop s) ++ [Slept seconds];
           value := inr tt |}
    | inl e =>
        if is_Exception e
        then {| state :=
                  {| world := asyncio_sleep seconds (world (state (loop s)));
                     db := db (state (loop s)) |};
                events := LogDebug banner
                          :: events (loop s) ++ [LogError e; Slept seconds];
                value := inr tt |}
        else {| state := state (loop s);
                events := LogDebug banner :: events (loop s);
                value := inl e |}
    end.
Proof.
  unfold bind, try, emit, sleep, ret, raise; cbn.
  destruct (loop s) as [s1 ev1 [e|[]]]; cbn;
    [destruct (is_Exception e); cbn|];
    rewrite <- ?app_assoc, ?app_nil_r; reflexivity.
Qed.

Lemma cycle_events (banner : string) (loop : M W unit) (seconds : Z)
      (s : State W) :
  events ((emit (LogDebug banner) ;;
           r <- try loop ;;
           match r with
           | inl e => if is_Exception e then emit (LogError e) else raise e
           | inr _ => ret tt
           end ;;
           sleep seconds) s)
  = LogDebug banner
    :: events (loop s)
    ++ match value (loop s) with
       | inl e => if is_Exception e then [LogError e; Slept seconds] else []
       | inr _ => [Slept seconds]
       end.
Proof.
  rewrite cycle_run.
  destruct (value (loop s)) as [e|]; [destruct (is_Exception e)|]; cbn;
    rewrite ?app_nil_r; reflexivity.
Qed.

Lemma cycle_db (banner : string) (loop : M W unit) (seconds : Z)
      (s : State W) :
  db (state ((emit (LogDebug banner) ;;
              r <- try loop ;;
              match r with
              | inl e => if is_Exception e then emit (LogError e) else raise e
              | inr _ => ret tt
              end ;;
              sleep seconds) s))
  = db (state (loop s)).
Proof.
  rewrite cycle_run.
  destruct (value (loop s)) as [e|]; [destruct (is_Exception e)|];
    reflexivity.
Qed.

Lemma status_loop_run (s : State W) :
  (builds <- Build_filter_building ;;
   for_each builds atomic_check_build_status) s
  = for_each (candidates_for_status (db s)) atomic_check_build_status s.
Proof.
  unfold bind, Build_filter_building, ret; cbn. symmetry. apply result_eta.
Qed.

Lemma signing_loop_run (s : State W) :
  (builds <- Build_filter_unsigned_succeeded ;;
   for_each builds
     (fun build => atomic_sign_unsigned_builds (fst build) (snd build))) s
  = for_each (candidates_for_signing (db s))
      (fun build => atomic_sign_unsigned_builds (fst build) (snd build)) s.
Proof.
  unfold bind, Build_filter_unsigned_succeeded, ret; cbn. symmetry.
  apply result_eta.
Qed.

(** A loop whose body raises at some element ends there: the elements
    before it had their turn, the ones after it have none. *)
Lemma for_each_stops {A} (body : A -> M W unit) (pre post : list A) (x : A) :
  forall s s1 ev1 s2 ev2 e,
    for_each pre body s = {| state := s1; events := ev1; value := inr tt |} ->
    body x s1 = {| state := s2; events := ev2; value := inl e |} ->
    for_each (pre ++ x :: post) body s
    = {| state := s2; events := ev1 ++ ev2; value := inl e |}.
Proof.
  induction pre as [|a pre IH]; intros s s1 ev1 s2 ev2 e Hpre Hx; cbn in *.
  - injection Hpre as <- <-. unfold bind. rewrite Hx. reflexivity.
  - unfold bind in Hpre |- *.
    destruct (body a s) as [sa eva [ea|[]]]; cbn in *; [discriminate|].
    destruct (for_each pre body sa) as [sb evb vb] eqn:Eb; cbn in *.
    injection Hpre as Hs Hev Hv. subst sb ev1 vb.
    rewrite (IH sa s1 evb s2 ev2 e Eb Hx). cbn.
    now rewrite app_assoc.
Qed.

(** A loop that ends with an exception within a prefix of its list has
    the run of the loop over that prefix. *)
Lemma for_each_app_raises {A} (body : A -> M W unit) (pre rest : list A) :
  forall s e,
    value (for_each pre body s) = inl e ->
    for_each (pre ++ rest) body s = for_each pre body s.
Proof.
  induction pre as [|a pre IH]; intros s e; cbn; [discriminate|].
  unfold bind. destruct (body a s) as [sa eva [ea|[]]]; cbn; [reflexivity|].
  intros H. rewrite (IH sa e); [reflexivity|].
  destruct (for_each pre body sa); exact H.
Qed.

(** A loop that gets through a prefix of its list goes on with the
    rest. *)
Lemma for_each_app_returns {A} (body : A -> M W unit) (pre rest : list A) :
  forall s,
    value (for_each pre body s) = inr tt ->
    let s1 := state (for_each pre body s) in
    for_each (pre ++ rest) body s
    = {| state := state (for_each rest body s1);
         events := events (for_each pre body s)
                   ++ events (for_each rest body s1);
         value := value (for_each rest body s1) |}.
Proof.
  induction pre as [|a pre IH]; intros s; cbn.
  - intros _. apply result_eta.
  - unfold bind. destruct (body a s) as [sa eva [ea|[]]]; cbn;
      [discriminate|].
    intros H.
    assert (H' : value (for_each pre body sa) = inr tt)
      by (destruct (for_each pre body sa); exact H).
    rewrite (IH sa H'). cbn.
    destruct (for_each pre body sa); cbn. now rewrite app_assoc.
Qed.

Lemma for_each_cons_events {A} (body : A -> M W unit) (x : A) (xs : list A)
      (s : State W) :
  exists evs, events (for_each (x :: xs) body s) = events (body x s) ++ evs.
Proof.
  cbn. unfold bind. destruct (body x s) as [sx evx [ex|[]]]; cbn.
  - exists []. now rewrite app_nil_r.
  - eexists. reflexivity.
Qed.

Lemma atomic_raises_db {A} (m : M W A) (s s' : State W) evs e :
  atomic m s = {| state := s'; events := evs; value := inl e |} ->
  db s' = db s.
Proof.
  intros H. pose proof (atomic_rolls_back m s e) as Hdb.
  rewrite H in Hdb. exact (Hdb eq_refl).
Qed.

Lemma NoDup_app_disjoint {A} (l l' : list A) (a : A) :
  NoDup (l ++ l') -> In a l -> In a l' -> False.
Proof.
  induction l as [|x l IH]; cbn; [tauto|].
  intros Hnd [->|Hin] Hin'; inversion Hnd as [|? ? Hnotin Hnd']; subst.
  - apply Hnotin, in_or_app. now right.
  - now apply IH.
Qed.

(** With unique ids, the candidates the loop of the status cycle has
    not reached are in the store as they were, and are candidates
    still. *)
Lemma status_loop_leaves_rest (s : State W) (pre rest : list Build.t)
      (b : Build.t) :
  unique_ids (db s) ->
  candidates_for_status (db s) = pre ++ rest ->
  In b rest ->
  In b (candidates_for_status
          (db (state (for_each pre atomic_check_build_status s)))).
Proof.
  intros Hu Hc Hb.
  assert (Hsel : forall c, In c (pre ++ rest) ->
                           In c (builds (db s)) /\ building c = true).
  { intros c Hin. rewrite <- Hc in Hin. now apply filter_In in Hin. }
  destruct (Hsel b (in_or_app _ _ _ (or_intror Hb))) as [Hin Hbuilding].
  apply filter_In. split; [|exact Hbuilding].
  assert (Ht : touched (fun r => exists c st,
                            In c pre /\ r = Build.set_status st c)
                       (db s)
                       (db (state (for_each pre atomic_check_build_status s)))).
  { apply (keeps_for_each _ (touched_refl _) (touched_trans _)).
    intros c Hcin s'.
    eapply touched_mono; [|apply atomic_check_build_status_touches].
    intros r [st ->]. eauto. }
  destruct (touched_In _ _ _ _ Ht Hin)
    as [H|[r' [[c [st [Hcin ->]]] Hid]]]; [exact H|].
  exfalso. cbn in Hid.
  destruct (Hsel c (in_or_app _ _ _ (or_introl Hcin))) as [Hc_in _].
  assert (c = b) by (apply (unique_id_In (db s)); auto). subst c.
  apply (NoDup_app_disjoint pre rest b); auto.
  rewrite <- Hc. apply NoDup_filter, (NoDup_map_inv Build.id). exact Hu.
Qed.

Lemma candidates_for_signing_NoDup (d : Db) :
  unique_ids d -> NoDup (candidates_for_signing d).
Proof.
  intros Hu. unfold candidates_for_signing.
  apply (NoDup_map_inv fst). rewrite map_map. cbn. rewrite map_id.
  apply NoDup_filter, (NoDup_map_inv Build.id). exact Hu.
Qed.

(** The loop of the signing cycle never writes to the package table. *)
Lemma signing_loop_packages (s : State W)
      (cs : list (Build.t * option Package.t)) :
  packages
    (db (state (for_each cs
                  (fun build =>
                     atomic_sign_unsigned_builds (fst build) (snd build)) s)))
  = packages (db s).
Proof.
  apply (keeps_for_each (fun d d' => packages d' = packages d)).
  - reflexivity.
  - intros d1 d2 d3 H12 H23. now rewrite H23.
  - intros c _. apply keeps_atomic_sign_unsigned_builds.
    + reflexivity.
    + intros d1 d2 d3 H12 H23. now rewrite H23.
    + intros s'. reflexivity.
Qed.

(** With unique ids, the candidates the loop of the signing cycle has
    not reached are in the store as they were, and are candidates
    still, with the same package. *)
Lemma signing_loop_leaves_rest (s : State W)
      (pre rest : list (Build.t * option Package.t))
      (c : Build.t * option Package.t) :
  unique_ids (db s) ->
  candidates_for_signing (db s) = pre ++ rest ->
  In c rest ->
  In c (candidates_for_signing
          (db (state (for_each pre
                        (fun build =>
                           atomic_sign_unsigned_builds (fst build) (snd build))
                        s)))).
Proof.
  intros Hu Hc Hrest.
  set (s1 := state (for_each pre _ s)).
  assert (Hsel : forall x, In x (pre ++ rest) ->
                           x = prefetch_package (db s) (fst x)
                           /\ In (fst x) (builds (db s))
                           /\ unsigned_succeeded (fst x) = true).
  { intros x Hin. rewrite <- Hc in Hin. unfold candidates_for_signing in Hin.
    apply in_map_iff in Hin. destruct Hin as [b [<- Hb]]. cbn.
    apply filter_In in Hb. tauto. }
  destruct (Hsel c (in_or_app _ _ _ (or_intror Hrest)))
    as [Ec [Hin Hcand]].
  assert (Ht : touched (fun r => exists x, In x pre
                                           /\ r = Build.set_signed true (fst x))
                       (db s) (db s1)).
  { apply (keeps_for_each _ (touched_refl _) (touched_trans _)).
    intros x Hx s'.
    eapply touched_mono; [|apply atomic_sign_unsigned_builds_touches].
    intros r [-> _]. eauto. }
  assert (Hrow : In (fst c) (builds (db s1))).
  { destruct (touched_In _ _ _ _ Ht Hin)
      as [H|[r' [[x [Hx ->]] Hid]]]; [exact H|].
    exfalso. cbn in Hid.
    destruct (Hsel x (in_or_app _ _ _ (or_introl Hx))) as [Ex [Hx_in _]].
    assert (E : fst x = fst c) by (apply (unique_id_In (db s)); auto).
    assert (x = c) by (rewrite Ex, Ec, E; reflexivity). subst x.
    apply (NoDup_app_disjoint pre rest c); auto.
    rewrite <- Hc. now apply candidates_for_signing_NoDup. }
  unfold candidates_for_signing. apply in_map_iff. exists (fst c). split.
  - rewrite Ec at 2. unfold prefetch_package. subst s1.
    now rewrite signing_loop_packages.
  - apply filter_In. now split.
Qed.

Lemma candidates_for_signing_builds (d : Db) :
  map fst (candidates_for_signing d) = filter unsigned_succeeded (builds d).
Proof.
  unfold candidates_for_signing. rewrite map_map. cbn. apply map_id.
Qed.

(** With unique ids, a turn of the signing cycle leaves the candidates
    of the status cycle in the store as they are. *)
Lemma signing_cycle_keeps_building (s : State W) (b : Build.t) :
  unique_ids (db s) ->
  In b (candidates_for_status (db s)) ->
  unique_ids (db (state (sign_unsigned_builds_cycle s)))
  /\ In b (candidates_for_status (db (state (sign_unsigned_builds_cycle s)))).
Proof.
  intros Hu Hb. pose proof (sign_unsigned_builds_cycle_touches s) as Ht.
  split; [unfold unique_ids; now rewrite (touched_ids _ _ _ Ht)|].
  apply filter_In in Hb. destruct Hb as [Hin Hbuilding].
  apply filter_In. split; [|exact Hbuilding].
  destruct (touched_In _ _ _ _ Ht Hin)
    as [H|[r' [[c [Hc [_ ->]]] Hid]]]; [exact H|].
  exfalso. cbn in Hid. apply filter_In in Hc. destruct Hc as [Hc_in Hc].
  assert (c = b) by (apply (unique_id_In (db s)); auto). subst c.
  apply unsigned_succeeded_spec in Hc. apply building_spec in Hbuilding.
  destruct Hc as [_ Hc]. congruence.
Qed.

(** With unique ids, a turn of the status cycle leaves the builds the
    signing cycle selects in the store as they are. *)
Lemma status_cycle_keeps_unsigned_succeeded (s : State W) (b : Build.t) :
  unique_ids (db s) ->
  In b (filter unsigned_succeeded (builds (db s))) ->
  unique_ids (db (state (check_build_status_cycle s)))
  /\ In b (filter unsigned_succeeded
                  (builds (db (state (check_build_status_cycle s))))).
Proof.
  intros Hu Hb. pose proof (check_build_status_cycle_touches s) as Ht.
  split; [unfold unique_ids; now rewrite (touched_ids _ _ _ Ht)|].
  apply filter_In in Hb. destruct Hb as [Hin Hcand].
  apply filter_In. split; [|exact Hcand].
  destruct (touched_In _ _ _ _ Ht Hin)
    as [H|[r' [[c [st [Hc ->]]] Hid]]]; [exact H|].
  exfalso. cbn in Hid. apply filter_In in Hc. destruct Hc as [Hc_in Hc].
  assert (c = b) by (apply (unique_id_In (db s)); auto). subst c.
  apply unsigned_succeeded_spec in Hcand. apply building_spec in Hc.
  destruct Hcand as [_ Hcand]. congruence.
Qed.

(** The same through any number of turns of the other periodic task. *)
Lemma turns_keep (cycle : M W unit) (I : Db -> Prop) :
  (forall s, I (db s) -> I (db (state (cycle s)))) ->
  forall n s, I (db s) -> I (db (state (turns n cycle s))).
Proof.
  intros Hcycle. induction n as [|n IH]; intros s Hs; cbn; [exact Hs|].
  unfold bind. specialize (Hcycle s Hs).
  destruct (cycle s) as [s1 ev1 [e|[]]]; cbn in *; [exact Hcycle|].
  now apply IH.
Qed.

Lemma signing_task_keeps_building (n : nat) (s : State W) (b : Build.t) :
  unique_ids (db s) ->
  In b (candidates_for_status (db s)) ->
  In b (candidates_for_status (db (state (sign_unsigned_builds n s)))).
Proof.
  intros Hu Hb. unfold sign_unsigned_builds.
  destruct (negb _); [|exact Hb].
  apply (turns_keep sign_unsigned_builds_cycle
           (fun d => unique_ids d /\ In b (candidates_for_status d)));
    [|now split].
  intros s0 [Hu0 Hb0]. now apply signing_cycle_keeps_building.
Qed.

Lemma status_task_keeps_unsigned_succeeded (n : nat) (s : State W)
      (b : Build.t) :
  unique_ids (db s) ->
  In b (map fst (candidates_for_signing (db s))) ->
  In b (map fst (candidates_for_signing (db (state (check_build_status n s))))).
Proof.
  intros Hu Hb. rewrite candidates_for_signing_builds in Hb |- *.
  unfold check_build_status.
  apply (turns_keep check_build_status_cycle
           (fun d => unique_ids d
                     /\ In b (filter unsigned_succeeded (builds d))));
    [|now split].
  intros s0 [Hu0 Hb0]. now apply status_cycle_keeps_unsigned_succeeded.
Qed.

(** C2, as the code has it.  In either cycle the handler is around the
    whole loop over the candidates.  When a candidate raises, the
    candidates before it have been processed, its own transaction is
    rolled back, and the candidates after it are not processed in this
    cycle.  An exception that is an instance of [Exception] is logged
    once and the cycle goes to sleep; any other exception is not caught:
    nothing is logged, the cycle does not sleep, and the exception
    leaves the periodic task.  With unique build ids, the candidate that
    raised and the candidates after it are in the store the cycle leaves
    as they were, and are selected again by the same query on that store
    and on the store after any number of turns of the other periodic
    task: the next cycle's query selects them. *)
Theorem cycle_stops_at_first_failing_build :
  (forall (s : State W) pre build post s1 ev1 s2 ev2 e,
      candidates_for_status (db s) = pre ++ build :: post ->
      for_each pre atomic_check_build_status s
      = {| state := s1; events := ev1; value := inr tt |} ->
      atomic_check_build_status build s1
      = {| state := s2; events := ev2; value := inl e |} ->
      let cycle := check_build_status_cycle s in
      (is_Exception e = true ->
       cycle
       = {| state := {| world := asyncio_sleep 300 (world s2); db := db s1 |};
            events :=
              LogDebug "[*] Running periodic task: check_build_status"
              :: ev1 ++ ev2 ++ [LogError e; Slept 300];
            value := inr tt |})
      /\ (is_Exception e = false ->
          cycle
          = {| state := {| world := world s2; db := db s1 |};
               events :=
                 LogDebug "[*] Running periodic task: check_build_status"
                 :: ev1 ++ ev2;
               value := inl e |})
      /\ (e = CancelledError \/ e = KeyboardInterrupt ->
          value cycle = inl e)
      /\ (unique_ids (db s) ->
          forall b,
            In b (build :: post) ->
            In b (candidates_for_status (db (state cycle)))
            /\ forall n,
                In b (candidates_for_status
                        (db (state (sign_unsigned_builds n (state cycle)))))))
  /\ (forall (s : State W) pre build post s1 ev1 s2 ev2 e,
         candidates_for_signing (db s) = pre ++ build :: post ->
         for_each pre
           (fun build => atomic_sign_unsigned_builds (fst build) (snd build))
           s
         = {| state := s1; events := ev1; value := inr tt |} ->
         atomic_sign_unsigned_builds (fst build) (snd build) s1
         = {| state := s2; events := ev2; value := inl e |} ->
         let cycle := sign_unsigned_builds_cycle s in
         (is_Exception e = true ->
          cycle
          = {| state :=
                 {| world := asyncio_sleep 300 (world s2); db := db s1 |};
               events :=
                 LogDebug "[*] Running periodic task: sign_unsigned_builds"
                 :: ev1 ++ ev2 ++ [LogError e; Slept 300];
               value := inr tt |})
         /\ (is_Exception e = false ->
             cycle
             = {| state := {| world := world s2; db := db s1 |};
                  events :=
                    LogDebug "[*] Running periodic task: sign_unsigned_builds"
                    :: ev1 ++ ev2;
                  value := inl e |})
         /\ (e = CancelledError \/ e = KeyboardInterrupt ->
             value cycle = inl e)
         /\ (unique_ids (db s) ->
             forall b,
               In b (build :: post) ->
               In b (candidates_for_signing (db (state cycle)))
               /\ forall n,
                   In (fst b)
                      (map fst
                         (candidates_for_signing
                            (db (state (check_build_status
                                          n (state cycle)))))))).
Proof.
  split; intros s pre build post s1 ev1 s2 ev2 e Hc Hpre Hb cycle.
  - pose proof (atomic_raises_db _ _ _ _ _ Hb) as Hdb.
    pose proof (for_each_stops _ pre post build _ _ _ _ _ _ Hpre Hb) as H.
    assert (Hrun : cycle
                   = if is_Exception e
                     then {| state := {| world := asyncio_sleep 300 (world s2);
                                         db := db s1 |};
                             events :=
                               LogDebug
                                 "[*] Running periodic task: check_build_status"
                               :: ev1 ++ ev2 ++ [LogError e; Slept 300];
                             value := inr tt |}
                     else {| state := {| world := world s2; db := db s1 |};
                             events :=
                               LogDebug
                                 "[*] Running periodic task: check_build_status"
                               :: ev1 ++ ev2;
                             value := inl e |}).
    { subst cycle. unfold check_build_status_cycle.
      rewrite cycle_run, status_loop_run, Hc, H. cbn.
      destruct s2 as [w2 d2]; cbn in Hdb; subst d2.
      destruct (is_Exception e); rewrite <- ?app_assoc; reflexivity. }
    split; [intros He; rewrite Hrun, He; reflexivity|].
    split; [intros He; rewrite Hrun, He; reflexivity|].
    split; [intros [->| ->]; rewrite Hrun; reflexivity|].
    intros Hu b Hin.
    assert (Hdb1 : db (state cycle) = db s1)
      by (rewrite Hrun; destruct (is_Exception e); reflexivity).
    assert (Hu1 : unique_ids (db (state cycle))).
    { pose proof (check_build_status_cycle_touches s) as Ht.
      unfold cycle, unique_ids. now rewrite (touched_ids _ _ _ Ht). }
    assert (Hb1 : In b (candidates_for_status (db (state cycle)))).
    { rewrite Hdb1.
      replace s1 with (state (for_each pre atomic_check_build_status s))
        by (rewrite Hpre; reflexivity).
      now apply (status_loop_leaves_rest s pre (build :: post)). }
    split; [exact Hb1|]. intros n.
    now apply signing_task_keeps_building.
  - pose proof (atomic_raises_db _ _ _ _ _ Hb) as Hdb.
    pose proof (for_each_stops
                  (fun build =>
                     atomic_sign_unsigned_builds (fst build) (snd build))
                  pre post build _ _ _ _ _ _ Hpre Hb) as H.
    assert (Hrun : cycle
                   = if is_Exception e
                     then {| state := {| world := asyncio_sleep 300 (world s2);
                                         db := db s1 |};
                             events :=
                               LogDebug
                                 "[*] Running periodic task: sign_unsigned_builds"
                               :: ev1 ++ ev2 ++ [LogError e; Slept 300];
                             value := inr tt |}
                     else {| state := {| world := world s2; db := db s1 |};
                             events :=
                               LogDebug
                                 "[*] Running periodic task: sign_unsigned_builds"
                               :: ev1 ++ ev2;
                             value := inl e |}).
    { subst cycle. unfold sign_unsigned_builds_cycle.
      rewrite cycle_run, signing_loop_run, Hc, H. cbn.
      destruct s2 as [w2 d2]; cbn in Hdb; subst d2.
      destruct (is_Exception e); rewrite <- ?app_assoc; reflexivity. }
    split; [intros He; rewrite Hrun, He; reflexivity|].
    split; [intros He; rewrite Hrun, He; reflexivity|].
    split; [intros [->| ->]; rewrite Hrun; reflexivity|].
    intros Hu b Hin.
    assert (Hdb1 : db (state cycle) = db s1)
      by (rewrite Hrun; destruct (is_Exception e); reflexivity).
    assert (Hu1 : unique_ids (db (state cycle))).
    { pose proof (sign_unsigned_builds_cycle_touches s) as Ht.
      unfold cycle, unique_ids. now rewrite (touched_ids _ _ _ Ht). }
    assert (Hb1 : In b (candidates_for_signing (db (state cycle)))).
    { rewrite Hdb1.
      replace s1
        with (state (for_each pre
                       (fun build =>
                          atomic_sign_unsigned_builds (fst build) (snd build))
                       s))
        by (rewrite Hpre; reflexivity).
      now apply (signing_loop_leaves_rest s pre (build :: post)). }
    split; [exact Hb1|]. intros n.
    apply status_task_keeps_unsigned_succeeded; [exact Hu1|now apply in_map].
Qed.

(** C8, as the code has it.  When the signer raises for an artifact
    during a run of the coordinator, the run ends with that exception;
    the build was not saved, so it is not marked signed; the transaction
    is rolled back, so the store is as it was before the run; and the
    build, if it was selected by the signing cycle's query, is selected
    again by the same query after the run.  Whether a later signing
    cycle that selects the build runs the coordinator on it depends on
    the candidates before it in the query's result: when the loop gets
    through them, the run of the coordinator on the build follows; when
    one of them raises, the cycle has the effects of the loop over those
    candidates and of its handler only, and the build, with unique build
    ids, is a candidate still. *)
Theorem signer_failure_leaves_build_unsigned :
  forall (build : Build.t) (package : option Package.t) (s : State W)
         (nvr_arch : string) (e : exn),
    let run := atomic_sign_unsigned_builds build package s in
    In (Called (sign_koji_package nvr_arch) (Some e)) (events run) ->
    value run = inl e
    /\ saved_builds (events run) = []
    /\ db (state run) = db s
    /\ (forall bs bs',
           value (Build_filter_unsigned_succeeded s) = inr bs ->
           value (Build_filter_unsigned_succeeded (state run)) = inr bs' ->
           bs' = bs
           /\ (In (build, package) bs -> In (build, package) bs'))
    /\ (forall (t : State W) pre post,
           candidates_for_signing (db t) = pre ++ (build, package) :: post ->
           let loop :=
             for_each pre
               (fun build =>
                  atomic_sign_unsigned_builds (fst build) (snd build)) t in
           let cycle := sign_unsigned_builds_cycle t in
           (value loop = inr tt ->
            exists evs,
              events cycle
              = LogDebug "[*] Running periodic task: sign_unsigned_builds"
                :: events loop
                ++ events (atomic_sign_unsigned_builds build package
                                                       (state loop))
                ++ evs)
           /\ (forall e',
                  value loop = inl e' ->
                  events cycle
                  = LogDebug "[*] Running periodic task: sign_unsigned_builds"
                    :: events loop
                    ++ (if is_Exception e'
                        then [LogError e'; Slept 300]
                        else [])
                  /\ (unique_ids (db t) ->
                      In (build, package)
                         (candidates_for_signing (db (state cycle)))))).
Proof.
  intros build package s nvr_arch e run Hin.
  assert (Hval : value run = inl e).
  { exact (fails_fast_atomic_sign_unsigned_builds build package s _ _ Hin). }
  assert (Hdb : db (state run) = db s).
  { exact (atomic_rolls_back _ _ _ Hval). }
  split; [exact Hval|].
  split; [exact (coordinator_saves_last _ _ _ _ Hval)|].
  split; [exact Hdb|].
  split.
  { intros bs bs' Hbs Hbs'. cbn in *. split; [congruence|].
    intros Hb. congruence. }
  intros t pre post Hc loop cycle.
  subst cycle. unfold sign_unsigned_builds_cycle.
  rewrite cycle_events, cycle_db, signing_loop_run, Hc.
  set (body := fun build : Build.t * option Package.t =>
                 atomic_sign_unsigned_builds (fst build) (snd build)) in *.
  split.
  - intros Hret.
    rewrite (for_each_app_returns body pre _ t Hret). fold loop.
    cbn [events value].
    destruct (for_each_cons_events body (build, package) post (state loop))
      as [evs Hevs].
    rewrite Hevs. eexists. rewrite <- !app_assoc. reflexivity.
  - intros e' Hraise.
    rewrite (for_each_app_raises body pre _ t e' Hraise). fold loop.
    rewrite Hraise. split; [reflexivity|].
    intros Hu.
    apply (signing_loop_leaves_rest t pre ((build, package) :: post));
      auto. now left.
Qed.

End Cycles.

(** ** The tagging decision *)

Section Tagging.

Context {W : Type} {collab : Collaborators W}.

(** The scan clears [should_tag] when the history lists the release
    tag, and otherwise leaves it as it was. *)
Lemma scan_tag_listing_spec (build_history : BuildHistory.t) (should_tag : bool) :
  scan_tag_listing build_history should_tag
  = should_tag && negb (tag_listed tags_compose build_history).
Proof.
  unfold scan_tag_listing, tag_listed.
  destruct (BuildHistory.tag_listing build_history) as [l|];
    [|now rewrite andb_true_r].
  revert should_tag. induction l as [|x l IH]; intros should_tag; cbn.
  - now rewrite andb_true_r.
  - rewrite IH. destruct (_ =? _)%string; cbn; [|reflexivity].
    now rewrite andb_false_r.
Qed.

Lemma sign_rpms_value (build_task : BuildTask.t) (should_tag : bool)
      (s : State W) v :
  value ((build_rpms <- call (listBuildRPMs (BuildTask.build_id build_task)) ;;
          for_each build_rpms for_rpm ;;
          ret should_tag) s) = inr v ->
  v = should_tag.
Proof.
  unfold bind, ret.
  destruct (call _ s) as [s1 ev1 [e1|rpms]]; cbn; [discriminate|].
  destruct (for_each rpms for_rpm s1) as [s2 ev2 [e2|[]]]; cbn;
    [discriminate|]. congruence.
Qed.

(** One turn of the loop over the build tasks, when the history query
    returns: the tag operation is issued exactly when [should_tag] is
    still true after the scan, and that value goes on to the next
    turn. *)
Lemma for_build_task_tags (should_tag : bool) (build_task : BuildTask.t)
      (s : State W) w (build_history : BuildHistory.t) :
  session (queryHistory (BuildTask.build_id build_task)) (world s)
  = (w, inr build_history) ->
  let run := for_build_task should_tag build_task s in
  let should_tag' :=
    should_tag && negb (tag_listed tags_compose build_history) in
  tagBuild_calls (events run)
  = (if should_tag' then [(tags_compose, BuildTask.nvr build_task)] else [])
  /\ (forall v, value run = inr v -> v = should_tag').
Proof.
  intros Hq run should_tag'. subst run. unfold for_build_task.
  rewrite (bind_returns _ _ _ _ _ _ (call_returns _ _ _ _ Hq)).
  cbn [events value]. rewrite scan_tag_listing_spec. fold should_tag'.
  set (s1 := {| world := w; db := db s |}).
  pose proof (fun s => tagBuild_calls_quiet _
                (quiet_sign_rpms is_tagBuild is_tagBuild_call
                   build_task should_tag' s)) as Hrest.
  pose proof (sign_rpms_value build_task should_tag') as Hval.
  destruct should_tag'; cbv iota.
  - destruct (session (tagBuild tags_compose (BuildTask.nvr build_task))
                      (world s1)) as [w2 [e2|[]]] eqn:E2.
    + rewrite (bind_raises _ _ _ _ _ _ (call_raises _ _ _ _ E2)). cbn.
      split; [reflexivity|discriminate].
    + rewrite (bind_returns _ _ _ _ _ _ (call_returns _ _ _ _ E2)). cbn.
      rewrite Hrest. split; [reflexivity|apply Hval].
  - unfold bind at 1. cbn. rewrite Hrest. split; [reflexivity|apply Hval].
Qed.

(** Once [should_tag] is false, no turn of the loop tags and none sets
    it back. *)
Lemma for_each_with_false (build_tasks : list BuildTask.t) :
  forall s : State W,
    let run := for_each_with build_tasks false for_build_task s in
    tagBuild_calls (events run) = []
    /\ (forall v, value run = inr v -> v = false).
Proof.
  induction build_tasks as [|t ts IH]; intros s; cbn.
  - split; [reflexivity|]. intros v H. now injection H as <-.
  - unfold bind.
    pose proof (quiet_for_build_task is_tagBuild is_tagBuild_call
                  false t (or_introl eq_refl) s) as Hq.
    apply tagBuild_calls_quiet in Hq.
    assert (Hv : forall v, value (for_build_task false t s) = inr v ->
                           v = false).
    { unfold for_build_task, bind.
      destruct (call (queryHistory _) s) as [s1 ev1 [e1|h]]; cbn;
        [discriminate|].
      assert (E : scan_tag_listing h false = false)
        by now rewrite scan_tag_listing_spec.
      rewrite E. cbn. intros v Hv.
      now apply (sign_rpms_value t false s1). }
    destruct (for_build_task false t s) as [s1 ev1 [e1|v1]]; cbn in *.
    + split; [exact Hq|discriminate].
    + rewrite (Hv v1 eq_refl). rewrite tagBuild_calls_app, Hq.
      apply IH.
Qed.

(** C7, as the code has it.  [should_tag] is set to true once, before
    the loop over the build tasks, and is handed from one task to the
    next.  For each task, after the scan of its history it is false
    when it came in false or the history lists the release tag; the tag
    operation for the task's NVR is issued exactly when it is still
    true then; so a task whose own history lists the tag is never
    tagged again. *)
Theorem tag_issued_iff_should_tag_still_true :
  (forall (should_tag : bool) (build_task : BuildTask.t) (s : State W) w
          (build_history : BuildHistory.t),
      session (queryHistory (BuildTask.build_id build_task)) (world s)
      = (w, inr build_history) ->
      let run := for_build_task should_tag build_task s in
      let should_tag' :=
        should_tag && negb (tag_listed tags_compose build_history) in
      tagBuild_calls (events run)
      = (if should_tag'
         then [(tags_compose, BuildTask.nvr build_task)]
         else [])
      /\ (forall v, value run = inr v -> v = should_tag')
      /\ (tag_listed tags_compose build_history = true ->
          tagBuild_calls (events run) = []))
  /\ (forall (build : Build.t) (package : Package.t) (s : State W) w1 w2
             (build_tasks : list BuildTask.t),
         truthy (Build.koji_id build) = true ->
         session (packageListAdd tags_compose (Package.name package)
                                 "distrobuild") (world s)
         = (w1, inr tt) ->
         session (listBuilds (int_of (Build.koji_id build))) w1
         = (w2, inr build_tasks) ->
         tagBuild_calls
           (events (atomic_sign_unsigned_builds build (Some package) s))
         = tagBuild_calls
             (events (for_each_with build_tasks true for_build_task
                        {| world := w2; db := db s |}))).
Proof.
  split.
  - intros should_tag build_task s w build_history Hq run should_tag'.
    destruct (for_build_task_tags should_tag build_task s w build_history Hq)
      as [Hcalls Hval].
    fold run should_tag' in Hcalls, Hval. repeat split; auto.
    intros Hlisted. rewrite Hcalls. subst should_tag'. rewrite Hlisted.
    now rewrite andb_false_r.
  - intros build package s w1 w2 build_tasks Hk Hadd Hlist.
    unfold atomic_sign_unsigned_builds. rewrite Hk, atomic_events.
    rewrite (bind_returns _ _ s s [] (Package.name package) eq_refl).
    cbv beta. cbn [events app].
    rewrite (bind_returns _ _ _ _ _ _ (call_returns _ _ _ _ Hadd)).
    cbv beta. cbn [events app].
    rewrite (bind_returns _ _ _ _ _ _
               (call_returns _ {| world := w1; db := db s |} _ _ Hlist)).
    cbv beta. cbn [events app tagBuild_calls db].
    unfold bind, Build_save.
    destruct (for_each_with build_tasks true for_build_task _)
      as [s3 ev3 [e3|v3]]; cbn [events value]; [reflexivity|].
    rewrite tagBuild_calls_app. cbn. now rewrite app_nil_r.
Qed.

(** C10. [should_tag] is shared by the turns of the loop over the build
    tasks and is never set back to true: the scan of a history leaves
    false at false; from false on, no later task is tagged, whatever
    its own history; so once the history of a task lists the release
    tag, neither that task nor any later task of the same build is
    tagged in this run. *)
Theorem should_tag_is_never_reset :
  (forall build_history : BuildHistory.t,
      scan_tag_listing build_history false = false)
  /\ (forall (build_tasks : list BuildTask.t) (s : State W),
         let run := for_each_with build_tasks false for_build_task s in
         tagBuild_calls (events run) = []
         /\ (forall v, value run = inr v -> v = false))
  /\ (forall (should_tag : bool) (build_task : BuildTask.t)
             (later : list BuildTask.t) (s : State W) w
             (build_history : BuildHistory.t),
         session (queryHistory (BuildTask.build_id build_task)) (world s)
         = (w, inr build_history) ->
         tag_listed tags_compose build_history = true ->
         let run :=
           for_each_with (build_task :: later) should_tag for_build_task s in
         tagBuild_calls (events run) = []
         /\ (forall v, value run = inr v -> v = false)).
Proof.
  repeat apply conj.
  - intros h. now rewrite scan_tag_listing_spec.
  - intros build_tasks s. apply for_each_with_false.
  - intros should_tag build_task later s w h Hq Hlisted. cbn. unfold bind.
    destruct (for_build_task_tags should_tag build_task s w h Hq)
      as [Hcalls Hval].
    rewrite Hlisted, andb_false_r in Hcalls, Hval.
    destruct (for_build_task should_tag build_task s) as [s1 ev1 [e1|v1]];
      cbn in *.
    + split; [exact Hcalls|discriminate].
    + rewrite (Hval v1 eq_refl), tagBuild_calls_app, Hcalls.
      apply for_each_with_false.
Qed.

End Tagging.

(** ** Builds the coordinator passes over, artifacts it signs again *)

Section Coordinator.

Context {W : Type} {collab : Collaborators W}.

Lemma touched_unique_ids (P : Build.t -> Prop) (d d' : Db) :
  touched P d d' -> unique_ids d -> unique_ids d'.
Proof.
  intros H. unfold unique_ids. now rewrite (touched_ids P d d' H).
Qed.

(** A succeeded, unsigned build without a task id keeps its row, as it
    is, through one turn of either periodic task. *)
Lemma turn_keeps_module_build (build : Build.t) (t : PeriodicTask)
      (s : State W) :
  truthy (Build.koji_id build) = false ->
  unsigned_succeeded build = true ->
  unique_ids (db s) /\ In build (builds (db s)) ->
  unique_ids (db (state (turn t s)))
  /\ In build (builds (db (state (turn t s)))).
Proof.
  intros Hk Hb [Hu Hin].
  apply unsigned_succeeded_spec in Hb. destruct Hb as [_ Hst].
  destruct t; cbn.
  - pose proof (check_build_status_cycle_touches s) as Ht.
    split; [exact (touched_unique_ids _ _ _ Ht Hu)|].
    destruct (touched_In _ _ _ build Ht Hin) as [H|[r [[c [st [Hc ->]]] Hid]]];
      [exact H|exfalso].
    unfold candidates_for_status in Hc. apply filter_In in Hc.
    destruct Hc as [Hcin Hc]. apply building_spec in Hc. cbn in Hid.
    rewrite (unique_id_In _ _ _ Hu Hcin Hin Hid) in Hc. congruence.
  - destruct (negb _); [|now split].
    pose proof (sign_unsigned_builds_cycle_touches s) as Ht.
    split; [exact (touched_unique_ids _ _ _ Ht Hu)|].
    destruct (touched_In _ _ _ build Ht Hin) as [H|[r [[c [Hc [Hkc ->]]] Hid]]];
      [exact H|exfalso].
    apply filter_In in Hc. destruct Hc as [Hcin _]. cbn in Hid.
    rewrite (unique_id_In _ _ _ Hu Hcin Hin Hid) in Hkc. congruence.
Qed.

Lemma run_schedule_keeps_module_build (build : Build.t)
      (ts : list PeriodicTask) :
  truthy (Build.koji_id build) = false ->
  unsigned_succeeded build = true ->
  forall s : State W,
    unique_ids (db s) /\ In build (builds (db s)) ->
    unique_ids (db (state (run_schedule ts s)))
    /\ In build (builds (db (state (run_schedule ts s)))).
Proof.
  intros Hk Hb. induction ts as [|t ts IH]; intros s H; cbn; [exact H|].
  unfold bind. pose proof (turn_keeps_module_build build t s Hk Hb H) as Ht.
  destruct (turn t s) as [s1 ev1 [e|[]]]; cbn in *; [exact Ht|].
  apply IH, Ht.
Qed.

(** C9. On a build whose [koji_id] is not set (or is zero) the
    coordinator does nothing at all: no remote call, no write, the same
    state.  So a succeeded, unsigned build of the module-build backend
    is never marked signed: after every schedule of turns of the two
    periodic tasks its row is still there, unchanged, and the query of
    the signing cycle selects it again. *)
Theorem module_build_is_never_signed :
  forall (build : Build.t) (package : option Package.t) (s : State W),
    truthy (Build.koji_id build) = false ->
    atomic_sign_unsigned_builds build package s
    = {| state := s; events := []; value := inr tt |}
    /\ (unique_ids (db s) ->
        In build (builds (db s)) ->
        unsigned_succeeded build = true ->
        forall ts : list PeriodicTask,
          let s' := state (run_schedule ts s) in
          In build (builds (db s'))
          /\ (forall bs,
                 value (Build_filter_unsigned_succeeded s') = inr bs ->
                 In (prefetch_package (db s') build) bs)).
Proof.
  intros build package s Hk. split.
  - unfold atomic_sign_unsigned_builds. rewrite Hk. reflexivity.
  - intros Hu Hin Hb ts s'.
    destruct (run_schedule_keeps_module_build build ts Hk Hb s (conj Hu Hin))
      as [_ Hin'].
    fold s' in Hin'. split; [exact Hin'|].
    intros bs Hbs. injection Hbs as <-. unfold candidates_for_signing.
    apply in_map, filter_In. now split.
Qed.

(** The loop over the signatures of an artifact has no effect and no
    result. *)
Lemma for_rpm_sigs_skips (rpm_sigs : list RpmSig.t) (s : State W) :
  for_each rpm_sigs
    (fun rpm_sig =>
       if (RpmSig.sigkey rpm_sig =? sigul_key_id settings)%string
       then continue
       else pass) s
  = {| state := s; events := []; value := inr tt |}.
Proof.
  induction rpm_sigs as [|x l IH]; cbn; [reflexivity|].
  unfold bind. destruct (_ =? _)%string; cbn; rewrite IH; reflexivity.
Qed.

(** Whatever signatures the artifact has, when the signature query
    returns, the signer is invoked for the artifact. *)
Lemma for_rpm_always_signs (rpm : Rpm.t) (s : State W) w
      (rpm_sigs : list RpmSig.t) :
  session (queryRPMSigs (Rpm.id rpm)) (world s) = (w, inr rpm_sigs) ->
  signer_calls (events (for_rpm rpm s))
  = [(Rpm.nvr rpm ++ "." ++ Rpm.arch rpm)%string].
Proof.
  intros Hq. unfold for_rpm.
  rewrite (bind_returns _ _ _ _ _ _ (call_returns _ _ _ _ Hq)). cbv beta.
  rewrite (bind_returns _ _ _ _ _ _ (for_rpm_sigs_skips _ _)). cbv beta.
  cbn [events app signer_calls]. unfold bind, call. cbn.
  destruct (session (sign_koji_package _) w) as [w1 [e1|[]]]; cbn;
    [reflexivity|].
  destruct (session (writeSignedRPM _ _) w1) as [w2 [e2|[]]]; reflexivity.
Qed.

End Coordinator.

(** ** The properties on the concrete inputs *)

Section OnScenario.

Import Scenario.

Ltac holds_of_member :=
  vm_compute; repeat (first [left; reflexivity | right]).

(** C1. Scenario 4 of the specification: task 44 has two artifacts and
    artifact 10 already has a signature under the configured key.  The
    coordinator invokes the signer for both artifacts, artifact 10
    included; and when both artifacts are already signed under the key
    it still invokes the signer for both.  The [continue] of the
    signature check continues the loop over the signatures, not the loop
    over the artifacts. *)
Theorem signer_invoked_for_signed_artifact :
  session (queryRPMSigs 10) hub = (hub, inr [RpmSig.mk "KEY"])
  /\ signed_under (sigul_key_id settings) [RpmSig.mk "KEY"] = true
  /\ signer_calls
       (events (atomic_sign_unsigned_builds build44 (Some bash) initial))
     = ["bash-5.0-1.x86_64"; "bash-5.0-1.src"]
  /\ session (queryRPMSigs 11) hub_all_signed
     = (hub_all_signed, inr [RpmSig.mk "KEY"])
  /\ signer_calls
       (events (atomic_sign_unsigned_builds build44 (Some bash) all_signed))
     = ["bash-5.0-1.x86_64"; "bash-5.0-1.src"].
Proof. repeat split; vm_compute; reflexivity. Qed.

(** C2 fails on the code.  The status cycle selects four builds; the
    second raises; the third and fourth are not processed (no call is
    made for them and the third is still BUILDING) although the third,
    processed, becomes FAILED.  The signing cycle selects four builds;
    the second raises; the third and fourth are not processed. *)
Lemma builds_after_a_failing_build_are_skipped :
  candidates_for_status (db initial) = [build42; build45; build43; build7]
  /\ value (atomic_check_build_status build45 initial) = inl GenericError
  /\ events (check_build_status_cycle initial)
     = [LogDebug "[*] Running periodic task: check_build_status";
        Called (getTaskInfo 42) None;
        SavedBuild (Build.set_status BuildStatus.SUCCEEDED build42);
        SavedPackage (Package.set_last_build (Some 1000) bash);
        Called (getTaskInfo 45) (Some GenericError);
        LogError GenericError;
        Slept 300]
  /\ (forall r, ~ In (Called (getTaskInfo 43) r)
                     (events (check_build_status_cycle initial)))
  /\ In build43 (builds (db (state (check_build_status_cycle initial))))
  /\ In (Build.set_status BuildStatus.FAILED build43)
        (builds (db (state (atomic_check_build_status build43 initial))))
  /\ map fst (candidates_for_signing (db initial))
     = [build8; build46; build44; build47]
  /\ events (sign_unsigned_builds_cycle initial)
     = [LogDebug "[*] Running periodic task: sign_unsigned_builds";
        Called (packageListAdd "dist-compose" "bash" "distrobuild") None;
        Called (listBuilds 46) None;
        Called (queryHistory 2) None;
        Called (tagBuild "dist-compose" "bash-5.0-2") None;
        Called (listBuildRPMs 2) None;
        Called (queryRPMSigs 20) None;
        Called (sign_koji_package "bash-5.0-2.x86_64")
               (Some (Exception "sigul failed"));
        LogError (Exception "sigul failed");
        Slept 300]
  /\ (forall r, ~ In (Called (listBuilds 44) r)
                     (events (sign_unsigned_builds_cycle initial)))
  /\ In build44 (builds (db (state (sign_unsigned_builds_cycle initial))))
  /\ In (Build.set_signed true build44)
        (builds (db (state (atomic_sign_unsigned_builds
                              build44 (Some bash) initial)))).
Proof.
  repeat apply conj; try (vm_compute; reflexivity); try holds_of_member.
  - intros r H. vm_compute in H.
    repeat (destruct H as [H|H]; [discriminate H|]). exact H.
  - intros r H. vm_compute in H.
    repeat (destruct H as [H|H]; [discriminate H|]). exact H.
Qed.

(** C8 fails on the code.  The signing cycle runs the coordinator on
    the build of task 61 and the signer raises.  Before the next signing
    cycle the status cycle makes the build of task 60, which comes
    first in the build table, a candidate for signing.  The next signing
    cycle selects both; the signer raises for the build of task 60, the
    cycle ends there, and the coordinator is not run on the build of
    task 61: it is a candidate still, and was not retried. *)
Lemma failed_build_is_not_retried_in_next_signing_cycle :
  events Retry.first_signing
  = [LogDebug "[*] Running periodic task: sign_unsigned_builds";
     Called (packageListAdd "dist-compose" "bash" "distrobuild") None;
     Called (listBuilds 61) None;
     Called (queryHistory 6) None;
     Called (tagBuild "dist-compose" "bash-5.1-2") None;
     Called (listBuildRPMs 6) None;
     Called (queryRPMSigs 60) None;
     Called (sign_koji_package "bash-5.1-2.x86_64")
            (Some (Exception "sigul failed"));
     LogError (Exception "sigul failed");
     Slept 300]
  /\ map fst (candidates_for_signing (db (state Retry.status_between)))
     = [Build.mk 1 (Some 60) None 8 BuildStatus.SUCCEEDED false;
        Retry.build61]
  /\ events Retry.next_signing
     = [LogDebug "[*] Running periodic task: sign_unsigned_builds";
        Called (packageListAdd "dist-compose" "zsh" "distrobuild") None;
        Called (listBuilds 60) None;
        Called (queryHistory 5) None;
        Called (tagBuild "dist-compose" "zsh-5.8-1") None;
        Called (listBuildRPMs 5) None;
        Called (queryRPMSigs 50) None;
        Called (sign_koji_package "zsh-5.8-1.x86_64")
               (Some (Exception "sigul failed"));
        LogError (Exception "sigul failed");
        Slept 300]
  /\ (forall r, ~ In (Called (listBuilds 61) r) (events Retry.next_signing))
  /\ signer_calls (events Retry.next_signing) = ["zsh-5.8-1.x86_64"]
  /\ In Retry.build61
        (map fst (candidates_for_signing (db (state Retry.next_signing)))).
Proof.
  repeat apply conj; try (vm_compute; reflexivity); try holds_of_member.
  intros r H. vm_compute in H.
  repeat (destruct H as [H|H]; [discriminate H|]). exact H.
Qed.

(** C7 fails on the code.  Task 47 has two builds.  The history of the
    second has no entry for the release tag, in the initial hub and in
    every hub with the same tag history, and the run checks it; yet no
    tag operation is issued for it: [should_tag] came in false from the
    first build, whose history lists the tag. *)
Lemma second_build_of_task_is_not_tagged :
  let run := atomic_sign_unsigned_builds build47 (Some bash) initial in
  session (listBuilds 47) hub = (hub, inr [task47_first; task47_second])
  /\ (forall w, Mock.tag_history w = Mock.tag_history hub ->
                tag_listed tags_compose
                           (Mock.history (BuildTask.build_id task47_second) w)
                = false)
  /\ In (Called (queryHistory (BuildTask.build_id task47_second)) None)
        (events run)
  /\ tagBuild_calls (events run) = []
  /\ value run = inr tt.
Proof.
  repeat apply conj; try (vm_compute; reflexivity); try holds_of_member.
  intros w Hw. unfold Mock.history, tag_listed. rewrite Hw. reflexivity.
Qed.

End OnScenario.

(** ** The theorems at work on the concrete inputs *)

Section Witnesses.

Import Scenario.

Ltac member := vm_compute; repeat (first [left; reflexivity | right]).

Lemma initial_store_unique_ids : unique_ids (db initial).
Proof.
  unfold unique_ids. cbn.
  repeat (constructor; [cbn; lia|]). constructor.
Defined.

(** The status cycle on the initial state: [build42] is processed,
    [build45] raises, and the cycle ends there; [build45], [build43]
    and [build7] are candidates still, also after turns of the signing
    task.  The signing cycle: [build46]
    raises and the cycle ends there; with a signer whose invocation is
    cancelled, the cancellation leaves the cycle. *)
Lemma cycle_stops_at_first_failing_build_witness :
  let s1 := state (atomic_check_build_status build42 initial) in
  let s2 := state (atomic_check_build_status build45 s1) in
  let t1 :=
    state (atomic_sign_unsigned_builds build8 (Some bash) initial) in
  let t2 := state (atomic_sign_unsigned_builds build46 (Some bash) t1) in
  let u2 :=
    state (atomic_sign_unsigned_builds (collab := cancelled_signer)
                                       build46 (Some bash) t1) in
  (check_build_status_cycle initial
   = {| state := {| world := asyncio_sleep 300 (world s2); db := db s1 |};
        events :=
          LogDebug "[*] Running periodic task: check_build_status"
          :: events (atomic_check_build_status build42 initial)
          ++ events (atomic_check_build_status build45 s1)
          ++ [LogError GenericError; Slept 300];
        value := inr tt |}
   /\ forall b,
       In b [build45; build43; build7] ->
       In b (candidates_for_status
               (db (state (check_build_status_cycle initial))))
       /\ forall n,
           In b (candidates_for_status
                   (db (state (sign_unsigned_builds
                                 n (state (check_build_status_cycle
                                             initial)))))))
  /\ (sign_unsigned_builds_cycle initial
      = {| state := {| world := asyncio_sleep 300 (world t2); db := db t1 |};
           events :=
             LogDebug "[*] Running periodic task: sign_unsigned_builds"
             :: events (atomic_sign_unsigned_builds build8 (Some bash) initial)
             ++ events (atomic_sign_unsigned_builds build46 (Some bash) t1)
             ++ [LogError (Exception "sigul failed"); Slept 300];
           value := inr tt |}
      /\ forall b,
          In b [(build46, Some bash); (build44, Some bash);
                (build47, Some bash)] ->
          In b (candidates_for_signing
                  (db (state (sign_unsigned_builds_cycle initial))))
          /\ forall n,
              In (fst b)
                 (map fst
                    (candidates_for_signing
                       (db (state (check_build_status
                                     n (state (sign_unsigned_builds_cycle
                                                 initial))))))))
  /\ sign_unsigned_builds_cycle (collab := cancelled_signer) initial
     = {| state := {| world := world u2; db := db t1 |};
          events :=
            LogDebug "[*] Running periodic task: sign_unsigned_builds"
            :: events (atomic_sign_unsigned_builds build8 (Some bash) initial)
            ++ events (atomic_sign_unsigned_builds
                         (collab := cancelled_signer)
                         build46 (Some bash) t1);
          value := inl CancelledError |}.
Proof.
  intros s1 s2 t1 t2 u2.
  assert (Hstatus_pre :
            for_each [build42] atomic_check_build_status initial
            = {| state := s1;
                 events := events (atomic_check_build_status build42 initial);
                 value := inr tt |}) by (vm_compute; reflexivity).
  assert (Hstatus :
            atomic_check_build_status build45 s1
            = {| state := s2;
                 events := events (atomic_check_build_status build45 s1);
                 value := inl GenericError |}) by (vm_compute; reflexivity).
  assert (Hsigning_pre :
            for_each [(build8, Some bash)]
              (fun build =>
                 atomic_sign_unsigned_builds (fst build) (snd build)) initial
            = {| state := t1;
                 events := events (atomic_sign_unsigned_builds
                                     build8 (Some bash) initial);
                 value := inr tt |}) by (vm_compute; reflexivity).
  assert (Hsigning :
            atomic_sign_unsigned_builds build46 (Some bash) t1
            = {| state := t2;
                 events := events (atomic_sign_unsigned_builds
                                     build46 (Some bash) t1);
                 value := inl (Exception "sigul failed") |})
    by (vm_compute; reflexivity).
  assert (Hcancelled_pre :
            for_each [(build8, Some bash)]
              (fun build =>
                 atomic_sign_unsigned_builds (collab := cancelled_signer)
                                             (fst build) (snd build)) initial
            = {| state := t1;
                 events := events (atomic_sign_unsigned_builds
                                     build8 (Some bash) initial);
                 value := inr tt |}) by (vm_compute; reflexivity).
  assert (Hcancelled :
            atomic_sign_unsigned_builds (collab := cancelled_signer)
                                        build46 (Some bash) t1
            = {| state := u2;
                 events := events (atomic_sign_unsigned_builds
                                     (collab := cancelled_signer)
                                     build46 (Some bash) t1);
                 value := inl CancelledError |}) by (vm_compute; reflexivity).
  destruct (proj1 cycle_stops_at_first_failing_build
              initial [build42] build45 [build43; build7] _ _ _ _ _
              eq_refl Hstatus_pre Hstatus)
    as [Hlogged [_ [_ Hagain]]].
  destruct (proj2 cycle_stops_at_first_failing_build
              initial [(build8, Some bash)] (build46, Some bash)
              [(build44, Some bash); (build47, Some bash)] _ _ _ _ _
              eq_refl Hsigning_pre Hsigning)
    as [Hlogged' [_ [_ Hagain']]].
  destruct (proj2 (cycle_stops_at_first_failing_build
                     (collab := cancelled_signer))
              initial [(build8, Some bash)] (build46, Some bash)
              [(build44, Some bash); (build47, Some bash)] _ _ _ _ _
              eq_refl Hcancelled_pre Hcancelled)
    as [_ [Hescaped _]].
  split; [split; [exact (Hlogged eq_refl)
                 |exact (Hagain initial_store_unique_ids)]|].
  split; [split; [exact (Hlogged' eq_refl)
                 |exact (Hagain' initial_store_unique_ids)]|].
  exact (Hescaped eq_refl).
Defined.

Lemma initial_store_invariant :
  Forall signed_implies_succeeded (builds (db initial)).
Proof.
  repeat (constructor; [intros H; discriminate H|]). constructor.
Defined.

(** The invariant holds of the initial store and of the store after
    every schedule. *)
Lemma signed_implies_succeeded_is_invariant_witness :
  Forall signed_implies_succeeded (builds (db initial))
  /\ Forall signed_implies_succeeded
            (builds (db (state (atomic_check_build_status build42 initial))))
  /\ Forall signed_implies_succeeded
            (builds (db (state (atomic_sign_unsigned_builds
                                  build44 (Some bash) initial))))
  /\ forall ts,
      Forall signed_implies_succeeded
             (builds (db (state (run_schedule ts initial)))).
Proof.
  destruct (signed_implies_succeeded_is_invariant
              initial initial_store_invariant)
    as [_ [_ [Hcheck [Hsign Hrun]]]].
  split; [exact initial_store_invariant|].
  split; [exact (proj2 (Hcheck build42 eq_refl eq_refl))|].
  split; [exact (proj2 (Hsign build44 (Some bash) eq_refl))|].
  exact Hrun.
Defined.

(** Scenario 2 of the specification: task 43 is FAILED and its result
    is a build error. *)
Lemma failed_task_saves_on_every_branch_witness :
  let build' := Build.set_status BuildStatus.FAILED build43 in
  let run := atomic_check_build_status build43 initial in
  run
  = {| state :=
         {| world := hub;
            db := {| builds := update_build build' (builds store);
                     packages := packages store |} |};
       events := [Called (getTaskInfo 43) None;
                  Called (getTaskResult 43) (Some BuildError);
                  SavedBuild build'];
       value := inr tt |}
  /\ status_column (builds (db (state run)))
     = [(1, BuildStatus.BUILDING); (2, BuildStatus.BUILDING);
        (3, BuildStatus.FAILED); (4, BuildStatus.BUILDING);
        (5, BuildStatus.SUCCEEDED); (6, BuildStatus.SUCCEEDED);
        (7, BuildStatus.SUCCEEDED); (8, BuildStatus.SUCCEEDED)]
  /\ signed_column (builds (db (state run)))
     = signed_column (builds store)
  /\ packages (db (state run)) = [bash].
Proof.
  intros build' run.
  destruct (proj1 (failed_task_saves_on_every_branch
                     (collab := Mock.collaborators) build43 initial hub (TaskInfo.mk koji.FAILED) hub
                     (inl BuildError) eq_refl eq_refl eq_refl eq_refl)
                  BuildError eq_refl (or_introl eq_refl))
    as [Hrun _].
  split; [exact Hrun|]. fold run in Hrun. rewrite Hrun.
  repeat split.
Defined.

(** Scenario 1 of the specification: task 42 is CLOSED. *)
Lemma closed_task_marks_build_succeeded_witness :
  let build' := Build.set_status BuildStatus.SUCCEEDED build42 in
  let bash' := Package.set_last_build (Some 1000) bash in
  let run := atomic_check_build_status build42 initial in
  run
  = {| state :=
         {| world := hub;
            db := {| builds := update_build build' (builds store);
                     packages := update_package bash' (packages store) |} |};
       events := [Called (getTaskInfo 42) None;
                  SavedBuild build'; SavedPackage bash'];
       value := inr tt |}
  /\ status_column (builds (db (state run)))
     = [(1, BuildStatus.SUCCEEDED); (2, BuildStatus.BUILDING);
        (3, BuildStatus.BUILDING); (4, BuildStatus.BUILDING);
        (5, BuildStatus.SUCCEEDED); (6, BuildStatus.SUCCEEDED);
        (7, BuildStatus.SUCCEEDED); (8, BuildStatus.SUCCEEDED)]
  /\ map Package.last_build (packages (db (state run))) = [Some 1000]
  /\ map Package.name (packages (db (state run))) = ["bash"].
Proof.
  intros build' bash' run.
  destruct (proj1 (closed_task_marks_build_succeeded
                     (collab := Mock.collaborators) build42 initial hub (TaskInfo.mk koji.CLOSED)
                     eq_refl eq_refl)
                  eq_refl bash eq_refl)
    as [Hrun _].
  split; [exact Hrun|]. fold run in Hrun. rewrite Hrun.
  repeat split.
Defined.

(** Scenario 3 of the specification: module build 7 is [failed]. *)
Lemma module_build_state_decides_status_witness :
  let build' := Build.set_status BuildStatus.FAILED build7 in
  let run := atomic_check_build_status build7 initial in
  (run
   = {| state :=
          {| world := hub;
             db := {| builds := update_build build' (builds store);
                      packages := packages store |} |};
        events := [Called (get_build 7) None; SavedBuild build'];
        value := inr tt |}
   /\ Build.signed build' = false)
  /\ status_column (builds (db (state run)))
     = [(1, BuildStatus.BUILDING); (2, BuildStatus.BUILDING);
        (3, BuildStatus.BUILDING); (4, BuildStatus.FAILED);
        (5, BuildStatus.SUCCEEDED); (6, BuildStatus.SUCCEEDED);
        (7, BuildStatus.SUCCEEDED); (8, BuildStatus.SUCCEEDED)]
  /\ signed_column (builds (db (state run)))
     = signed_column (builds store)
  /\ packages (db (state run)) = [bash].
Proof.
  intros build' run.
  destruct (proj1 (proj2 (module_build_state_decides_status
                            (collab := Mock.collaborators) build7 initial hub (ModuleBuild.mk "failed")
                            eq_refl eq_refl eq_refl))
                  eq_refl)
    as [[Hrun Hsigned] _].
  split; [split; [exact Hrun|exact Hsigned]|].
  fold run in Hrun. rewrite Hrun. repeat split.
Defined.

(** The two builds of task 47: the first is not tagged because its
    history lists the tag, and the loop starts from true. *)
Lemma tag_issued_iff_should_tag_still_true_witness :
  tagBuild_calls (events (for_build_task true task47_first initial)) = []
  /\ (forall v, value (for_build_task true task47_first initial) = inr v ->
                v = false)
  /\ tagBuild_calls
       (events (atomic_sign_unsigned_builds build47 (Some bash) initial))
     = tagBuild_calls
         (events (for_each_with [task47_first; task47_second] true
                                for_build_task initial)).
Proof.
  destruct tag_issued_iff_should_tag_still_true as [Hturn Hrun].
  destruct (Hturn true task47_first initial hub (Mock.history 3 hub) eq_refl)
    as [Hcalls [Hval _]].
  split; [exact Hcalls|]. split; [exact Hval|].
  exact (Hrun build47 bash initial hub hub [task47_first; task47_second]
              eq_refl eq_refl eq_refl).
Defined.

Lemma retry_store_unique_ids :
  unique_ids (db (state Retry.status_between)).
Proof.
  unfold unique_ids. vm_compute.
  repeat (constructor; [cbn; intuition discriminate|]). constructor.
Defined.

(** The signer is down for the artifact of task 46: the run of the
    coordinator on [build46] raises, and the signing cycle on the
    initial store, which gets through the one candidate before it, runs
    the coordinator on it.  The signer is down for the artifact of task
    61 as well: in the signing cycle that follows the status cycle the
    candidate before [build61] raises, the cycle has no other effects
    than the run on that candidate and its handler, and [build61] is a
    candidate still. *)
Lemma signer_failure_leaves_build_unsigned_witness :
  let run := atomic_sign_unsigned_builds build46 (Some bash) initial in
  let build60' := Build.mk 1 (Some 60) None 8 BuildStatus.SUCCEEDED false in
  let zsh' := Package.mk 8 "zsh" (Some 3300) in
  (value run = inl (Exception "sigul failed")
   /\ saved_builds (events run) = []
   /\ db (state run) = db initial
   /\ In (build46, Some bash) (candidates_for_signing (db (state run)))
   /\ exists evs,
       events (sign_unsigned_builds_cycle initial)
       = LogDebug "[*] Running periodic task: sign_unsigned_builds"
         :: events run ++ evs)
  /\ value (atomic_sign_unsigned_builds Retry.build61 (Some bash)
                                        Retry.initial)
     = inl (Exception "sigul failed")
  /\ events Retry.next_signing
     = LogDebug "[*] Running periodic task: sign_unsigned_builds"
       :: events (atomic_sign_unsigned_builds
                    build60' (Some zsh') (state Retry.status_between))
       ++ [LogError (Exception "sigul failed"); Slept 300]
  /\ In (Retry.build61, Some bash)
        (candidates_for_signing (db (state Retry.next_signing))).
Proof.
  intros run build60' zsh'.
  assert (Hin : In (Called (sign_koji_package "bash-5.0-2.x86_64")
                           (Some (Exception "sigul failed")))
                   (events run)) by member.
  destruct (signer_failure_leaves_build_unsigned
              build46 (Some bash) initial _ _ Hin)
    as [Hval [Hsaved [Hdb [Hcand Hnext]]]].
  destruct (Hnext initial [(build8, Some bash)]
                  [(build44, Some bash); (build47, Some bash)] eq_refl)
    as [Hretried _].
  assert (Hin' : In (Called (sign_koji_package "bash-5.1-2.x86_64")
                            (Some (Exception "sigul failed")))
                    (events (atomic_sign_unsigned_builds
                               Retry.build61 (Some bash) Retry.initial)))
    by member.
  destruct (signer_failure_leaves_build_unsigned
              Retry.build61 (Some bash) Retry.initial _ _ Hin')
    as [Hval' [_ [_ [_ Hnext']]]].
  destruct (Hnext' (state Retry.status_between)
                   [(build60', Some zsh')] [] eq_refl)
    as [_ Hskipped].
  destruct (Hskipped (Exception "sigul failed") eq_refl)
    as [Hevents Hagain].
  split.
  { split; [exact Hval|]. split; [exact Hsaved|]. split; [exact Hdb|].
    split; [apply (proj2 (Hcand _ _ eq_refl eq_refl)); member|].
    exact (Hretried eq_refl). }
  split; [exact Hval'|].
  split; [exact Hevents|].
  exact (Hagain retry_store_unique_ids).
Defined.

(** The succeeded module build 8 is passed over by the coordinator and
    selected again after every schedule. *)
Lemma module_build_is_never_signed_witness :
  atomic_sign_unsigned_builds build8 (Some bash) initial
  = {| state := initial; events := []; value := inr tt |}
  /\ forall ts,
      let s' := state (run_schedule ts initial) in
      In build8 (builds (db s'))
      /\ In build8 (map fst (candidates_for_signing (db s'))).
Proof.
  destruct (module_build_is_never_signed build8 (Some bash) initial eq_refl)
    as [Hrun Hstay].
  split; [exact Hrun|]. intros ts s'.
  assert (Hin : In build8 (builds (db initial))) by member.
  destruct (Hstay initial_store_unique_ids Hin eq_refl ts) as [Hrow Hcand].
  split; [exact Hrow|].
  exact (in_map fst _ _ (Hcand _ eq_refl)).
Defined.

(** The first build of task 47 is in the release tag: neither it nor
    the second build is tagged. *)
Lemma should_tag_is_never_reset_witness :
  let run :=
    for_each_with [task47_first; task47_second] true for_build_task initial in
  tag_listed tags_compose (Mock.history 3 hub) = true
  /\ tagBuild_calls (events run) = []
  /\ (forall v, value run = inr v -> v = false).
Proof.
  intros run. split; [reflexivity|].
  exact (proj2 (proj2 should_tag_is_never_reset)
               true task47_first [task47_second] initial hub
               (Mock.history 3 hub) eq_refl eq_refl).
Defined.

End Witnesses.

(** * More properties of the scheduler *)

(** ** Effects a run is limited to *)

Section Emits.

Context {W : Type} {collab : Collaborators W}.
Variable P : Event -> Prop.

Lemma events_bind_ret {A B} (a : A) (f : A -> M W B) (s : State W) :
  events (bind (ret a) f s) = events (f a s).
Proof. reflexivity. Qed.

Lemma emits_ret {A} (a : A) : emits_only W P (ret a).
Proof. intros s. constructor. Qed.

Lemma emits_raise {A} (e : exn) : emits_only W P (@raise W A e).
Proof. intros s. constructor. Qed.

Lemma emits_emit (ev : Event) : P ev -> emits_only W P (emit ev).
Proof. intros H s. repeat constructor. exact H. Qed.

Lemma emits_call (c : Call) :
  (forall r, P (Called c r)) -> emits_only W P (call c).
Proof.
  intros Hc s. unfold call. destruct (session c (world s)) as [w r]; cbn.
  constructor; [apply Hc|constructor].
Qed.

Lemma emits_bind {A B} (m : M W A) (f : A -> M W B) :
  emits_only W P m -> (forall a, emits_only W P (f a)) ->
  emits_only W P (bind m f).
Proof.
  intros Hm Hf s. unfold bind. specialize (Hm s).
  destruct (m s) as [s1 ev1 [e|a]]; cbn in *; [exact Hm|].
  apply Forall_app. split; [exact Hm|apply Hf].
Qed.

Lemma emits_try {A} (m : M W A) : emits_only W P m -> emits_only W P (try m).
Proof. intros Hm s. apply Hm. Qed.

Lemma emits_atomic {A} (m : M W A) :
  emits_only W P m -> emits_only W P (atomic m).
Proof. intros Hm s. rewrite atomic_events. apply Hm. Qed.

Lemma emits_for_each {A} (xs : list A) (body : A -> M W unit) :
  (forall x, emits_only W P (body x)) -> emits_only W P (for_each xs body).
Proof.
  intros Hbody. induction xs as [|x xs IH]; cbn.
  - apply emits_ret.
  - apply emits_bind; [apply Hbody|intros _; exact IH].
Qed.

Lemma emits_for_each_with {A V} (xs : list A) (body : V -> A -> M W V) :
  (forall v x, emits_only W P (body v x)) ->
  forall v, emits_only W P (for_each_with xs v body).
Proof.
  intros Hbody. induction xs as [|x xs IH]; intros v; cbn.
  - apply emits_ret.
  - apply emits_bind; [apply Hbody|exact IH].
Qed.

Lemma emits_Build_save (b : Build.t) :
  P (SavedBuild b) -> emits_only W P (Build_save b).
Proof. intros H s. repeat constructor. exact H. Qed.

Lemma emits_sleep (seconds : Z) :
  P (Slept seconds) -> emits_only W P (sleep seconds).
Proof. intros H s. repeat constructor. exact H. Qed.

(** The last three statements of [mark_succeeded]: the package that is
    saved is the one the key selects, with a time of last build. *)
Lemma emits_stamp_package (package_id : Z) :
  (forall p t, Package.id p = package_id ->
               P (SavedPackage (Package.set_last_build (Some t) p))) ->
  emits_only W P
    (package <- Package_get package_id ;;
     t <- now ;;
     Package_save (Package.set_last_build (Some t) package)).
Proof.
  intros H s. unfold bind, Package_get, now, Package_save, ret, raise.
  destruct (filter _ _) as [|p [|q l]] eqn:E; cbn; try constructor.
  - apply H. assert (Hin : In p (filter (fun p => Package.id p =? package_id)
                                        (packages (db s))))
      by (rewrite E; now left).
    apply filter_In in Hin. now apply Z.eqb_eq.
  - constructor.
Qed.

Ltac emit_call :=
  match goal with
  | |- emits_only _ _ (call ?c) => apply (emits_call c); auto
  end.

Lemma emits_for_rpm (rpm : Rpm.t) :
  (forall i r, P (Called (queryRPMSigs i) r)) ->
  (forall na r, P (Called (sign_koji_package na) r)) ->
  (forall na r, P (Called (writeSignedRPM na (sigul_key_id settings)) r)) ->
  emits_only W P (for_rpm rpm).
Proof.
  intros Hq Hs Hw. unfold for_rpm.
  apply emits_bind; [emit_call|intros rpm_sigs].
  apply emits_bind.
  - apply emits_for_each. intros rpm_sig.
    destruct (_ =? _)%string; apply emits_ret.
  - intros _. apply emits_bind; [emit_call|intros _; emit_call].
Qed.

Lemma emits_for_build_task (should_tag : bool) (build_task : BuildTask.t) :
  (forall b r, P (Called (queryHistory b) r)) ->
  (forall n r, P (Called (tagBuild tags_compose n) r)) ->
  (forall b r, P (Called (listBuildRPMs b) r)) ->
  (forall i r, P (Called (queryRPMSigs i) r)) ->
  (forall na r, P (Called (sign_koji_package na) r)) ->
  (forall na r, P (Called (writeSignedRPM na (sigul_key_id settings)) r)) ->
  emits_only W P (for_build_task should_tag build_task).
Proof.
  intros Hh Ht Hl Hq Hs Hw. unfold for_build_task.
  apply emits_bind; [emit_call|intros build_history].
  apply emits_bind.
  - destruct (scan_tag_listing _ _); [emit_call|apply emits_ret].
  - intros _. apply emits_bind; [emit_call|intros build_rpms].
    apply emits_bind; [|intros _; apply emits_ret].
    apply emits_for_each. intros rpm. now apply emits_for_rpm.
Qed.

Lemma emits_atomic_sign_unsigned_builds build package :
  (forall p r, package = Some p ->
               P (Called (packageListAdd tags_compose (Package.name p)
                                         "distrobuild") r)) ->
  (forall r, P (Called (listBuilds (int_of (Build.koji_id build))) r)) ->
  (forall b r, P (Called (queryHistory b) r)) ->
  (forall n r, P (Called (tagBuild tags_compose n) r)) ->
  (forall b r, P (Called (listBuildRPMs b) r)) ->
  (forall i r, P (Called (queryRPMSigs i) r)) ->
  (forall na r, P (Called (sign_koji_package na) r)) ->
  (forall na r, P (Called (writeSignedRPM na (sigul_key_id settings)) r)) ->
  P (SavedBuild (Build.set_signed true build)) ->
  emits_only W P (atomic_sign_unsigned_builds build package).
Proof.
  intros Ha Hb Hh Ht Hl Hq Hs Hw Hsave.
  unfold atomic_sign_unsigned_builds. apply emits_atomic.
  destruct (truthy _); [|apply emits_ret].
  destruct package as [p|].
  - intros s. rewrite events_bind_ret. revert s.
    apply emits_bind; [apply emits_call; intros r; now apply Ha|intros _].
    apply emits_bind; [emit_call|intros build_tasks].
    apply emits_bind; [|intros _; now apply emits_Build_save].
    apply emits_for_each_with. intros v x. now apply emits_for_build_task.
  - intros s. unfold bind, raise. cbn. constructor.
Qed.

Lemma emits_atomic_check_build_status build :
  (truthy (Build.koji_id build) = true ->
   forall r,
     P (Called (getTaskInfo (int_of (Build.koji_id build))) r)
     /\ P (Called (getTaskResult (int_of (Build.koji_id build))) r)) ->
  (truthy (Build.koji_id build) = false ->
   truthy (Build.mbs_id build) = true ->
   forall r, P (Called (get_build (int_of (Build.mbs_id build))) r)) ->
  (truthy (Build.koji_id build) = true -> forall msg, P (LogDebug msg)) ->
  (forall st, P (SavedBuild (Build.set_status st build))) ->
  P (SavedBuild build) ->
  (forall p t, Package.id p = Build.package_id build ->
               P (SavedPackage (Package.set_last_build (Some t) p))) ->
  emits_only W P (atomic_check_build_status build).
Proof.
  intros Hkoji Hmbs Hlog Hsave Hsame Hpkg.
  assert (Hmark : emits_only W P (mark_succeeded build)).
  { unfold mark_succeeded.
    apply emits_bind; [apply emits_Build_save, Hsave|intros _].
    now apply emits_stamp_package. }
  unfold atomic_check_build_status. apply emits_atomic.
  destruct (truthy (Build.koji_id build)) eqn:Hk.
  - specialize (Hkoji eq_refl). specialize (Hlog eq_refl).
    apply emits_bind; [apply emits_call; intros r; apply Hkoji|].
    intros task_info.
    destruct (TaskInfo.state task_info); try apply emits_ret;
      [exact Hmark|apply emits_Build_save, Hsave|].
    apply emits_bind.
    + apply emits_try.
      apply emits_bind; [apply emits_call; intros r; apply Hkoji|].
      intros task_result. apply emits_emit, Hlog.
    + intros [e|_]; [|now apply emits_Build_save].
      destruct e; try (apply emits_Build_save, Hsave);
        (apply emits_bind;
         [now apply emits_Build_save|intros _; apply emits_raise]).
  - destruct (truthy (Build.mbs_id build)) eqn:Hm; [|apply emits_ret].
    specialize (Hmbs eq_refl eq_refl).
    apply emits_bind; [apply emits_call; exact Hmbs|intros build_info].
    cbv zeta. destruct (_ =? "ready")%string; [exact Hmark|].
    destruct (_ =? "failed")%string;
      [apply emits_Build_save, Hsave|apply emits_ret].
Qed.

End Emits.

(** ** The remaining branches of the Status Reconciler *)

Section ReconcilerBranches.

Context {W : Type} {collab : Collaborators W}.

(** [mark_succeeded] when no package row has the key the build points
    to: the build is saved, the lookup raises, nothing else happens. *)
Lemma mark_succeeded_without_package (build : Build.t) (s : State W) :
  filter (fun p => Package.id p =? Build.package_id build) (packages (db s))
  = [] ->
  mark_succeeded build s =
    let build' := Build.set_status BuildStatus.SUCCEEDED build in
    {| state :=
         {| world := world s;
            db := {| builds := update_build build' (builds (db s));
                     packages := packages (db s) |} |};
       events := [SavedBuild build'];
       value := inl DoesNotExist |}.
Proof.
  intros E. unfold mark_succeeded, bind, Build_save, Package_get, raise; cbn.
  rewrite E. reflexivity.
Qed.

(** The run of the reconciler on a task-backend build whose task state
    is CANCELED. *)
Lemma canceled_task_run :
  forall (build : Build.t) (s : State W) w (task_info : TaskInfo.t),
    truthy (Build.koji_id build) = true ->
    session (getTaskInfo (int_of (Build.koji_id build))) (world s)
    = (w, inr task_info) ->
    TaskInfo.state task_info = koji.CANCELED ->
    let build' := Build.set_status BuildStatus.CANCELLED build in
    atomic_check_build_status build s
    = {| state :=
           {| world := w;
              db := {| builds := update_build build' (builds (db s));
                       packages := packages (db s) |} |};
         events := [Called (getTaskInfo (int_of (Build.koji_id build))) None;
                    SavedBuild build'];
         value := inr tt |}.
Proof.
  intros build s w [st] Hk Hinfo Hstate build'. cbn in Hstate. subst st.
  unfold atomic_check_build_status. rewrite Hk.
  rewrite (atomic_bind_call _ _ _ _ _ _ Hinfo eq_refl). reflexivity.
Qed.

(** X1. A task-backend build whose task state is CANCELED becomes
    CANCELLED: after the run the rows of the build in the store have
    status CANCELLED and the [signed] flag the build was loaded with,
    every other row and the package table are as they were, and nothing
    else is asked of the hub. *)
Theorem canceled_task_marks_build_cancelled :
  forall (build : Build.t) (s : State W) w (task_info : TaskInfo.t),
    truthy (Build.koji_id build) = true ->
    session (getTaskInfo (int_of (Build.koji_id build))) (world s)
    = (w, inr task_info) ->
    TaskInfo.state task_info = koji.CANCELED ->
    let build' := Build.set_status BuildStatus.CANCELLED build in
    let run := atomic_check_build_status build s in
    run
    = {| state :=
           {| world := w;
              db := {| builds := update_build build' (builds (db s));
                       packages := packages (db s) |} |};
         events := [Called (getTaskInfo (int_of (Build.koji_id build))) None;
                    SavedBuild build'];
         value := inr tt |}
    /\ saved_with build BuildStatus.CANCELLED (Build.signed build)
                  (builds (db s)) (builds (db (state run)))
    /\ map Build.status (saved_builds (events run)) = [BuildStatus.CANCELLED]
    /\ packages (db (state run)) = packages (db s).
Proof.
  intros build s w task_info Hk Hinfo Hstate build' run.
  pose proof (canceled_task_run build s w task_info Hk Hinfo Hstate) as Hrun.
  fold run in Hrun. cbv zeta in Hrun. fold build' in Hrun.
  split; [exact Hrun|]. rewrite Hrun. repeat apply conj.
  - apply (saved_with_update_build build build'); reflexivity.
  - reflexivity.
  - reflexivity.
Qed.

(** X2. When the backend reports success (task state CLOSED, module state
    [ready]) but the store has no package row with the key the build
    points to, the lookup of the package raises [DoesNotExist] after the
    build was saved as SUCCEEDED; the exception leaves the transaction,
    which is rolled back: the store is as before the run and the build is
    still BUILDING there. *)
Theorem success_without_package_is_rolled_back :
  forall (build : Build.t) (s : State W),
    filter (fun p => Package.id p =? Build.package_id build) (packages (db s))
    = [] ->
    let build' := Build.set_status BuildStatus.SUCCEEDED build in
    (forall w (task_info : TaskInfo.t),
        truthy (Build.koji_id build) = true ->
        session (getTaskInfo (int_of (Build.koji_id build))) (world s)
        = (w, inr task_info) ->
        TaskInfo.state task_info = koji.CLOSED ->
        atomic_check_build_status build s
        = {| state := {| world := w; db := db s |};
             events :=
               [Called (getTaskInfo (int_of (Build.koji_id build))) None;
                SavedBuild build'];
             value := inl DoesNotExist |})
    /\ (forall w (build_info : ModuleBuild.t),
           truthy (Build.koji_id build) = false ->
           truthy (Build.mbs_id build) = true ->
           session (get_build (int_of (Build.mbs_id build))) (world s)
           = (w, inr build_info) ->
           ModuleBuild.state_name build_info = "ready" ->
           atomic_check_build_status build s
           = {| state := {| world := w; db := db s |};
                events :=
                  [Called (get_build (int_of (Build.mbs_id build))) None;
                   SavedBuild build'];
                value := inl DoesNotExist |}).
Proof.
  intros build s Hpkg build'. split.
  - intros w [st] Hk Hinfo Hstate. cbn in Hstate. subst st.
    unfold atomic_check_build_status. rewrite Hk.
    rewrite (atomic_bind_call _ _ _ _ _ _ Hinfo
               (mark_succeeded_without_package
                  build {| world := w; db := db s |} Hpkg)).
    reflexivity.
  - intros w [state] Hk Hm Hinfo Hstate. cbn in Hstate. subst state.
    unfold atomic_check_build_status. rewrite Hk, Hm.
    rewrite (atomic_bind_call _ _ _ _ _ _ Hinfo
               (mark_succeeded_without_package
                  build {| world := w; db := db s |} Hpkg)).
    reflexivity.
Qed.

(** X3. When the state query itself raises ([getTaskInfo] for a
    task-backend build, [get_build] for a module build), the reconciler
    does nothing more: the exception leaves the run, no build and no
    package was saved, and the store is as before. *)
Theorem backend_query_failure_propagates :
  forall (build : Build.t) (s : State W) w (e : exn),
    (truthy (Build.koji_id build) = true ->
     session (getTaskInfo (int_of (Build.koji_id build))) (world s)
     = (w, inl e) ->
     atomic_check_build_status build s
     = {| state := {| world := w; db := db s |};
          events :=
            [Called (getTaskInfo (int_of (Build.koji_id build))) (Some e)];
          value := inl e |})
    /\ (truthy (Build.koji_id build) = false ->
        truthy (Build.mbs_id build) = true ->
        session (get_build (int_of (Build.mbs_id build))) (world s)
        = (w, inl e) ->
        atomic_check_build_status build s
        = {| state := {| world := w; db := db s |};
             events :=
               [Called (get_build (int_of (Build.mbs_id build))) (Some e)];
             value := inl e |}).
Proof.
  intros build s w e. split.
  - intros Hk Hq. unfold atomic_check_build_status. rewrite Hk.
    rewrite (atomic_raises _ _ _ _ _
               (bind_raises _ _ _ _ _ _ (call_raises _ _ _ _ Hq))).
    reflexivity.
  - intros Hk Hm Hq. unfold atomic_check_build_status. rewrite Hk, Hm.
    rewrite (atomic_raises _ _ _ _ _
               (bind_raises _ _ _ _ _ _ (call_raises _ _ _ _ Hq))).
    reflexivity.
Qed.

(** X4. Everything one run of the reconciler does is of these kinds: a
    state query to the one backend the build was sent to (the hub when
    [koji_id] is set, MBS otherwise and only when [mbs_id] is set), about
    that build; a debug log, for a task-backend build; a save of that
    build, changed at most in its status; a save of a package with the
    key the build points to and a time of last build.  It never tags,
    signs or writes to a backend, and it never queries both backends.
    A build with neither id set is left alone altogether. *)
Theorem reconciler_effects :
  (forall (build : Build.t) (s : State W),
      Forall (reconciler_effect build)
             (events (atomic_check_build_status build s)))
  /\ (forall (build : Build.t) (s : State W),
         truthy (Build.koji_id build) = false ->
         truthy (Build.mbs_id build) = false ->
         atomic_check_build_status build s
         = {| state := s; events := []; value := inr tt |}).
Proof.
  split.
  - intros build. apply emits_atomic_check_build_status;
      unfold reconciler_effect.
    + intros Hk r. rewrite Hk. auto.
    + intros Hk Hm r. rewrite Hk. auto.
    + auto.
    + eauto.
    + exists (Build.status build). symmetry. apply set_status_same.
    + intros p t Hid. split; [exact Hid|discriminate].
  - intros build s Hk Hm. unfold atomic_check_build_status.
    rewrite Hk, Hm. reflexivity.
Qed.

End ReconcilerBranches.

(** ** What the Signing Coordinator is limited to *)

Section CoordinatorEffects.

Context {W : Type} {collab : Collaborators W}.

(** X5. Everything one run of the coordinator does is of these kinds:
    adding the package of the build to the release tag, under the owner
    [distrobuild]; listing the builds of the task of the build; history,
    artifact and signature queries; tag operations into the release tag;
    signer invocations; signature writes under the configured key; and
    the save of the build, changed only in that it is signed.  It never
    saves a package, never logs, and never asks for a task or module
    state. *)
Theorem coordinator_effects :
  forall (build : Build.t) (package : option Package.t) (s : State W),
    Forall (coordinator_effect build package)
           (events (atomic_sign_unsigned_builds build package s)).
Proof.
  intros build package.
  destruct (Build.koji_id build) as [n|] eqn:Hk.
  - apply emits_atomic_sign_unsigned_builds; unfold coordinator_effect;
      rewrite ?Hk; cbn; auto.
    intros p r ->. auto.
  - intros s. unfold atomic_sign_unsigned_builds. rewrite Hk. constructor.
Qed.

End CoordinatorEffects.

(** ** Row by row: what the cycles do to the build table *)

Section Rows.

Context {W : Type} {collab : Collaborators W}.

Lemma Forall2_with_In {A B} (R : A -> B -> Prop) (l : list A) (l' : list B) :
  Forall2 R l l' -> Forall2 (fun x y => In x l /\ R x y) l l'.
Proof.
  induction 1 as [|x y l l' Hxy _ IH]; constructor.
  - split; [now left|exact Hxy].
  - eapply Forall2_impl; [|exact IH]. intros a b [Ha Hab].
    split; [now right|exact Hab].
Qed.

Lemma Forall2_trans {A} (R : A -> A -> Prop) :
  (forall x y z, R x y -> R y z -> R x z) ->
  forall l1 l2 l3, Forall2 R l1 l2 -> Forall2 R l2 l3 -> Forall2 R l1 l3.
Proof.
  intros HR l1 l2 l3 H12. revert l3.
  induction H12 as [|x y l1 l2 Hxy _ IH]; intros l3 H23;
    inversion H23; subst; constructor; eauto.
Qed.

Lemma Forall2_refl {A} (R : A -> A -> Prop) :
  (forall x, R x x) -> forall l, Forall2 R l l.
Proof. intros HR l. induction l; constructor; auto. Qed.

Lemma status_cycle_rows (s : State W) :
  unique_ids (db s) ->
  Forall2 (fun r r' => r' = r \/ reconciled r r')
          (builds (db s))
          (builds (db (state (check_build_status_cycle s)))).
Proof.
  intros Hu.
  pose proof (Forall2_with_In _ _ _ (check_build_status_cycle_touches s)) as H.
  eapply Forall2_impl; [|exact H]. cbn.
  intros r r' [Hin [Hid [->|[c [st [Hc ->]]]]]]; [now left|right].
  unfold candidates_for_status in Hc. apply filter_In in Hc.
  destruct Hc as [Hcin Hcb]. apply building_spec in Hcb. cbn in Hid.
  rewrite (unique_id_In _ _ _ Hu Hcin Hin Hid) in *.
  split; [exact Hcb|eauto].
Qed.

Lemma signing_cycle_rows (s : State W) :
  unique_ids (db s) ->
  Forall2 (fun r r' => r' = r \/ marked_signed r r')
          (builds (db s))
          (builds (db (state (sign_unsigned_builds_cycle s)))).
Proof.
  intros Hu.
  pose proof (Forall2_with_In _ _ _ (sign_unsigned_builds_cycle_touches s)) as H.
  eapply Forall2_impl; [|exact H]. cbn.
  intros r r' [Hin [Hid [->|[c [Hc [Hk ->]]]]]]; [now left|right].
  apply filter_In in Hc. destruct Hc as [Hcin Hcb]. cbn in Hid.
  rewrite (unique_id_In _ _ _ Hu Hcin Hin Hid) in *.
  repeat split; assumption.
Qed.

(** X6. With unique build ids, one status cycle leaves every row of the
    build table in place and either as it was or, for a row that was
    BUILDING, changed in its status only.  Rows that were not BUILDING
    are not written, whatever the backends answer, and also when the
    cycle is cut short by an exception. *)
Theorem status_cycle_changes_only_status_of_building_rows :
  forall s : State W,
    unique_ids (db s) ->
    Forall2 (fun r r' => r' = r \/ reconciled r r')
            (builds (db s))
            (builds (db (state (check_build_status_cycle s)))).
Proof. intros s Hu. now apply status_cycle_rows. Qed.

(** X7. With unique build ids, one signing cycle leaves every row of the
    build table in place and either as it was or, for a row that was
    SUCCEEDED, unsigned and had a task id, changed only in that it is
    now signed. *)
Theorem signing_cycle_changes_only_signed_of_candidates :
  forall s : State W,
    unique_ids (db s) ->
    Forall2 (fun r r' => r' = r \/ marked_signed r r')
            (builds (db s))
            (builds (db (state (sign_unsigned_builds_cycle s)))).
Proof. intros s Hu. now apply signing_cycle_rows. Qed.

Lemma evolves_refl (r : Build.t) : evolves r r.
Proof. unfold evolves. tauto. Qed.

Lemma evolves_trans (r1 r2 r3 : Build.t) :
  evolves r1 r2 -> evolves r2 r3 -> evolves r1 r3.
Proof.
  unfold evolves.
  intros [Hi [Hk [Hm [Hp [Hst Hsg]]]]] [Hi' [Hk' [Hm' [Hp' [Hst' Hsg']]]]].
  repeat split; try congruence.
  - intros Hb. rewrite Hst'; [now apply Hst|]. now rewrite (Hst Hb).
  - auto.
Qed.

Lemma reconciled_evolves (r r' : Build.t) : reconciled r r' -> evolves r r'.
Proof.
  intros [Hb [st ->]]. unfold evolves. cbn. repeat split; auto.
  intros Hnb. now destruct Hnb.
Qed.

Lemma marked_signed_evolves (r r' : Build.t) :
  marked_signed r r' -> evolves r r'.
Proof. intros [_ [_ ->]]. unfold evolves. cbn. repeat split; auto. Qed.

Lemma turn_evolves (t : PeriodicTask) (s : State W) :
  unique_ids (db s) ->
  Forall2 evolves (builds (db s)) (builds (db (state (turn t s))))
  /\ unique_ids (db (state (turn t s))).
Proof.
  intros Hu. destruct t; cbn.
  - split.
    + eapply Forall2_impl;
        [|exact (status_cycle_rows s Hu)].
      intros r r' [->|H]; [apply evolves_refl|now apply reconciled_evolves].
    + exact (touched_unique_ids _ _ _ (check_build_status_cycle_touches s) Hu).
  - destruct (negb _).
    + split.
      * eapply Forall2_impl;
          [|exact (signing_cycle_rows s Hu)].
        intros r r' [->|H]; [apply evolves_refl|now apply marked_signed_evolves].
      * exact (touched_unique_ids _ _ _
                 (sign_unsigned_builds_cycle_touches s) Hu).
    + split; [apply Forall2_refl, evolves_refl|exact Hu].
Qed.

Lemma run_schedule_evolves (ts : list PeriodicTask) :
  forall s : State W,
    unique_ids (db s) ->
    Forall2 evolves (builds (db s)) (builds (db (state (run_schedule ts s)))).
Proof.
  induction ts as [|t ts IH]; intros s Hu; cbn.
  - apply Forall2_refl, evolves_refl.
  - unfold bind. destruct (turn_evolves t s Hu) as [Ht Hu'].
    destruct (turn t s) as [s1 ev1 [e|[]]]; cbn in *; [exact Ht|].
    eapply Forall2_trans; [exact evolves_trans|exact Ht|now apply IH].
Qed.

(** X8. With unique build ids, through every schedule of turns of the two
    periodic tasks the build table keeps its rows in place, and each row
    keeps its id, its backend ids and its package; a status other than
    BUILDING never changes again; and a row that is signed stays
    signed. *)
Theorem rows_evolve_through_every_schedule :
  forall (ts : list PeriodicTask) (s : State W),
    unique_ids (db s) ->
    let rows := builds (db s) in
    let rows' := builds (db (state (run_schedule ts s))) in
    Forall2 evolves rows rows'
    /\ List.length rows' = List.length rows
    /\ (forall i r r',
           nth_error rows i = Some r -> nth_error rows' i = Some r' ->
           Build.id r' = Build.id r
           /\ (Build.status r <> BuildStatus.BUILDING ->
               Build.status r' = Build.status r)
           /\ (Build.signed r = true -> Build.signed r' = true)).
Proof.
  intros ts s Hu rows rows'.
  pose proof (run_schedule_evolves ts s Hu) as H. fold rows rows' in H.
  split; [exact H|]. split.
  - symmetry. exact (Forall2_length H).
  - clear Hu. induction H as [|x y l l' Hxy _ IH]; intros i r r' Hr Hr'.
    + destruct i; discriminate.
    + destruct i as [|i]; cbn in Hr, Hr'.
      * injection Hr as <-. injection Hr' as <-. unfold evolves in Hxy. tauto.
      * exact (IH i r r' Hr Hr').
Qed.

End Rows.

(** ** The package table *)

Section Packages.

Context {W : Type} {collab : Collaborators W}.

Lemma stamped_refl (p : Package.t) : stamped p p.
Proof. now left. Qed.

Lemma stamped_trans (p1 p2 p3 : Package.t) :
  stamped p1 p2 -> stamped p2 p3 -> stamped p1 p3.
Proof.
  intros [->|[t ->]] [->|[t' ->]]; unfold stamped; eauto.
  right. exists t'. reflexivity.
Qed.

Lemma stamps_packages_refl (d : Db) : stamps_packages d d.
Proof. apply Forall2_refl, stamped_refl. Qed.

Lemma stamps_packages_trans (d1 d2 d3 : Db) :
  stamps_packages d1 d2 -> stamps_packages d2 d3 -> stamps_packages d1 d3.
Proof. apply Forall2_trans, stamped_trans. Qed.

Lemma same_packages_refl (d : Db) : same_packages d d.
Proof. reflexivity. Qed.

Lemma same_packages_trans (d1 d2 d3 : Db) :
  same_packages d1 d2 -> same_packages d2 d3 -> same_packages d1 d3.
Proof. unfold same_packages. congruence. Qed.

(** The reconciler keeps a relation on the store when the saves of its
    build and the stamping of its package keep it. *)
Lemma keeps_atomic_check_build_status_stamping
      (Q : Db -> Db -> Prop) (build : Build.t) :
  (forall d, Q d d) ->
  (forall d1 d2 d3, Q d1 d2 -> Q d2 d3 -> Q d1 d3) ->
  (forall st, keeps W Q (Build_save (Build.set_status st build))) ->
  keeps W Q (Build_save build) ->
  keeps W Q (package <- Package_get (Build.package_id build) ;;
             t <- now ;;
             Package_save (Package.set_last_build (Some t) package)) ->
  keeps W Q (atomic_check_build_status build).
Proof.
  intros Q_refl Q_trans Hsave Hsame Hstamp.
  assert (Hmark : keeps W Q (mark_succeeded build)).
  { unfold mark_succeeded.
    apply (keeps_bind Q Q_trans); [apply Hsave|intros _; exact Hstamp]. }
  unfold atomic_check_build_status. apply (keeps_atomic Q Q_refl).
  destruct (truthy (Build.koji_id build)).
  - apply (keeps_bind Q Q_trans); [apply (keeps_call Q Q_refl)|].
    intros task_info.
    destruct (TaskInfo.state task_info); try apply (keeps_ret Q Q_refl);
      [exact Hmark|apply Hsave|].
    apply (keeps_bind Q Q_trans).
    + apply keeps_try. apply (keeps_bind Q Q_trans);
        [apply (keeps_call Q Q_refl)|intros task_result].
      apply (keeps_emit Q Q_refl).
    + intros [e|_]; [|exact Hsame].
      destruct e; try apply Hsave;
        (apply (keeps_bind Q Q_trans);
         [exact Hsame|intros _; apply (keeps_raise Q Q_refl)]).
  - destruct (truthy (Build.mbs_id build)); [|apply (keeps_ret Q Q_refl)].
    apply (keeps_bind Q Q_trans); [apply (keeps_call Q Q_refl)|].
    intros build_info.
    cbv zeta. destruct (_ =? "ready")%string; [exact Hmark|].
    destruct (_ =? "failed")%string;
      [apply Hsave|apply (keeps_ret Q Q_refl)].
Qed.

(** Stamping writes one row, the one the key selects, and only its time
    of last build. *)
Lemma stamp_package_stamps (package_id : Z) :
  keeps W stamps_packages
        (package <- Package_get package_id ;;
         t <- now ;;
         Package_save (Package.set_last_build (Some t) package)).
Proof.
  intros s. unfold bind, Package_get, now, Package_save, ret, raise.
  destruct (filter _ _) as [|p [|q l]] eqn:E; cbn;
    try apply stamps_packages_refl.
  unfold stamps_packages, update_package; cbn.
  apply Forall2_map_same. intros r Hr. cbn.
  destruct (Package.id r =? Package.id p) eqn:Hid; [|now left].
  right. exists (datetime_now (world s)).
  assert (Hp : In p (filter (fun p => Package.id p =? package_id)
                            (packages (db s)))) by (rewrite E; now left).
  apply filter_In in Hp. destruct Hp as [_ Hp].
  assert (Hin : In r (filter (fun p => Package.id p =? package_id)
                             (packages (db s)))).
  { apply filter_In. split; [exact Hr|].
    apply Z.eqb_eq in Hid, Hp. apply Z.eqb_eq. congruence. }
  rewrite E in Hin. destruct Hin as [->|[]]. reflexivity.
Qed.

Lemma atomic_check_build_status_stamps (build : Build.t) :
  keeps W stamps_packages (atomic_check_build_status build).
Proof.
  apply keeps_atomic_check_build_status_stamping.
  - apply stamps_packages_refl.
  - apply stamps_packages_trans.
  - intros st s. apply (stamps_packages_refl (db s)).
  - intros s. apply (stamps_packages_refl (db s)).
  - apply stamp_package_stamps.
Qed.

Lemma atomic_sign_unsigned_builds_same_packages build package :
  keeps W same_packages (atomic_sign_unsigned_builds build package).
Proof.
  apply keeps_atomic_sign_unsigned_builds.
  - apply same_packages_refl.
  - apply same_packages_trans.
  - intros s. reflexivity.
Qed.

Lemma sign_unsigned_builds_cycle_same_packages (s : State W) :
  packages (db (state (sign_unsigned_builds_cycle s))) = packages (db s).
Proof.
  rewrite sign_unsigned_builds_cycle_db.
  apply (keeps_for_each same_packages same_packages_refl same_packages_trans).
  intros [b p] _. apply atomic_sign_unsigned_builds_same_packages.
Qed.

Lemma turn_stamps (t : PeriodicTask) (s : State W) :
  stamps_packages (db s) (db (state (turn t s))).
Proof.
  destruct t; unfold turn.
  - rewrite check_build_status_cycle_db.
    apply (keeps_for_each stamps_packages
                          stamps_packages_refl stamps_packages_trans).
    intros b _. apply atomic_check_build_status_stamps.
  - destruct (negb _); [|apply stamps_packages_refl].
    unfold stamps_packages. rewrite sign_unsigned_builds_cycle_same_packages.
    apply Forall2_refl, stamped_refl.
Qed.

(** X9. The Signing Coordinator and the signing cycle never change the
    package table.  Through every schedule of turns of the two periodic
    tasks the package table keeps its rows in place, each row keeps its
    id and its name, and the time of last build of a row either stays or
    is set to a time; it is never cleared. *)
Theorem package_table_is_only_stamped :
  (forall (build : Build.t) (package : option Package.t) (s : State W),
      packages (db (state (atomic_sign_unsigned_builds build package s)))
      = packages (db s))
  /\ (forall s : State W,
         packages (db (state (sign_unsigned_builds_cycle s)))
         = packages (db s))
  /\ (forall (ts : list PeriodicTask) (s : State W),
         Forall2
           (fun p p' =>
              Package.id p' = Package.id p
              /\ Package.name p' = Package.name p
              /\ (Package.last_build p' = Package.last_build p
                  \/ exists t, Package.last_build p' = Some t))
           (packages (db s))
           (packages (db (state (run_schedule ts s))))).
Proof.
  repeat apply conj.
  - intros build package s.
    apply atomic_sign_unsigned_builds_same_packages.
  - apply sign_unsigned_builds_cycle_same_packages.
  - intros ts s.
    assert (H : stamps_packages (db s) (db (state (run_schedule ts s)))).
    { revert s. induction ts as [|t ts IH]; intros s; cbn.
      - apply stamps_packages_refl.
      - unfold bind. pose proof (turn_stamps t s) as Ht.
        destruct (turn t s) as [s1 ev1 [e|[]]]; cbn in *; [exact Ht|].
        eapply stamps_packages_trans; [exact Ht|apply IH]. }
    eapply Forall2_impl; [|exact H].
    intros p p' [->|[t ->]]; cbn; eauto.
Qed.

End Packages.

(** ** The periodic tasks as a whole *)

Section Turns.

Context {W : Type} {collab : Collaborators W}.

Lemma sleeps_app (evs evs' : list Event) :
  sleeps (evs ++ evs') = sleeps evs ++ sleeps evs'.
Proof.
  induction evs as [|ev evs IH]; [reflexivity|].
  destruct ev; cbn; rewrite ?IH; reflexivity.
Qed.

Lemma logged_errors_app (evs evs' : list Event) :
  logged_errors (evs ++ evs') = logged_errors evs ++ logged_errors evs'.
Proof.
  induction evs as [|ev evs IH]; [reflexivity|].
  destruct ev; cbn; rewrite ?IH; reflexivity.
Qed.

Lemma unit_effects_quiet (evs : list Event) :
  Forall unit_effect evs -> sleeps evs = [] /\ logged_errors evs = [].
Proof.
  induction 1 as [|ev evs Hev _ [IH1 IH2]]; [now split|].
  destruct ev; cbn in *; try tauto.
Qed.

Lemma reconciler_unit_effects (build : Build.t) :
  emits_only W unit_effect (atomic_check_build_status build).
Proof. apply emits_atomic_check_build_status; cbn; auto. Qed.

Lemma coordinator_unit_effects build package :
  emits_only W unit_effect (atomic_sign_unsigned_builds build package).
Proof. apply emits_atomic_sign_unsigned_builds; cbn; auto. Qed.

(** What a cycle makes of the outcome of its loop, when the loop itself
    neither sleeps nor logs an error. *)
Lemma cycle_summary (banner : string) (loop : M W unit) (seconds : Z)
      (s : State W) :
  emits_only W unit_effect loop ->
  let run :=
    (emit (LogDebug banner) ;;
     r <- try loop ;;
     match r with
     | inl e => if is_Exception e then emit (LogError e) else raise e
     | inr _ => ret tt
     end ;;
     sleep seconds) s in
  value run
  = match value (loop s) with
    | inl e => if is_Exception e then inr tt else inl e
    | inr _ => inr tt
    end
  /\ sleeps (events run)
     = match value (loop s) with
       | inl e => if is_Exception e then [seconds] else []
       | inr _ => [seconds]
       end
  /\ logged_errors (events run)
     = match value (loop s) with
       | inl e => if is_Exception e then [e] else []
       | inr _ => []
       end.
Proof.
  intros Hloop run. subst run.
  destruct (unit_effects_quiet _ (Hloop s)) as [Hs He].
  rewrite cycle_events, cycle_run. cbn.
  rewrite !sleeps_app, !logged_errors_app, Hs, He.
  destruct (value (loop s)) as [e|]; [destruct (is_Exception e)|];
    repeat split.
Qed.

Lemma status_loop_unit_effects :
  emits_only W unit_effect
    (builds <- Build_filter_building ;;
     for_each builds atomic_check_build_status).
Proof.
  apply emits_bind; [intros s; constructor|intros builds].
  apply emits_for_each, reconciler_unit_effects.
Qed.

Lemma signing_loop_unit_effects :
  emits_only W unit_effect
    (builds <- Build_filter_unsigned_succeeded ;;
     for_each builds
       (fun build => atomic_sign_unsigned_builds (fst build) (snd build))).
Proof.
  apply emits_bind; [intros s; constructor|intros builds].
  apply emits_for_each. intros b. apply coordinator_unit_effects.
Qed.

(** [n] turns of a loop whose turn ends only with an exception that
    [except Exception] does not catch, and sleeps once when it
    returns. *)
Lemma turns_summary (cycle : M W unit) (seconds : Z) :
  (forall s e, value (cycle s) = inl e -> is_Exception e = false) ->
  (forall s, value (cycle s) = inr tt ->
             sleeps (events (cycle s)) = [seconds]) ->
  forall n s,
    (forall e, value (turns n cycle s) = inl e -> is_Exception e = false)
    /\ (value (turns n cycle s) = inr tt ->
        sleeps (events (turns n cycle s)) = repeat seconds n).
Proof.
  intros Hraise Hsleep. induction n as [|n IH]; intros s; cbn.
  - split; [discriminate|reflexivity].
  - unfold bind. specialize (Hraise s). specialize (Hsleep s).
    destruct (cycle s) as [s1 ev1 [e|[]]]; cbn in *.
    + split; [|discriminate]. intros e' He'. injection He' as <-.
      now apply Hraise.
    + destruct (IH s1) as [IH1 IH2]. split; [exact IH1|].
      intros Hv. rewrite sleeps_app, (Hsleep eq_refl), (IH2 Hv).
      reflexivity.
Qed.

(** The remote calls of a cycle are those of its loop. *)
Lemma cycle_calls (banner : string) (loop : M W unit) (seconds : Z)
      (s : State W) (c : Call) (r : option exn) :
  In (Called c r)
     (events ((emit (LogDebug banner) ;;
               r <- try loop ;;
               match r with
               | inl e =>
                   if is_Exception e then emit (LogError e) else raise e
               | inr _ => ret tt
               end ;;
               sleep seconds) s)) ->
  In (Called c r) (events (loop s)).
Proof.
  rewrite cycle_events. intros [H|H]; [discriminate H|].
  apply in_app_or in H. destruct H as [H|H]; [exact H|].
  exfalso. destruct (value (loop s)) as [e0|];
    [destruct (is_Exception e0)|]; cbn in H; intuition discriminate.
Qed.

Lemma signing_loop_fails_fast :
  fails_fast W
    (builds <- Build_filter_unsigned_succeeded ;;
     for_each builds
       (fun build => atomic_sign_unsigned_builds (fst build) (snd build))).
Proof.
  apply fails_fast_bind; [intros s c e []|intros builds].
  apply fails_fast_for_each. intros b.
  apply fails_fast_atomic_sign_unsigned_builds.
Qed.

(** X10. A periodic task ends only with an exception that
    [except Exception] does not catch.  In a turn of either loop, an
    exception that ends the loop over the candidates and is an instance
    of [Exception] is logged, once, and the turn goes on to sleep 300
    seconds; an exception that is not (a cancellation, a keyboard
    interrupt) is not logged, the turn does not sleep, and the exception
    ends the turn and with it the task.  A loop over the candidates
    that returns logs no error and is followed by the one sleep.  In
    particular a signer invocation that is cancelled ends the signing
    task.  [n] turns that return have slept [n] times. *)
Theorem periodic_task_ends_only_on_uncaught_exception :
  (forall e, is_Exception e = false
             <-> e = CancelledError \/ e = KeyboardInterrupt)
  /\ (forall s : State W,
      let loop :=
        (builds <- Build_filter_building ;;
         for_each builds atomic_check_build_status) in
      let cycle := check_build_status_cycle s in
      (forall e, value cycle = inl e -> is_Exception e = false)
      /\ (forall e,
             value (loop s) = inl e -> is_Exception e = false ->
             value cycle = inl e
             /\ logged_errors (events cycle) = []
             /\ sleeps (events cycle) = [])
      /\ (forall e,
             value (loop s) = inl e -> is_Exception e = true ->
             logged_errors (events cycle) = [e]
             /\ sleeps (events cycle) = [300])
      /\ (value (loop s) = inr tt ->
          logged_errors (events cycle) = []
          /\ sleeps (events cycle) = [300]))
  /\ (forall s : State W,
         let loop :=
           (builds <- Build_filter_unsigned_succeeded ;;
            for_each builds
              (fun build =>
                 atomic_sign_unsigned_builds (fst build) (snd build))) in
         let cycle := sign_unsigned_builds_cycle s in
         (forall e, value cycle = inl e -> is_Exception e = false)
         /\ (forall e,
                value (loop s) = inl e -> is_Exception e = false ->
                value cycle = inl e
                /\ logged_errors (events cycle) = []
                /\ sleeps (events cycle) = [])
         /\ (forall e,
                value (loop s) = inl e -> is_Exception e = true ->
                logged_errors (events cycle) = [e]
                /\ sleeps (events cycle) = [300])
         /\ (value (loop s) = inr tt ->
             logged_errors (events cycle) = []
             /\ sleeps (events cycle) = [300])
         /\ (forall nvr_arch e,
                In (Called (sign_koji_package nvr_arch) (Some e))
                   (events cycle) ->
                is_Exception e = false ->
                value cycle = inl e))
  /\ (forall (n : nat) (s : State W),
         (forall e, value (check_build_status n s) = inl e ->
                    is_Exception e = false)
         /\ (value (check_build_status n s) = inr tt ->
             sleeps (events (check_build_status n s)) = repeat 300 n))
  /\ (forall (n : nat) (s : State W),
         (forall e, value (sign_unsigned_builds n s) = inl e ->
                    is_Exception e = false)
         /\ (value (sign_unsigned_builds n s) = inr tt ->
             sleeps (events (sign_unsigned_builds n s))
             = if disable_sigul settings then [] else repeat 300 n)).
Proof.
  assert (Hshape : forall (banner : string) (loop : M W unit) (s : State W),
             emits_only W unit_effect loop ->
             let cycle :=
               (emit (LogDebug banner) ;;
                r <- try loop ;;
                match r with
                | inl e =>
                    if is_Exception e then emit (LogError e) else raise e
                | inr _ => ret tt
                end ;;
                sleep (60 * 5)) s in
             (forall e, value cycle = inl e -> is_Exception e = false)
             /\ (forall e,
                    value (loop s) = inl e -> is_Exception e = false ->
                    value cycle = inl e
                    /\ logged_errors (events cycle) = []
                    /\ sleeps (events cycle) = [])
             /\ (forall e,
                    value (loop s) = inl e -> is_Exception e = true ->
                    logged_errors (events cycle) = [e]
                    /\ sleeps (events cycle) = [300])
             /\ (value (loop s) = inr tt ->
                 logged_errors (events cycle) = []
                 /\ sleeps (events cycle) = [300])).
  { intros banner loop s Hloop cycle.
    destruct (cycle_summary banner loop (60 * 5) s Hloop) as [Hv [Hs Hl]].
    fold cycle in Hv, Hs, Hl. rewrite Hv, Hs, Hl.
    destruct (value (loop s)) as [e0|[]].
    - destruct (is_Exception e0) eqn:He0;
        (split; [|split; [|split]]);
        [ intros e H; discriminate H
        | intros e H He; injection H as <-; congruence
        | intros e H He; injection H as <-; split; reflexivity
        | intros H; discriminate H
        | intros e H; injection H as <-; exact He0
        | intros e H He; injection H as <-; repeat split
        | intros e H He; injection H as <-; congruence
        | intros H; discriminate H ].
    - (split; [|split; [|split]]);
        [ intros e H; discriminate H
        | intros e H; discriminate H
        | intros e H; discriminate H
        | intros _; split; reflexivity ]. }
  assert (Hcheck := fun s =>
            Hshape "[*] Running periodic task: check_build_status" _ s
                   status_loop_unit_effects).
  assert (Hsign := fun s =>
            Hshape "[*] Running periodic task: sign_unsigned_builds" _ s
                   signing_loop_unit_effects).
  cbv zeta in Hcheck, Hsign.
  split; [|split; [|split; [|split]]].
  - intros e. split.
    + destruct e; cbn; intros H; first [discriminate H | auto].
    + intros [->| ->]; reflexivity.
  - intros s loop cycle. exact (Hcheck s).
  - intros s loop cycle.
    destruct (Hsign s) as [H1 [H2 [H3 H4]]].
    split; [exact H1|]. split; [exact H2|]. split; [exact H3|].
    split; [exact H4|].
    intros nvr_arch e Hin He.
    assert (Hloop : value (loop s) = inl e).
    { apply (signing_loop_fails_fast s (sign_koji_package nvr_arch)).
      exact (cycle_calls _ _ _ _ _ _ Hin). }
    exact (proj1 (H2 e Hloop He)).
  - intros n s. unfold check_build_status.
    apply (turns_summary _ 300).
    + intros s0 e. apply (proj1 (Hcheck s0)).
    + intros s0 Hv. destruct (Hcheck s0) as [H1 [H2 [H3 H4]]].
      unfold check_build_status_cycle in Hv.
      destruct (value ((builds <- Build_filter_building ;;
                        for_each builds atomic_check_build_status) s0))
        as [e0|[]] eqn:Hl.
      * destruct (is_Exception e0) eqn:He0.
        -- exact (proj2 (H3 e0 eq_refl He0)).
        -- destruct (H2 e0 eq_refl He0) as [Hv' _].
           unfold check_build_status_cycle in Hv'. congruence.
      * exact (proj2 (H4 eq_refl)).
  - intros n s. unfold sign_unsigned_builds.
    destruct (disable_sigul settings); cbn;
      [split; [discriminate|reflexivity]|].
    apply (turns_summary _ 300).
    + intros s0 e. apply (proj1 (Hsign s0)).
    + intros s0 Hv. destruct (Hsign s0) as [H1 [H2 [H3 H4]]].
      unfold sign_unsigned_builds_cycle in Hv.
      destruct (value ((builds <- Build_filter_unsigned_succeeded ;;
                        for_each builds
                          (fun build =>
                             atomic_sign_unsigned_builds
                               (fst build) (snd build))) s0))
        as [e0|[]] eqn:Hl.
      * destruct (is_Exception e0) eqn:He0.
        -- exact (proj2 (H3 e0 eq_refl He0)).
        -- destruct (H2 e0 eq_refl He0) as [Hv' _].
           unfold sign_unsigned_builds_cycle in Hv'. congruence.
      * exact (proj2 (H4 eq_refl)).
Qed.

End Turns.

(** ** Runs of the Signing Coordinator *)

Section CoordinatorRuns.

Context {W : Type} {collab : Collaborators W}.

Lemma same_store_refl (d : Db) : same_store d d.
Proof. reflexivity. Qed.

Lemma same_store_trans (d1 d2 d3 : Db) :
  same_store d1 d2 -> same_store d2 d3 -> same_store d1 d3.
Proof. unfold same_store. congruence. Qed.

Lemma atomic_when_returns {A} (m : M W A) (s : State W) a :
  value (atomic m s) = inr a -> atomic m s = m s.
Proof.
  unfold atomic. destruct (m s) as [s1 ev1 [e|a']]; cbn;
    [discriminate|reflexivity].
Qed.

(** When [m] neither writes to the store nor saves a build, and what
    follows it returns only after one save of [b], its last effect, so
    does the sequence of the two. *)
Lemma returns_after_save {A} (m : M W A) (f : A -> M W unit) (b : Build.t) :
  keeps W same_store m ->
  quiet W is_SavedBuild m ->
  (forall a s,
      value (f a s) = inr tt ->
      db (state (f a s)) = saving b (db s)
      /\ exists evs, events (f a s) = evs ++ [SavedBuild b]
                     /\ saved_builds evs = []) ->
  forall s,
    value (bind m f s) = inr tt ->
    db (state (bind m f s)) = saving b (db s)
    /\ exists evs, events (bind m f s) = evs ++ [SavedBuild b]
                   /\ saved_builds evs = [].
Proof.
  intros Hkeep Hquiet Hf s. unfold bind.
  specialize (Hkeep s). specialize (Hquiet s).
  apply saved_builds_quiet in Hquiet. unfold same_store in Hkeep.
  destruct (m s) as [s1 ev1 [e|a]]; cbn in *; [discriminate|].
  intros Hv. destruct (Hf a s1 Hv) as [Hdb [evs [Hev Hsaved]]].
  split; [now rewrite Hdb, Hkeep|].
  exists (ev1 ++ evs). rewrite Hev, app_assoc. split; [reflexivity|].
  now rewrite saved_builds_app, Hquiet, Hsaved.
Qed.

(** X11. A remote call that raises during a run of the coordinator,
    whichever call it is (adding the package to the tag, listing builds,
    a history, artifact or signature query, a tag operation, a signer
    invocation, a signature write), ends the run with that exception:
    the build was not saved, and the store is as before the run. *)
Theorem failing_call_aborts_coordinator :
  forall (build : Build.t) (package : option Package.t) (s : State W)
         (c : Call) (e : exn),
    let run := atomic_sign_unsigned_builds build package s in
    In (Called c (Some e)) (events run) ->
    value run = inl e
    /\ saved_builds (events run) = []
    /\ db (state run) = db s.
Proof.
  intros build package s c e run Hin.
  assert (Hval : value run = inl e)
    by exact (fails_fast_atomic_sign_unsigned_builds build package s _ _ Hin).
  split; [exact Hval|]. split.
  - exact (coordinator_saves_last _ _ _ _ Hval).
  - exact (atomic_rolls_back _ _ _ Hval).
Qed.

(** A run of the coordinator on a task-backend build that returns has
    saved the build, under [set_signed], as its last effect and only
    save. *)
Lemma coordinator_returns_after_save :
  forall (build : Build.t) (package : option Package.t) (s : State W),
    truthy (Build.koji_id build) = true ->
    let run := atomic_sign_unsigned_builds build package s in
    let signed_build := Build.set_signed true build in
    value run = inr tt ->
    db (state run) = saving signed_build (db s)
    /\ saved_builds (events run) = [signed_build]
    /\ exists evs, events run = evs ++ [SavedBuild signed_build].
Proof.
  intros build package s Hk run signed_build Hv.
  subst run. unfold atomic_sign_unsigned_builds in *. rewrite Hk in *.
  pose proof Hv as Hv'. rewrite (atomic_when_returns _ _ _ Hv) in Hv' |- *.
  clear Hv.
  match type of Hv' with
  | value (?m s) = inr tt =>
      assert (Hbody :
                forall s0,
                  value (m s0) = inr tt ->
                  db (state (m s0)) = saving signed_build (db s0)
                  /\ exists evs,
                      events (m s0) = evs ++ [SavedBuild signed_build]
                      /\ saved_builds evs = [])
  end.
  { apply returns_after_save.
    { destruct package; [apply (keeps_ret _ same_store_refl)
                        |apply (keeps_raise _ same_store_refl)]. }
    { destruct package; [apply quiet_ret|apply quiet_raise]. }
    intros package_name. apply returns_after_save.
    { apply (keeps_call _ same_store_refl). }
    { apply (quiet_call is_SavedBuild). reflexivity. }
    intros _. apply returns_after_save.
    { apply (keeps_call _ same_store_refl). }
    { apply (quiet_call is_SavedBuild). reflexivity. }
    intros build_tasks. apply returns_after_save.
    { apply (keeps_for_each_with _ same_store_refl same_store_trans).
      intros v x.
      apply (keeps_for_build_task _ same_store_refl same_store_trans). }
    { apply quiet_for_each_with. intros v x.
      apply quiet_for_build_task; [apply is_SavedBuild_call|].
      right. reflexivity. }
    intros _ s0 _. split; [reflexivity|]. exists []. now split. }
  destruct (Hbody s Hv') as [Hdb [evs [Hev Hsaved]]].
  split; [exact Hdb|]. split; [|eauto].
  rewrite Hev, saved_builds_app, Hsaved. reflexivity.
Qed.

(** X12. A run of the coordinator on a task-backend build returns only
    after it has saved the build as signed: that save is the last effect
    of the run and its only save; in the store after the run the rows of
    the build have [signed = true] and the status the build was loaded
    with, and every other row and the package table are as they were. *)
Theorem coordinator_returns_after_marking_signed :
  forall (build : Build.t) (package : option Package.t) (s : State W),
    truthy (Build.koji_id build) = true ->
    let run := atomic_sign_unsigned_builds build package s in
    let signed_build := Build.set_signed true build in
    value run = inr tt ->
    (db (state run) = saving signed_build (db s)
     /\ saved_builds (events run) = [signed_build]
     /\ exists evs, events run = evs ++ [SavedBuild signed_build])
    /\ saved_with build (Build.status build) true
                  (builds (db s)) (builds (db (state run)))
    /\ map Build.signed (saved_builds (events run)) = [true]
    /\ packages (db (state run)) = packages (db s).
Proof.
  intros build package s Hk run signed_build Hv.
  destruct (coordinator_returns_after_save build package s Hk Hv)
    as [Hdb [Hsaved Hlast]].
  fold run signed_build in Hdb, Hsaved, Hlast.
  split; [split; [exact Hdb|split; [exact Hsaved|exact Hlast]]|].
  rewrite Hdb, Hsaved. repeat apply conj.
  - apply (saved_with_update_build build signed_build); reflexivity.
  - reflexivity.
  - reflexivity.
Qed.

(** X13. One artifact, when its signature query returns.  The signer is
    invoked once, for [nvr.arch]; if it raises, nothing is written and
    the exception ends the loop body; if it returns, the signature is
    written for the same [nvr.arch] under the configured key, and the
    outcome of that write is the outcome of the loop body.  The
    signatures the query returned play no part. *)
Theorem artifact_is_signed_then_recorded :
  forall (rpm : Rpm.t) (s : State W) w (rpm_sigs : list RpmSig.t) w1 r1,
    session (queryRPMSigs (Rpm.id rpm)) (world s) = (w, inr rpm_sigs) ->
    let nvr_arch := (Rpm.nvr rpm ++ "." ++ Rpm.arch rpm)%string in
    session (sign_koji_package nvr_arch) w = (w1, r1) ->
    (forall e,
        r1 = inl e ->
        for_rpm rpm s
        = {| state := {| world := w1; db := db s |};
             events := [Called (queryRPMSigs (Rpm.id rpm)) None;
                        Called (sign_koji_package nvr_arch) (Some e)];
             value := inl e |})
    /\ (forall w2 r2,
           r1 = inr tt ->
           session (writeSignedRPM nvr_arch (sigul_key_id settings)) w1
           = (w2, r2) ->
           for_rpm rpm s
           = {| state := {| world := w2; db := db s |};
                events :=
                  [Called (queryRPMSigs (Rpm.id rpm)) None;
                   Called (sign_koji_package nvr_arch) None;
                   Called (writeSignedRPM nvr_arch (sigul_key_id settings))
                          match r2 with
                          | inl e => Some e
                          | inr _ => None
                          end];
                value := r2 |}).
Proof.
  intros rpm s w rpm_sigs w1 r1 Hq nvr_arch Hs.
  assert (Hstart : forall k : M W unit,
             (rpm_sigs0 <- call (queryRPMSigs (Rpm.id rpm)) ;;
              for_each rpm_sigs0
                (fun rpm_sig =>
                   if (RpmSig.sigkey rpm_sig =? sigul_key_id settings)%string
                   then continue
                   else pass) ;;
              k) s
             = {| state := state (k {| world := w; db := db s |});
                  events := Called (queryRPMSigs (Rpm.id rpm)) None
                            :: events (k {| world := w; db := db s |});
                  value := value (k {| world := w; db := db s |}) |}).
  { intros k.
    rewrite (bind_returns _ _ _ _ _ _ (call_returns _ _ _ _ Hq)). cbv beta.
    rewrite (bind_returns _ _ _ _ _ _ (for_rpm_sigs_skips _ _)).
    reflexivity. }
  unfold for_rpm. fold nvr_arch. rewrite Hstart. split.
  - intros e ->.
    rewrite (bind_raises _ _ _ _ _ _
               (call_raises _ {| world := w; db := db s |} _ _ Hs)).
    reflexivity.
  - intros w2 r2 -> Hw.
    rewrite (bind_returns _ _ _ _ _ _
               (call_returns _ {| world := w; db := db s |} _ _ Hs)).
    cbv beta. unfold call. cbn. rewrite Hw. reflexivity.
Qed.

(** The run of the coordinator on a task for which the hub lists no
    builds. *)
Lemma task_without_builds_run :
  forall (build : Build.t) (package : Package.t) (s : State W) w1 w2,
    truthy (Build.koji_id build) = true ->
    session (packageListAdd tags_compose (Package.name package) "distrobuild")
            (world s)
    = (w1, inr tt) ->
    session (listBuilds (int_of (Build.koji_id build))) w1 = (w2, inr []) ->
    let signed_build := Build.set_signed true build in
    atomic_sign_unsigned_builds build (Some package) s
    = {| state := {| world := w2; db := saving signed_build (db s) |};
         events :=
           [Called (packageListAdd tags_compose (Package.name package)
                                   "distrobuild") None;
            Called (listBuilds (int_of (Build.koji_id build))) None;
            SavedBuild signed_build];
         value := inr tt |}.
Proof.
  intros build package s w1 w2 Hk Hadd Hlist signed_build.
  unfold atomic_sign_unsigned_builds. rewrite Hk. apply atomic_returns.
  rewrite (bind_returns _ _ s s [] (Package.name package) eq_refl). cbv beta.
  rewrite (bind_returns _ _ _ _ _ _ (call_returns _ _ _ _ Hadd)). cbv beta.
  rewrite (bind_returns _ _ _ _ _ _
             (call_returns _ {| world := w1; db := db s |} _ _ Hlist)).
  reflexivity.
Qed.

(** X14. A task for which the hub lists no builds: nothing is tagged
    and nothing is signed, and the build is saved as signed all the
    same: in the store after the run its rows have [signed = true]. *)
Theorem task_without_builds_is_marked_signed :
  forall (build : Build.t) (package : Package.t) (s : State W) w1 w2,
    truthy (Build.koji_id build) = true ->
    session (packageListAdd tags_compose (Package.name package) "distrobuild")
            (world s)
    = (w1, inr tt) ->
    session (listBuilds (int_of (Build.koji_id build))) w1 = (w2, inr []) ->
    let signed_build := Build.set_signed true build in
    let run := atomic_sign_unsigned_builds build (Some package) s in
    run
    = {| state := {| world := w2; db := saving signed_build (db s) |};
         events :=
           [Called (packageListAdd tags_compose (Package.name package)
                                   "distrobuild") None;
            Called (listBuilds (int_of (Build.koji_id build))) None;
            SavedBuild signed_build];
         value := inr tt |}
    /\ saved_with build (Build.status build) true
                  (builds (db s)) (builds (db (state run)))
    /\ map Build.signed (saved_builds (events run)) = [true]
    /\ tagBuild_calls (events run) = []
    /\ signer_calls (events run) = [].
Proof.
  intros build package s w1 w2 Hk Hadd Hlist signed_build run.
  pose proof (task_without_builds_run build package s w1 w2 Hk Hadd Hlist)
    as Hrun.
  fold run in Hrun. cbv zeta in Hrun. fold signed_build in Hrun.
  split; [exact Hrun|]. rewrite Hrun. repeat apply conj.
  - apply (saved_with_update_build build signed_build); reflexivity.
  - reflexivity.
  - reflexivity.
  - reflexivity.
Qed.

(** X15. In the turn of the loop for one build task, the tag decision
    comes before the artifacts: the effects of the turn split into a
    first part that holds the history query and the tag operation, if
    one is issued, and nothing else, and a second part in which no tag
    operation occurs.  So every signer invocation and every signature
    write of the turn comes after its tag operation. *)
Theorem tag_operation_precedes_signing :
  forall (should_tag : bool) (build_task : BuildTask.t) (s : State W),
  exists before after,
    events (for_build_task should_tag build_task s) = before ++ after
    /\ Forall (tagging_effect build_task) before
    /\ signer_calls before = []
    /\ tagBuild_calls after = [].
Proof.
  intros should_tag build_task s.
  assert (Hq : forall c r,
             c = queryHistory (BuildTask.build_id build_task)
             \/ c = tagBuild tags_compose (BuildTask.nvr build_task) ->
             tagging_effect build_task (Called c r)).
  { intros c r H. exists c, r. now split. }
  unfold for_build_task.
  destruct (session (queryHistory (BuildTask.build_id build_task)) (world s))
    as [w [e|build_history]] eqn:E.
  - rewrite (bind_raises _ _ _ _ _ _ (call_raises _ _ _ _ E)).
    eexists [_], []. cbn. repeat split; auto.
  - rewrite (bind_returns _ _ _ _ _ _ (call_returns _ _ _ _ E)). cbv beta.
    cbn [events].
    set (s1 := {| world := w; db := db s |}).
    set (should_tag' := scan_tag_listing build_history should_tag).
    pose proof (fun s => tagBuild_calls_quiet _
                  (quiet_sign_rpms is_tagBuild is_tagBuild_call
                     build_task should_tag' s)) as Hrest.
    destruct should_tag'; cbv iota.
    + destruct (session (tagBuild tags_compose (BuildTask.nvr build_task))
                        (world s1)) as [w2 [e2|[]]] eqn:E2.
      * rewrite (bind_raises _ _ _ _ _ _ (call_raises _ _ _ _ E2)).
        eexists [_; _], []. cbn. repeat split; auto.
      * rewrite (bind_returns _ _ _ _ _ _ (call_returns _ _ _ _ E2)).
        cbv beta. cbn [events].
        eexists [_; _], _. cbn. repeat split; auto.
    + unfold bind at 1. cbn.
      eexists [_], _. cbn. repeat split; auto.
Qed.

End CoordinatorRuns.

(** ** Cycles with nothing to do, and signing switched off *)

Section Idle.

Context {W : Type} {collab : Collaborators W}.

(** X16. A cycle whose query selects no build makes no remote call and
    writes nothing: it logs its banner and sleeps. *)
Theorem cycle_without_candidates_only_sleeps :
  forall s : State W,
    (candidates_for_status (db s) = [] ->
     check_build_status_cycle s
     = {| state := {| world := asyncio_sleep 300 (world s); db := db s |};
          events := [LogDebug "[*] Running periodic task: check_build_status";
                     Slept 300];
          value := inr tt |})
    /\ (candidates_for_signing (db s) = [] ->
        sign_unsigned_builds_cycle s
        = {| state := {| world := asyncio_sleep 300 (world s); db := db s |};
             events :=
               [LogDebug "[*] Running periodic task: sign_unsigned_builds";
                Slept 300];
             value := inr tt |}).
Proof.
  intros s. split; intros H.
  - unfold check_build_status_cycle, bind, try, emit, sleep,
      Build_filter_building, ret; cbn. rewrite H. reflexivity.
  - unfold sign_unsigned_builds_cycle, bind, try, emit, sleep,
      Build_filter_unsigned_succeeded, ret; cbn. rewrite H. reflexivity.
Qed.

Lemma reconciler_queries_only (build : Build.t) :
  emits_only W query_or_local (atomic_check_build_status build).
Proof. apply emits_atomic_check_build_status; cbn; auto. Qed.

Lemma status_cycle_queries_only :
  emits_only W query_or_local check_build_status_cycle.
Proof.
  unfold check_build_status_cycle.
  apply emits_bind; [now apply emits_emit|intros _].
  apply emits_bind.
  - apply emits_try. apply emits_bind; [intros s; constructor|intros builds].
    apply emits_for_each, reconciler_queries_only.
  - intros r. apply emits_bind; [|intros _; now apply emits_sleep].
    destruct r as [e|];
      [destruct (is_Exception e); [now apply emits_emit|apply emits_raise]
      |apply emits_ret].
Qed.

Lemma turn_without_signing (t : PeriodicTask) (s : State W) :
  disable_sigul settings = true ->
  unique_ids (db s) ->
  Forall query_or_local (events (turn t s))
  /\ Forall2 (fun r r' => Build.id r' = Build.id r
                          /\ Build.signed r' = Build.signed r)
             (builds (db s)) (builds (db (state (turn t s))))
  /\ unique_ids (db (state (turn t s))).
Proof.
  intros Hd Hu. destruct t; unfold turn.
  - split; [apply status_cycle_queries_only|]. split.
    + eapply Forall2_impl; [|exact (status_cycle_rows s Hu)].
      intros r r' [->|[_ [st ->]]]; now split.
    + exact (touched_unique_ids _ _ _ (check_build_status_cycle_touches s) Hu).
  - rewrite Hd. cbn. split; [constructor|]. split; [|exact Hu].
    apply Forall2_refl. now split.
Qed.

(** X17. With signing administratively disabled the signing task does
    nothing at all, however many turns it is given.  Through every
    schedule of turns of the two periodic tasks no tag operation, signer
    invocation or write to a backend happens (every remote call is a
    state query), and, with unique build ids, the [signed] column of
    every row stays as it was. *)
Theorem disabled_signing_signs_nothing :
  disable_sigul settings = true ->
  (forall (n : nat) (s : State W),
      sign_unsigned_builds n s = {| state := s; events := []; value := inr tt |})
  /\ (forall (ts : list PeriodicTask) (s : State W),
         unique_ids (db s) ->
         Forall query_or_local (events (run_schedule ts s))
         /\ Forall2 (fun r r' => Build.id r' = Build.id r
                                 /\ Build.signed r' = Build.signed r)
                    (builds (db s))
                    (builds (db (state (run_schedule ts s))))).
Proof.
  intros Hd. split.
  - intros n s. unfold sign_unsigned_builds. rewrite Hd. reflexivity.
  - induction ts as [|t ts IH]; intros s Hu; cbn.
    + split; [constructor|]. apply Forall2_refl. now split.
    + unfold bind. destruct (turn_without_signing t s Hd Hu) as [He [Hr Hu']].
      destruct (turn t s) as [s1 ev1 [e|[]]]; cbn in *; [now split|].
      destruct (IH s1 Hu') as [He' Hr']. split.
      * apply Forall_app. now split.
      * eapply Forall2_trans; [|exact Hr|exact Hr'].
        intros x y z [H1 H2] [H3 H4]. split; congruence.
Qed.

End Idle.

(** ** The further properties at work on the concrete inputs *)

Section MoreWitnesses.

Ltac member := vm_compute; repeat (first [left; reflexivity | right]).

(** Task 48 is CANCELED. *)
Lemma canceled_task_marks_build_cancelled_witness :
  let build' := Build.set_status BuildStatus.CANCELLED Corner.build48 in
  let run := atomic_check_build_status Corner.build48 Corner.initial in
  run
  = {| state :=
         {| world := Corner.hub;
            db := {| builds := update_build build' (builds Corner.store);
                     packages := packages Corner.store |} |};
       events := [Called (getTaskInfo 48) None; SavedBuild build'];
       value := inr tt |}
  /\ status_column (builds (db (state run)))
     = [(9, BuildStatus.CANCELLED); (10, BuildStatus.BUILDING);
        (11, BuildStatus.SUCCEEDED); (13, BuildStatus.BUILDING);
        (14, BuildStatus.BUILDING); (12, BuildStatus.BUILDING)]
  /\ signed_column (builds (db (state run)))
     = signed_column (builds Corner.store)
  /\ packages (db (state run)) = packages Corner.store.
Proof.
  intros build' run.
  destruct (canceled_task_marks_build_cancelled
              (collab := Mock.collaborators)
              Corner.build48 Corner.initial Corner.hub
              (TaskInfo.mk koji.CANCELED) eq_refl eq_refl eq_refl)
    as [Hrun _].
  split; [exact Hrun|]. fold run in Hrun. rewrite Hrun. repeat split.
Defined.

(** Task 49 is CLOSED and module build 51 is [ready], but package 99 is
    not in the store. *)
Lemma success_without_package_is_rolled_back_witness :
  atomic_check_build_status Corner.build49 Corner.initial
  = {| state := Corner.initial;
       events := [Called (getTaskInfo 49) None;
                  SavedBuild (Build.set_status BuildStatus.SUCCEEDED
                                               Corner.build49)];
       value := inl DoesNotExist |}
  /\ atomic_check_build_status Corner.build51 Corner.initial
     = {| state := Corner.initial;
          events := [Called (get_build 51) None;
                     SavedBuild (Build.set_status BuildStatus.SUCCEEDED
                                                  Corner.build51)];
          value := inl DoesNotExist |}.
Proof.
  split.
  - exact (proj1 (success_without_package_is_rolled_back
                    Corner.build49 Corner.initial eq_refl)
                 Corner.hub (TaskInfo.mk koji.CLOSED)
                 eq_refl eq_refl eq_refl).
  - exact (proj2 (success_without_package_is_rolled_back
                    Corner.build51 Corner.initial eq_refl)
                 Corner.hub (ModuleBuild.mk "ready")
                 eq_refl eq_refl eq_refl eq_refl).
Defined.

(** The hub does not know task 45, MBS does not know module build 52. *)
Lemma backend_query_failure_propagates_witness :
  atomic_check_build_status Scenario.build45 Scenario.initial
  = {| state := Scenario.initial;
       events := [Called (getTaskInfo 45) (Some GenericError)];
       value := inl GenericError |}
  /\ atomic_check_build_status Corner.build52 Corner.initial
     = {| state := Corner.initial;
          events := [Called (get_build 52) (Some (Exception "HTTP 404"))];
          value := inl (Exception "HTTP 404") |}.
Proof.
  split.
  - exact (proj1 (backend_query_failure_propagates
                    Scenario.build45 Scenario.initial Scenario.hub
                    GenericError)
                 eq_refl eq_refl).
  - exact (proj2 (backend_query_failure_propagates
                    Corner.build52 Corner.initial Corner.hub
                    (Exception "HTTP 404"))
                 eq_refl eq_refl eq_refl).
Defined.

(** A row with neither backend id. *)
Lemma reconciler_effects_witness :
  atomic_check_build_status Corner.build_nowhere Corner.initial
  = {| state := Corner.initial; events := []; value := inr tt |}
  /\ Forall (reconciler_effect Scenario.build43)
            (events (atomic_check_build_status Scenario.build43
                                               Scenario.initial)).
Proof.
  split.
  - exact (proj2 reconciler_effects
                 Corner.build_nowhere Corner.initial eq_refl eq_refl).
  - exact (proj1 reconciler_effects Scenario.build43 Scenario.initial).
Defined.

(** One status cycle on the initial store. *)
Lemma status_cycle_changes_only_status_of_building_rows_witness :
  Forall2 (fun r r' => r' = r \/ reconciled r r')
          (builds Scenario.store)
          (builds (db (state (check_build_status_cycle Scenario.initial)))).
Proof.
  exact (status_cycle_changes_only_status_of_building_rows
           Scenario.initial initial_store_unique_ids).
Defined.

(** One signing cycle on the initial store. *)
Lemma signing_cycle_changes_only_signed_of_candidates_witness :
  Forall2 (fun r r' => r' = r \/ marked_signed r r')
          (builds Scenario.store)
          (builds (db (state (sign_unsigned_builds_cycle Scenario.initial)))).
Proof.
  exact (signing_cycle_changes_only_signed_of_candidates
           Scenario.initial initial_store_unique_ids).
Defined.

(** A schedule of three turns on the initial store. *)
Lemma rows_evolve_through_every_schedule_witness :
  Forall2 evolves
          (builds Scenario.store)
          (builds (db (state (run_schedule
                                [CheckBuildStatus; SignUnsignedBuilds;
                                 CheckBuildStatus]
                                Scenario.initial)))).
Proof.
  exact (proj1 (rows_evolve_through_every_schedule
                  [CheckBuildStatus; SignUnsignedBuilds; CheckBuildStatus]
                  Scenario.initial initial_store_unique_ids)).
Defined.

(** The hub refuses to tag the build of task 44. *)
Lemma failing_call_aborts_coordinator_witness :
  let run :=
    atomic_sign_unsigned_builds (collab := refusing_tags)
      Scenario.build44 (Some Scenario.bash) Scenario.initial in
  value run = inl Fault
  /\ saved_builds (events run) = []
  /\ db (state run) = Scenario.store.
Proof.
  intros run.
  assert (Hin : In (Called (tagBuild "dist-compose" "bash-5.0-1") (Some Fault))
                   (events run)) by member.
  exact (failing_call_aborts_coordinator
           (collab := refusing_tags)
           Scenario.build44 (Some Scenario.bash) Scenario.initial _ _ Hin).
Defined.

(** The run on task 44 returns. *)
Lemma coordinator_returns_after_marking_signed_witness :
  let run :=
    atomic_sign_unsigned_builds Scenario.build44 (Some Scenario.bash)
                                Scenario.initial in
  let signed_build := Build.set_signed true Scenario.build44 in
  (db (state run) = saving signed_build Scenario.store
   /\ saved_builds (events run) = [signed_build]
   /\ exists evs, events run = evs ++ [SavedBuild signed_build])
  /\ signed_column (builds (db (state run)))
     = [(1, false); (2, false); (3, false); (4, false);
        (5, false); (6, false); (7, true); (8, false)]
  /\ status_column (builds (db (state run)))
     = status_column (builds Scenario.store).
Proof.
  intros run signed_build.
  assert (Hv : value run = inr tt) by (vm_compute; reflexivity).
  destruct (coordinator_returns_after_marking_signed
              Scenario.build44 (Some Scenario.bash) Scenario.initial
              eq_refl Hv)
    as [[Hdb Hrest] _].
  split; [split; [exact Hdb|exact Hrest]|].
  fold run in Hdb. rewrite Hdb. split; reflexivity.
Defined.

(** Artifact 10 is signed and recorded; for artifact 20 the signer is
    down. *)
Lemma artifact_is_signed_then_recorded_witness :
  for_rpm (Rpm.mk 10 "bash-5.0-1" "x86_64") Scenario.initial
  = {| state :=
         {| world := Mock.write_signed "bash-5.0-1.x86_64" "KEY" Scenario.hub;
            db := Scenario.store |};
       events := [Called (queryRPMSigs 10) None;
                  Called (sign_koji_package "bash-5.0-1.x86_64") None;
                  Called (writeSignedRPM "bash-5.0-1.x86_64" "KEY") None];
       value := inr tt |}
  /\ for_rpm (Rpm.mk 20 "bash-5.0-2" "x86_64") Scenario.initial
     = {| state := Scenario.initial;
          events := [Called (queryRPMSigs 20) None;
                     Called (sign_koji_package "bash-5.0-2.x86_64")
                            (Some (Exception "sigul failed"))];
          value := inl (Exception "sigul failed") |}.
Proof.
  split.
  - exact (proj2 (artifact_is_signed_then_recorded
                    (Rpm.mk 10 "bash-5.0-1" "x86_64") Scenario.initial
                    Scenario.hub [RpmSig.mk "KEY"] Scenario.hub (inr tt)
                    eq_refl eq_refl)
                 (Mock.write_signed "bash-5.0-1.x86_64" "KEY" Scenario.hub)
                 (inr tt) eq_refl eq_refl).
  - exact (proj1 (artifact_is_signed_then_recorded
                    (Rpm.mk 20 "bash-5.0-2" "x86_64") Scenario.initial
                    Scenario.hub [] Scenario.hub
                    (inl (Exception "sigul failed"))
                    eq_refl eq_refl)
                 (Exception "sigul failed") eq_refl).
Defined.

(** The hub lists no builds for task 50. *)
Lemma task_without_builds_is_marked_signed_witness :
  let signed_build := Build.set_signed true Corner.build50 in
  let run :=
    atomic_sign_unsigned_builds Corner.build50 (Some Scenario.bash)
                                Corner.initial in
  run
  = {| state := {| world := Corner.hub;
                   db := saving signed_build Corner.store |};
       events := [Called (packageListAdd "dist-compose" "bash" "distrobuild")
                         None;
                  Called (listBuilds 50) None;
                  SavedBuild signed_build];
       value := inr tt |}
  /\ signed_column (builds (db (state run)))
     = [(9, false); (10, false); (11, true); (13, false);
        (14, false); (12, false)].
Proof.
  intros signed_build run.
  destruct (task_without_builds_is_marked_signed
              (collab := Mock.collaborators)
              Corner.build50 Scenario.bash Corner.initial Corner.hub
              Corner.hub eq_refl eq_refl eq_refl)
    as [Hrun _].
  split; [exact Hrun|]. fold run in Hrun. rewrite Hrun. reflexivity.
Defined.

(** The signing cycle on the initial store: with the signer down, the
    exception is logged and the cycle sleeps; with a signer whose
    invocation is cancelled, the cancellation ends the cycle. *)
Lemma periodic_task_ends_only_on_uncaught_exception_witness :
  (logged_errors (events (sign_unsigned_builds_cycle Scenario.initial))
   = [Exception "sigul failed"]
   /\ sleeps (events (sign_unsigned_builds_cycle Scenario.initial)) = [300])
  /\ (value (sign_unsigned_builds_cycle (collab := cancelled_signer)
                                       Scenario.initial)
      = inl CancelledError
      /\ logged_errors
           (events (sign_unsigned_builds_cycle (collab := cancelled_signer)
                                               Scenario.initial)) = []
      /\ sleeps
           (events (sign_unsigned_builds_cycle (collab := cancelled_signer)
                                               Scenario.initial)) = [])
  /\ value (sign_unsigned_builds_cycle (collab := cancelled_signer)
                                      Scenario.initial)
     = inl CancelledError.
Proof.
  destruct (proj1 (proj2 (proj2
                            (periodic_task_ends_only_on_uncaught_exception
                               (collab := Mock.collaborators))))
                  Scenario.initial)
    as [_ [_ [Hlogged _]]].
  destruct (proj1 (proj2 (proj2
                            (periodic_task_ends_only_on_uncaught_exception
                               (collab := cancelled_signer))))
                  Scenario.initial)
    as [_ [Hescapes [_ [_ Hsigner]]]].
  split; [exact (Hlogged (Exception "sigul failed") eq_refl eq_refl)|].
  split; [exact (Hescapes CancelledError eq_refl eq_refl)|].
  apply (Hsigner "bash-5.0-2.x86_64" CancelledError); [|reflexivity].
  vm_compute. repeat (first [left; reflexivity | right]).
Defined.

(** Nothing is left to do in the settled store. *)
Lemma cycle_without_candidates_only_sleeps_witness :
  events (check_build_status_cycle Corner.settled)
  = [LogDebug "[*] Running periodic task: check_build_status"; Slept 300]
  /\ events (sign_unsigned_builds_cycle Corner.settled)
     = [LogDebug "[*] Running periodic task: sign_unsigned_builds"; Slept 300]
  /\ db (state (check_build_status_cycle Corner.settled)) = db Corner.settled
  /\ db (state (sign_unsigned_builds_cycle Corner.settled))
     = db Corner.settled.
Proof.
  pose proof (proj1 (cycle_without_candidates_only_sleeps Corner.settled)
                    eq_refl) as Hcheck.
  pose proof (proj2 (cycle_without_candidates_only_sleeps Corner.settled)
                    eq_refl) as Hsign.
  rewrite Hcheck, Hsign. repeat split.
Defined.

(** The initial store with signing disabled. *)
Lemma disabled_signing_signs_nothing_witness :
  sign_unsigned_builds (collab := signing_disabled) 3 Scenario.initial
  = {| state := Scenario.initial; events := []; value := inr tt |}
  /\ forall ts : list PeriodicTask,
      Forall query_or_local
             (events (run_schedule (collab := signing_disabled)
                                   ts Scenario.initial))
      /\ Forall2 (fun r r' => Build.id r' = Build.id r
                              /\ Build.signed r' = Build.signed r)
                 (builds Scenario.store)
                 (builds (db (state (run_schedule (collab := signing_disabled)
                                                  ts Scenario.initial)))).
Proof.
  destruct (disabled_signing_signs_nothing (collab := signing_disabled)
                                           eq_refl) as [Hnothing Hschedule].
  split; [exact (Hnothing 3%nat Scenario.initial)|].
  intros ts. exact (Hschedule ts Scenario.initial initial_store_unique_ids).
Defined.

End MoreWitnesses.
